(** * Zotero abstract tools: ledger codec, DOI cleaning, reconciliation,
      abstract segmentation

    A shallow embedding of the correctness-relevant parts of
    [zotero_abstract_fetcher.py] and [zotero_pdf_abstract_extractor.py].
    [clean_doi], [format_citation], [parse_abstract_updates_file] and the
    lookups of [process_from_updates_file] are the same text in both
    scripts and are embedded once; the applier and [run] of the fetcher
    come first, those of the extractor are in the module [Extractor]; the
    segmenter is the extractor's.

    Text.  A Python [str] is modelled as a list of [ascii] characters, read
    as the code points 0..255.  The character classes below ([\s], [\d],
    [\w], case folding) are the ones Python 3 uses for these code points.

    Regular expressions.  Patterns of the [re] module are written as terms
    of [regex] and run by a backtracking matcher with Python's priorities
    (leftmost start, greedy repetition, ordered alternation). *)

From Stdlib Require Import Ascii String Decimal.
From stdpp Require Import base list gmap strings sorting.

Local Open Scope list_scope.

(** ** Characters and strings *)

Definition str := list ascii.

Definition py (s : string) : str := list_ascii_of_string s.

Definition ord (c : ascii) : nat := nat_of_ascii c.

Definition between (lo hi n : nat) : bool := (lo <=? n) && (n <=? hi).

(** [str.isspace] and the class [\s] on code points below 256. *)
Definition is_space (c : ascii) : bool :=
  let n := ord c in
  between 9 13 n || between 28 32 n || (n =? 133) || (n =? 160).

(** The class [\d]. *)
Definition is_digit (c : ascii) : bool := between 48 57 (ord c).

Definition is_upper_ascii (c : ascii) : bool := between 65 90 (ord c).
Definition is_lower_ascii (c : ascii) : bool := between 97 122 (ord c).

(** The class [\w]: [str.isalnum] or underscore. *)
Definition is_word (c : ascii) : bool :=
  let n := ord c in
  is_digit c || is_upper_ascii c || is_lower_ascii c || (n =? 95)
  || (n =? 170) || (n =? 178) || (n =? 179) || (n =? 181) || (n =? 185)
  || (n =? 186) || between 188 190 n || between 192 214 n
  || between 216 246 n || between 248 255 n.

(** [str.lower] on one character. *)
Definition lower_char (c : ascii) : ascii :=
  let n := ord c in
  if between 65 90 n || between 192 214 n || between 216 222 n
  then ascii_of_nat (n + 32) else c.

Definition str_lower (s : str) : str := map lower_char s.

Definition char_eqb (a b : ascii) : bool := Ascii.eqb a b.

(** A pattern letter under [re.IGNORECASE]. *)
Definition char_eqb_ci (a b : ascii) : bool :=
  char_eqb (lower_char a) (lower_char b).

Definition mem_char (cs : str) (c : ascii) : bool := existsb (char_eqb c) cs.

Fixpoint dropwhile (p : ascii -> bool) (s : str) : str :=
  match s with
  | [] => []
  | c :: t => if p c then dropwhile p t else s
  end.

Definition lstrip_by (p : ascii -> bool) (s : str) : str := dropwhile p s.
Definition rstrip_by (p : ascii -> bool) (s : str) : str :=
  rev (dropwhile p (rev s)).

(** [s.rstrip(chars)] *)
Definition str_rstrip (chars : str) (s : str) : str :=
  rstrip_by (mem_char chars) s.

(** [s.strip()] *)
Definition str_strip (s : str) : str := rstrip_by is_space (lstrip_by is_space s).

(** [s.startswith(pre)] *)
Fixpoint startswith (pre s : str) : bool :=
  match pre, s with
  | [], _ => true
  | a :: pre', b :: s' => char_eqb a b && startswith pre' s'
  | _ :: _, [] => false
  end.

(** [s.split()]: the maximal runs of non-whitespace characters. *)
Fixpoint split_ws (word : str) (s : str) : list str :=
  match s with
  | [] => match word with [] => [] | _ => [rev word] end
  | c :: t =>
      if is_space c
      then match word with [] => split_ws [] t | _ => rev word :: split_ws [] t end
      else split_ws (c :: word) t
  end.

Definition str_split (s : str) : list str := split_ws [] s.

(** Decimal rendering of a natural number, as [str(n)] and [f"{n}"]. *)
Fixpoint uint_chars (d : Decimal.uint) : str :=
  match d with
  | Nil => []
  | D0 d => "0"%char :: uint_chars d
  | D1 d => "1"%char :: uint_chars d
  | D2 d => "2"%char :: uint_chars d
  | D3 d => "3"%char :: uint_chars d
  | D4 d => "4"%char :: uint_chars d
  | D5 d => "5"%char :: uint_chars d
  | D6 d => "6"%char :: uint_chars d
  | D7 d => "7"%char :: uint_chars d
  | D8 d => "8"%char :: uint_chars d
  | D9 d => "9"%char :: uint_chars d
  end.

Definition dec (n : nat) : str :=
  match Nat.to_uint n with
  | Nil => py "0"
  | d => uint_chars d
  end.

(** ** Regular expressions *)

Inductive regex : Type :=
  | Eps                                   (* empty pattern *)
  | Cls (p : ascii -> bool)               (* one character of a class *)
  | Seq (r1 r2 : regex)                   (* r1 r2 *)
  | Alt (r1 r2 : regex)                   (* r1|r2 *)
  | Opt (r : regex)                       (* r? *)
  | Star (p : ascii -> bool)              (* c* on a character class *)
  | Plus (p : ascii -> bool)              (* c+ on a character class *)
  | Grp (r : regex)                       (* the group read back by group(1) *)
  | Bos                                   (* ^ *)
  | Eos                                   (* $ *)
  | Bol                                   (* ^ under re.MULTILINE *)
  | Eol                                   (* $ under re.MULTILINE *)
  | Wordb.                                (* \b *)

(** Position of the matcher: the text already passed (last character
    first), the text still ahead, and the contents of group 1. *)
Record mstate := MState { seen : str; ahead : str; grp1 : option str }.

Definition consumed (s e : mstate) : nat := length (ahead s) - length (ahead e).

Definition nl : ascii := "010"%char.
Definition cr : ascii := "013"%char.

Definition opt_word (o : option ascii) : bool :=
  match o with Some c => is_word c | None => false end.

(** [x orelse y]: [y] is looked at only when [x] fails. *)
Notation "x 'orelse' y" :=
  (match x with Some v => Some v | None => y end)
  (at level 60, right associativity, only parsing).

Fixpoint star_loop (p : ascii -> bool) (k : mstate -> option mstate)
    (g : option str) (sn ah : str) : option mstate :=
  match ah with
  | c :: t =>
      if p c
      then star_loop p k g (c :: sn) t orelse k (MState sn ah g)
      else k (MState sn ah g)
  | [] => k (MState sn ah g)
  end.

Fixpoint rmatch (r : regex) (k : mstate -> option mstate) (s : mstate)
    : option mstate :=
  match r with
  | Eps => k s
  | Cls p =>
      match ahead s with
      | c :: t => if p c then k (MState (c :: seen s) t (grp1 s)) else None
      | [] => None
      end
  | Seq r1 r2 => rmatch r1 (rmatch r2 k) s
  | Alt r1 r2 => rmatch r1 k s orelse rmatch r2 k s
  | Opt r1 => rmatch r1 k s orelse k s
  | Star p => star_loop p k (grp1 s) (seen s) (ahead s)
  | Plus p =>
      match ahead s with
      | c :: t => if p c then star_loop p k (grp1 s) (c :: seen s) t else None
      | [] => None
      end
  | Grp r1 =>
      rmatch r1
        (fun e => k (MState (seen e) (ahead e)
                       (Some (take (consumed s e) (ahead s))))) s
  | Bos => match seen s with [] => k s | _ => None end
  | Eos =>
      match ahead s with
      | [] => k s
      | [c] => if char_eqb c nl then k s else None
      | _ => None
      end
  | Bol =>
      match seen s with
      | [] => k s
      | c :: _ => if char_eqb c nl then k s else None
      end
  | Eol =>
      match ahead s with
      | [] => k s
      | c :: _ => if char_eqb c nl then k s else None
      end
  | Wordb =>
      if xorb (opt_word (head (seen s))) (opt_word (head (ahead s)))
      then k s else None
  end.

(** A match object: where the match starts and where it ends. *)
Record match_obj := MatchObj { m_from : mstate; m_to : mstate }.

Definition m_start (m : match_obj) : nat := length (seen (m_from m)).
Definition m_end (m : match_obj) : nat := length (seen (m_to m)).
Definition group1 (m : match_obj) : str := default [] (grp1 (m_to m)).
Definition group0 (m : match_obj) : str :=
  take (consumed (m_from m) (m_to m)) (ahead (m_from m)).

Definition match_at (r : regex) (sn ah : str) : option match_obj :=
  let s := MState sn ah None in
  match rmatch r Some s with
  | Some e => Some (MatchObj s e)
  | None => None
  end.

(** [re.match(r, s)] *)
Definition re_match (r : regex) (s : str) : option match_obj := match_at r [] s.

Fixpoint search_from (r : regex) (sn ah : str) : option match_obj :=
  match match_at r sn ah with
  | Some m => Some m
  | None =>
      match ah with
      | c :: t => search_from r (c :: sn) t
      | [] => None
      end
  end.

(** [re.search(r, s)] *)
Definition re_search (r : regex) (s : str) : option match_obj := search_from r [] s.

(** A match that must not be empty: the retry [re.sub] makes at the
    position of an empty match. *)
Definition advancing (s : mstate) (e : mstate) : option mstate :=
  match consumed s e with 0 => None | S _ => Some e end.

(** [re.sub(r, repl, s)] for a replacement without group references.
    [skip] counts the characters of the current match still to pass. *)
Fixpoint sub_go (r : regex) (repl : str) (skip : nat) (sn ah : str) : str :=
  match skip, ah with
  | S n, c :: t => sub_go r repl n (c :: sn) t
  | S _, [] => []
  | 0, _ =>
      let s := MState sn ah None in
      (* no match here: the character is kept *)
      let copy (_ : unit) :=
        match ah with
        | c :: t => c :: sub_go r repl 0 (c :: sn) t
        | [] => []
        end in
      (* a match of n + 1 characters: they are passed over *)
      let jump (n : nat) :=
        match ah with
        | c :: t => sub_go r repl n (c :: sn) t
        | [] => []
        end in
      match rmatch r Some s with
      | None => copy ()
      | Some e =>
          match consumed s e with
          | S n => repl ++ jump n
          | 0 =>
              repl ++
              match rmatch r (advancing s) s with
              | Some e' =>
                  match consumed s e' with
                  | S n => repl ++ jump n
                  | 0 => copy ()
                  end
              | None => copy ()
              end
          end
      end
  end.

Definition re_sub (r : regex) (repl : str) (s : str) : str := sub_go r repl 0 [] s.

(** Pattern builders. *)
Definition dot : ascii -> bool := fun c => negb (char_eqb c nl).

Fixpoint lit (s : str) : regex :=
  match s with
  | [] => Eps
  | c :: t => Seq (Cls (char_eqb c)) (lit t)
  end.

Fixpoint lit_ci (s : str) : regex :=
  match s with
  | [] => Eps
  | c :: t => Seq (Cls (char_eqb_ci c)) (lit_ci t)
  end.

Fixpoint rep (n : nat) (r : regex) : regex :=
  match n with
  | 0 => Eps
  | S n' => Seq r (rep n' r)
  end.

Fixpoint seqs (rs : list regex) : regex :=
  match rs with
  | [] => Eps
  | r :: rs' => Seq r (seqs rs')
  end.

(** ** Identifier normalizer: [clean_doi] *)

(** The pattern "^https?://(dx\.)?doi\.org/" *)
Definition re_doi_resolver : regex :=
  seqs [Bos; lit (py "http"); Opt (lit (py "s")); lit (py "://");
        Opt (lit (py "dx.")); lit (py "doi.org/")].

(** The pattern "^doi:" with [re.IGNORECASE] *)
Definition re_doi_label : regex := Seq Bos (lit_ci (py "doi:")).

Definition clean_doi (doi : str) : str :=
  let doi := re_sub re_doi_resolver [] doi in
  let doi := re_sub re_doi_label [] doi in
  let doi := str_rstrip (py ".,;:") doi in
  str_strip doi.

(** ** Ledger parser: [parse_abstract_updates_file]

    The parser builds Python dicts with the keys ['citation'], ['title'],
    ['doi'] and ['abstract'], appends references to them to the list
    [updates], and keeps writing through [current_item].  The dicts live
    in a store; [updates] and [current_item] hold references into it, so
    that a dict reachable both ways is one object. *)

Record ledger_item := LedgerItem {
  citation : option str;
  title : option str;
  doi : option str;
  abstract : option str
}.

Definition empty_item : ledger_item := LedgerItem None None None None.

Definition set_title (v : str) (d : ledger_item) : ledger_item :=
  LedgerItem (citation d) (Some v) (doi d) (abstract d).
Definition set_doi (v : str) (d : ledger_item) : ledger_item :=
  LedgerItem (citation d) (title d) (Some v) (abstract d).
Definition set_abstract (v : str) (d : ledger_item) : ledger_item :=
  LedgerItem (citation d) (title d) (doi d) (Some v).

Definition has_key {A} (o : option A) : bool :=
  match o with Some _ => true | None => false end.

(** Truth value of a dict: it has at least one key. *)
Definition dict_truthy (d : ledger_item) : bool :=
  has_key (citation d) || has_key (title d) || has_key (doi d) || has_key (abstract d).

(** [current_item and 'doi' in current_item and 'abstract' in current_item] *)
Definition ready (d : ledger_item) : bool :=
  dict_truthy d && has_key (doi d) && has_key (abstract d).

Record pstate := PState {
  heap : list ledger_item;      (* the dicts allocated so far *)
  updates : list nat;           (* the list [updates], as references *)
  current_item : nat            (* the reference held by [current_item] *)
}.

Definition deref (h : list ledger_item) (r : nat) : ledger_item :=
  default empty_item (h !! r).

(** [updates = []; current_item = {}] *)
Definition pstate_init : pstate := PState [empty_item] [] 0.

(** [if current_item and ...: updates.append(current_item)] *)
Definition flush (st : pstate) : pstate :=
  if ready (deref (heap st) (current_item st))
  then PState (heap st) (updates st ++ [current_item st]) (current_item st)
  else st.

(** [current_item = {...}]: a new dict. *)
Definition assign_new (d : ledger_item) (st : pstate) : pstate :=
  PState (heap st ++ [d]) (updates st) (length (heap st)).

(** [current_item[key] = value]: a write through the reference. *)
Definition store (f : ledger_item -> ledger_item) (st : pstate) : pstate :=
  PState (alter f (current_item st) (heap st)) (updates st) (current_item st).

(** The pattern "^\d{4}-\d{2}-\d{2} \d{2}:\d{2}:\d{2},\d{3} - INFO - " followed
    by the group ".*" and by "$"; [re_log_stamp] is the part before the group. *)
Definition re_log_stamp : regex :=
  seqs [rep 4 (Cls is_digit); lit (py "-"); rep 2 (Cls is_digit); lit (py "-");
        rep 2 (Cls is_digit); lit (py " "); rep 2 (Cls is_digit); lit (py ":");
        rep 2 (Cls is_digit); lit (py ":"); rep 2 (Cls is_digit); lit (py ",");
        rep 3 (Cls is_digit); lit (py " - INFO - ")].

Definition re_log_prefix : regex :=
  seqs [Bos; re_log_stamp; Grp (Star dot); Eos].

(** The pattern "Processing \[\d+/\d+\] (.+)$" *)
Definition re_processing : regex :=
  seqs [lit (py "Processing ["); Plus is_digit; lit (py "/"); Plus is_digit;
        lit (py "] "); Grp (Plus dot); Eos].

(** The line as the parser looks at it: without its line end and without
    a logging prefix. *)
Definition line_body (raw : str) : str :=
  let line := str_rstrip [nl] raw in
  match re_match re_log_prefix line with
  | Some m => group1 m
  | None => line
  end.

(** The branch of the [if]/[elif] chain a line takes, with the value the
    branch computes from the line. *)
Inductive line_kind : Type :=
  | Skipped                               (* continue *)
  | ProcessingLine (cit : option str)     (* the citation, if the pattern matches *)
  | TitleLine (v : str)
  | DoiLine (v : str)
  | AbstractLine (v : str)
  | OtherLine.

Definition classify (raw : str) : line_kind :=
  let line := line_body raw in
  if match line with [] => true | _ => false end
     || startswith (py "=") line || startswith (py "-") line
  then Skipped
  else if startswith (py "Processing [") line then
    match re_search re_processing line with
    | Some m => ProcessingLine (Some (group1 m))
    | None => ProcessingLine None
    end
  else if startswith (py "Title:") (str_strip line) then
    TitleLine (str_strip (drop 6 (str_strip line)))
  else if startswith (py "DOI:") (str_strip line) then
    DoiLine (str_strip (drop 4 (str_strip line)))
  else if startswith (py "Abstract:") (str_strip line) then
    AbstractLine (str_strip (drop 9 (str_strip line)))
  else OtherLine.

(** One iteration of [for line in f]: the body of the branch taken.
    [current_item] is never [None], so the three stores always happen. *)
Definition process_line (st : pstate) (raw : str) : pstate :=
  match classify raw with
  | Skipped => st
  | ProcessingLine cit =>
      let st := flush st in
      match cit with
      | Some c => assign_new (LedgerItem (Some c) None None None) st
      | None => st
      end
  | TitleLine v => store (set_title v) st
  | DoiLine v => store (set_doi v) st
  | AbstractLine v => store (set_abstract v) st
  | OtherLine => st
  end.

(** The whole loop followed by the flush of the last item. *)
Definition parse_state (lines : list str) : pstate :=
  flush (fold_left process_line lines pstate_init).

(** The dicts the list [updates] refers to when the loop is over. *)
Definition parse_lines (lines : list str) : list ledger_item :=
  let st := parse_state lines in map (deref (heap st)) (updates st).

(** Reading a text file opened with [open(filename, 'r')]: line ends
    [\r\n] and [\r] are read as [\n], and iterating the file yields the
    lines with their [\n]. *)
Fixpoint universal_newlines (s : str) : str :=
  match s with
  | [] => []
  | c :: t =>
      if char_eqb c cr
      then nl :: match t with
                 | [] => []
                 | c' :: t' => if char_eqb c' nl then universal_newlines t'
                               else universal_newlines t
                 end
      else c :: universal_newlines t
  end.

Fixpoint split_lines (s : str) : list str :=
  match s with
  | [] => []
  | c :: t =>
      if char_eqb c nl then [c] :: split_lines t
      else match split_lines t with
           | [] => [[c]]
           | l :: ls => (c :: l) :: ls
           end
  end.

Definition file_lines (content : str) : list str :=
  split_lines (universal_newlines content).

(** What [abstract_updates.txt] is when the run starts. *)
Inductive file : Type :=
  | Missing                       (* os.path.exists is False *)
  | Unreadable                    (* opening or decoding raises *)
  | Content (text : str).

Definition file_exists (f : file) : bool :=
  match f with Missing => false | _ => true end.

Definition parse_abstract_updates_file (f : file) : option (list ledger_item) :=
  match f with
  | Missing => None
  | Unreadable => None
  | Content text =>
      match parse_lines (file_lines text) with
      | [] => None
      | ups => Some ups
      end
  end.

(** ** Mode selection in [run] *)

Inductive mode : Type :=
  | ReplayMode (updates_from_file : list ledger_item)
  | DiscoveryMode.

(** [if updates_from_file: ... return] and the fall through. *)
Definition run_mode (f : file) : mode :=
  match parse_abstract_updates_file f with
  | Some (u :: us) => ReplayMode (u :: us)
  | _ => DiscoveryMode
  end.

(** ** Library records and the citation label *)

Record creator := Creator {
  creatorType : option str;
  lastName : option str
}.

(** The ["data"] dict of a Zotero item; a missing key is [None]. *)
Record zotero_data := ItemData {
  creators : list creator;
  date : option str;
  DOI : option str;
  data_title : option str;
  abstractNote : option str
}.

Record item := Item {
  key : str;
  version : nat;
  data : zotero_data
}.

Fixpoint str_eqb (a b : str) : bool :=
  match a, b with
  | [], [] => true
  | x :: a', y :: b' => char_eqb x y && str_eqb a' b'
  | _, _ => false
  end.

(** [d.get(key, dflt)] *)
Definition get (o : option str) (dflt : str) : str := default dflt o.

(** The pattern "\b(19|20)\d{2}\b" *)
Definition re_year : regex :=
  seqs [Wordb; Alt (lit (py "19")) (lit (py "20")); rep 2 (Cls is_digit); Wordb].

Definition is_author (c : creator) : bool :=
  match creatorType c with
  | Some t => str_eqb t (py "author")
  | None => false
  end.

Definition format_citation (d : zotero_data) : str :=
  let authors := List.filter is_author (creators d) in
  let last c := get (lastName c) (py "Unknown") in
  let author_part :=
    match authors with
    | [] => py "Unknown"
    | [a] => last a
    | [a; b] => last a ++ py " & " ++ last b
    | a :: _ => last a ++ py " et al."
    end in
  let year :=
    match re_search re_year (get (date d) []) with
    | Some m => group0 m
    | None => py "n.d."
    end in
  author_part ++ py " " ++ year.

(** ** Log messages of one ledger entry *)

(** The three [self.log] calls that open an entry, in [run] and in
    [process_from_updates_file]. *)
Definition log_processing (i n : nat) (citation title doi : str) : list str :=
  [ py "Processing [" ++ dec i ++ py "/" ++ dec n ++ py "] " ++ citation;
    py "  Title: " ++ title;
    py "  DOI: " ++ doi ].

(** The two [self.log] calls of [update_zotero_abstract] under [dry_run]. *)
Definition log_dry_run (citation abstract : str) : list str :=
  [ py "  [DRY RUN] Would update abstract for " ++ citation
      ++ py " (" ++ dec (length abstract) ++ py " chars)";
    py "  Abstract: " ++ abstract ].

(** The two [self.log] calls after a successful write. *)
Definition log_updated (citation abstract : str) : list str :=
  [ py "  Updated abstract for " ++ citation
      ++ py " (" ++ dec (length abstract) ++ py " chars)";
    py "  Abstract: " ++ abstract ].

(** ** Update applier: [update_zotero_abstract] *)

Record stats_t := Stats {
  total_checked : nat;
  missing_abstract : nat;
  missing_abstract_with_doi : nat;
  abstracts_found : nat;
  abstracts_updated : nat;
  errors : nat
}.

Definition stats_init : stats_t := Stats 0 0 0 0 0 0.

Definition bump_updated (s : stats_t) : stats_t :=
  Stats (total_checked s) (missing_abstract s) (missing_abstract_with_doi s)
        (abstracts_found s) (S (abstracts_updated s)) (errors s).

Definition bump_errors (s : stats_t) : stats_t :=
  Stats (total_checked s) (missing_abstract s) (missing_abstract_with_doi s)
        (abstracts_found s) (abstracts_updated s) (S (errors s)).

(** The payload handed to [zot.update_item]. *)
Record payload := Payload {
  p_key : str;
  p_version : nat;
  p_data : zotero_data
}.

Definition set_abstractNote (v : str) (d : zotero_data) : zotero_data :=
  ItemData (creators d) (date d) (DOI d) (data_title d) (Some v).

Section Fetcher.

(** The Zotero library behind [self.zot] and its write call, which
    either raises (with a message) or yields the library after the
    write. *)
Context {library : Type}.
Variable update_item : library -> payload -> str + library.

(** What a run can change: the library, the write calls made so far,
    the verbose log file and the counters. *)
Record world := World {
  zot : library;
  write_calls : list payload;
  verbose : bool;
  log_file : list str;
  stats : stats_t
}.

(** [self.log(message)] *)
Definition log (message : str) (w : world) : world :=
  if verbose w
  then World (zot w) (write_calls w) (verbose w) (log_file w ++ [message]) (stats w)
  else w.

Definition log_all (messages : list str) (w : world) : world :=
  fold_left (fun w m => log m w) messages w.

Definition with_stats (f : stats_t -> stats_t) (w : world) : world :=
  World (zot w) (write_calls w) (verbose w) (log_file w) (f (stats w)).

(** Returns the world, [item_data] as the call leaves it, and the
    result. *)
Definition update_zotero_abstract (item_key : str) (item_version : nat)
    (abstract : str) (item_data : zotero_data) (dry_run : bool) (w : world)
    : world * zotero_data * bool :=
  let citation := format_citation item_data in
  if dry_run then
    let w := log_all (log_dry_run citation abstract) w in
    (with_stats bump_updated w, item_data, true)
  else
    let item_data := set_abstractNote abstract item_data in
    let update_payload := Payload item_key item_version item_data in
    let w := World (zot w) (write_calls w ++ [update_payload]) (verbose w)
                   (log_file w) (stats w) in
    match update_item (zot w) update_payload with
    | inr z =>
        let w := World z (write_calls w) (verbose w) (log_file w) (stats w) in
        let w := with_stats bump_updated w in
        (log_all (log_updated citation abstract) w, item_data, true)
    | inl e =>
        let w := log (py "  Error updating Zotero abstract for " ++ citation
                        ++ py ": " ++ e) w in
        (with_stats bump_errors w, item_data, false)
    end.

(** ** Reconciliation: [process_from_updates_file] *)

(** The loop that fills [doi_to_item]. *)
Definition build_doi_lookup (all_items : list item) : gmap str item :=
  fold_left
    (fun (doi_to_item : gmap str item) it =>
       let item_doi := str_strip (get (DOI (data it)) []) in
       match item_doi with
       | [] => doi_to_item
       | _ => let cleaned_doi := clean_doi item_doi in
              <[item_doi := it]> (<[cleaned_doi := it]> doi_to_item)
       end)
    all_items ∅.

(** The title loop with its [break]. *)
Fixpoint find_by_title (all_items : list item) (title : str) : option item :=
  match all_items with
  | [] => None
  | it :: rest =>
      let item_title := get (data_title (data it)) [] in
      if str_eqb (str_strip (str_lower item_title)) (str_strip (str_lower title))
      then Some it
      else find_by_title rest title
  end.

(** The lookups of one entry: the messages they log and [matching_item]
    when they are over.  Items are dicts with keys, hence true. *)
Definition find_matching_item (all_items : list item)
    (doi_to_item : gmap str item) (update : ledger_item)
    : list str * option item :=
  let '(LedgerItem _ t d _) := update in
  let title := get t (py "Unknown") in
  let doi := get d [] in
  let cleaned_doi := clean_doi doi in
  match doi_to_item !! cleaned_doi orelse doi_to_item !! doi with
  | Some it => ([], Some it)
  | None =>
      let failed := py "  DOI lookup failed, attempting title match for: " ++ title in
      match find_by_title all_items title with
      | Some it => ([failed; py "  Found match by title"], Some it)
      | None => ([failed], None)
      end
  end.

(** One iteration of the loop over [updates]. *)
Definition process_update (all_items : list item) (doi_to_item : gmap str item)
    (dry_run : bool) (n : nat) (w : world) (iu : nat * ledger_item) : world :=
  let '(i, update) := iu in
  let '(LedgerItem c t d a) := update in
  let citation := get c (py "Unknown") in
  let title := get t (py "Unknown") in
  let doi := get d [] in
  let abstract := get a [] in
  let w := log_all (log_processing i n citation title doi) w in
  let '(messages, matching_item) := find_matching_item all_items doi_to_item update in
  let w := log_all messages w in
  match matching_item with
  | None =>
      let w := log (py "  WARNING: Could not find Zotero item with DOI: " ++ doi
                      ++ py " (cleaned: " ++ clean_doi doi ++ py ")") w in
      with_stats bump_errors w
  | Some it =>
      (update_zotero_abstract (key it) (version it) abstract (data it) dry_run w).1.1
  end.

Definition process_from_updates_file (all_items : list item)
    (updates : list ledger_item) (dry_run : bool) (w : world) : world :=
  let doi_to_item := build_doi_lookup all_items in
  fold_left (process_update all_items doi_to_item dry_run (length updates))
            (zip (seq 1 (length updates)) updates) w.

End Fetcher.

(** ** Abstract segmenter: [_find_abstract_in_text] *)

Definition colon_or_space (c : ascii) : bool := char_eqb c ":"%char || is_space c.
Definition digit_or_dash (c : ascii) : bool := is_digit c || char_eqb c "-"%char.
(** The class "[A-Z]" under [re.IGNORECASE]. *)
Definition is_letter_ci (c : ascii) : bool := is_upper_ascii c || is_lower_ascii c.

(** A start pattern "\bWORDS\b[:\s]*" under [re.IGNORECASE]; the words are
    separated by "\s+". *)
Fixpoint words_ci (ws : list str) : regex :=
  match ws with
  | [] => Eps
  | [w] => lit_ci w
  | w :: rest => Seq (lit_ci w) (Seq (Plus is_space) (words_ci rest))
  end.

Definition start_pattern (ws : list string) : regex :=
  seqs [Wordb; words_ci (map py ws); Wordb; Star colon_or_space].

Definition ABSTRACT_START_PATTERNS : list regex :=
  [ start_pattern ["Abstract"%string];
    start_pattern ["Summary"%string];
    start_pattern ["Executive"%string; "Summary"%string];
    start_pattern ["Management"%string; "Summary"%string];
    start_pattern ["SYNOPSIS"%string];
    start_pattern ["ABSTRACT"%string];
    start_pattern ["SUMMARY"%string];
    start_pattern ["EXECUTIVE"%string; "SUMMARY"%string];
    start_pattern ["MANAGEMENT"%string; "SUMMARY"%string] ].

Definition lits (s : string) : regex := lit_ci (py s).

(** The end patterns, under [re.IGNORECASE | re.MULTILINE]:
    "\b(Keywords?|Key\s*words?)\s*:",
    "\b(Table\s+of\s+Contents?|TABLE\s+OF\s+CONTENTS?|Contents?)\s*$",
    "\b(Introduction|INTRODUCTION)\b", "\b(Background|BACKGROUND)\b",
    "\b1\.\s*(Introduction|INTRODUCTION)", "\bI\.\s*(Introduction|INTRODUCTION)",
    "^\s*\d+\.\s+[A-Z]" and "\.\s*\.\s*\.\s*\.". *)
Definition ABSTRACT_END_PATTERNS : list regex :=
  [ seqs [Wordb;
          Alt (seqs [lits "Keyword"; Opt (lits "s")])
              (seqs [lits "Key"; Star is_space; lits "word"; Opt (lits "s")]);
          Star is_space; lits ":"];
    seqs [Wordb;
          Alt (seqs [lits "Table"; Plus is_space; lits "of"; Plus is_space;
                     lits "Content"; Opt (lits "s")])
              (Alt (seqs [lits "TABLE"; Plus is_space; lits "OF"; Plus is_space;
                          lits "CONTENT"; Opt (lits "S")])
                   (seqs [lits "Content"; Opt (lits "s")]));
          Star is_space; Eol];
    seqs [Wordb; Alt (lits "Introduction") (lits "INTRODUCTION"); Wordb];
    seqs [Wordb; Alt (lits "Background") (lits "BACKGROUND"); Wordb];
    seqs [Wordb; lits "1."; Star is_space;
          Alt (lits "Introduction") (lits "INTRODUCTION")];
    seqs [Wordb; lits "I."; Star is_space;
          Alt (lits "Introduction") (lits "INTRODUCTION")];
    seqs [Bol; Star is_space; Plus is_digit; lits "."; Plus is_space;
          Cls is_letter_ci];
    seqs [lits "."; Star is_space; lits "."; Star is_space; lits ".";
          Star is_space; lits "."] ].

(** The patterns "\s+", "\d+\s*$" and "^\s*[\d\-]+\s*". *)
Definition re_spaces : regex := Plus is_space.
Definition re_trailing_digits : regex := seqs [Plus is_digit; Star is_space; Eos].
Definition re_leading_digits : regex :=
  seqs [Bos; Star is_space; Plus digit_or_dash; Star is_space].

Definition _clean_abstract (text : str) : str :=
  let text := re_sub re_spaces (py " ") text in
  let text := re_sub re_trailing_digits [] text in
  let text := re_sub re_leading_digits [] text in
  str_strip text.

(** The inner loop over the end patterns. *)
Definition find_end (remaining_text : str) : nat :=
  fold_left
    (fun end_pos end_pattern =>
       match re_search end_pattern remaining_text with
       | Some end_match =>
           if m_start end_match <? end_pos then m_start end_match else end_pos
       | None => end_pos
       end)
    ABSTRACT_END_PATTERNS (length remaining_text).

(** The candidate abstract after a start match. *)
Definition candidate (text : str) (m : match_obj) : str :=
  let start_pos := m_end m in
  let remaining_text := drop start_pos text in
  let end_pos := find_end remaining_text in
  _clean_abstract (str_strip (take end_pos remaining_text)).

Definition word_count (s : str) : nat := length (str_split s).

(** The loop over the start patterns. *)
Fixpoint find_abstract_from (patterns : list regex) (text : str) : option str :=
  match patterns with
  | [] => None
  | start_pattern :: later =>
      match re_search start_pattern text with
      | Some m =>
          let abstract := candidate text m in
          let word_count := word_count abstract in
          if (50 <? word_count) && (word_count <? 1000)
          then Some abstract
          else find_abstract_from later text
      | None => find_abstract_from later text
      end
  end.

Definition _find_abstract_in_text (text : str) : option str :=
  find_abstract_from ABSTRACT_START_PATTERNS text.

(** ** Writing a ledger *)

(** What one entry of a preview run carries. *)
Record entry := Entry {
  e_citation : str;
  e_title : str;
  e_doi : str;
  e_abstract : str
}.

Definition to_item (e : entry) : ledger_item :=
  LedgerItem (Some (e_citation e)) (Some (e_title e)) (Some (e_doi e))
             (Some (e_abstract e)).

(** The messages one entry leaves in the log of a preview run. *)
Definition entry_messages (i n : nat) (e : entry) : list str :=
  log_processing i n (e_citation e) (e_title e) (e_doi e)
  ++ log_dry_run (e_citation e) (e_abstract e).

Fixpoint messages_from (i n : nat) (es : list entry) : list str :=
  match es with
  | [] => []
  | e :: es' => entry_messages i n e ++ messages_from (S i) n es'
  end.

(** [enumerate(items, 1)] with [len(items)] as the total. *)
Definition ledger_messages (es : list entry) : list str :=
  messages_from 1 (length es) es.

(** The text of the log file: one line per message, each behind [stamp]
    (the formatter's prefix; empty for the bare line format). *)
Definition log_text (stamp : str) (messages : list str) : str :=
  concat (map (fun m => stamp ++ m ++ [nl]) messages).

(** A message as a line of the file. *)
Definition with_nl (m : str) : str := m ++ [nl].

(** The lines of an entry that stops after its title. *)
Definition dangling_messages (i n : nat) (citation title : str) : list str :=
  take 2 (log_processing i n citation title []).

(** ** Vocabulary of the statements *)

Definition blank : ascii := " "%char.

(** No line end inside. *)
Definition one_line (s : str) : bool :=
  forallb (fun c => negb (char_eqb c nl) && negb (char_eqb c cr)) s.

(** No whitespace around. *)
Definition trimmed (s : str) : bool := str_eqb (str_strip s) s.

(** [bool(s)] *)
Definition nonempty (s : str) : bool :=
  match s with [] => false | _ => true end.

(** Entries the line format carries unchanged. *)
Definition portable (e : entry) : bool :=
  nonempty (e_citation e) && one_line (e_citation e)
  && one_line (e_title e) && trimmed (e_title e)
  && one_line (e_doi e) && trimmed (e_doi e)
  && one_line (e_abstract e) && trimmed (e_abstract e).

(** No whitespace but single blanks. *)
Fixpoint single_spaced (s : str) : bool :=
  match s with
  | [] => true
  | c :: t =>
      (if is_space c
       then char_eqb c blank && match t with c' :: _ => negb (is_space c') | [] => true end
       else true)
      && single_spaced t
  end.

(** The first character, if any, is not whitespace. *)
Definition nonspace_head (s : str) : Prop :=
  match s with c :: _ => is_space c = false | [] => True end.

(** [s] ends with one of [chars]. *)
Definition ends_with_any (chars : str) (s : str) : bool :=
  match last s with Some c => mem_char chars c | None => false end.

(** [re.fullmatch(r, s)] *)
Definition re_fullmatch (r : regex) (s : str) : option match_obj :=
  let s0 := MState [] s None in
  match rmatch r (fun e => match ahead e with [] => Some e | _ => None end) s0 with
  | Some e => Some (MatchObj s0 e)
  | None => None
  end.

(** A string of the form "<date> <time>,<ms> - INFO - ". *)
Definition is_log_stamp (p : str) : bool :=
  match re_fullmatch re_log_stamp p with Some _ => true | None => false end.

(** Kinds of lines: one that starts with "Processing [", one that is also
    matched by the pattern, a DOI line, an abstract line. *)
Definition is_processing (raw : str) : bool :=
  match classify raw with ProcessingLine _ => true | _ => false end.
Definition is_marker (raw : str) : bool :=
  match classify raw with ProcessingLine (Some _) => true | _ => false end.
Definition is_doi_line (raw : str) : bool :=
  match classify raw with DoiLine _ => true | _ => false end.
Definition is_abstract_line (raw : str) : bool :=
  match classify raw with AbstractLine _ => true | _ => false end.

(** A line as iterating a file yields it: a line end only at its end. *)
Definition file_line (raw : str) : bool := forallb dot (str_rstrip [nl] raw).

(** A line that does not begin with a logging prefix. *)
Definition unstamped (raw : str) : bool :=
  match re_match re_log_prefix (str_rstrip [nl] raw) with
  | None => true
  | Some _ => false
  end.

(** Where a list of lines begins with a well-formed "Processing" line, or
    is empty. *)
Definition opens_entry (lines : list str) : bool :=
  match lines with
  | [] => true
  | raw :: _ => is_marker raw
  end.

(** The number of lines that start with "Processing [". *)
Definition count_processing (lines : list str) : nat :=
  length (List.filter is_processing lines).

(** The dict has a DOI and an abstract. *)
Definition complete (d : ledger_item) : bool := has_key (doi d) && has_key (abstract d).

(** The segmenter's test on a cleaned candidate. *)
Definition valid_length (a : str) : bool :=
  (50 <? word_count a) && (word_count a <? 1000).

(** A start pattern that does not match, or whose candidate fails the test. *)
Definition rejected (text : str) (p : regex) : Prop :=
  match re_search p text with
  | Some m => valid_length (candidate text m) = false
  | None => True
  end.

(** The keys under which [doi_to_item] files a record: its DOI, stripped,
    and the cleaned form of that; none when the DOI is empty. *)
Definition doi_keys (it : item) : list str :=
  match str_strip (get (DOI (data it)) []) with
  | [] => []
  | c :: d => [clean_doi (c :: d); c :: d]
  end.

(** The test of the title loop. *)
Definition same_title (title : str) (it : item) : bool :=
  str_eqb (str_strip (str_lower (get (data_title (data it)) [])))
          (str_strip (str_lower title)).

(** ** Inputs of the examples *)


Definition sixty : str :=
  py "one two three four five six seven eight nine ten one two three four five six seven eight nine ten one two three four five six seven eight nine ten one two three four five six seven eight nine ten one two three four five six seven eight nine ten one two three four five six seven eight nine ten".

Definition sixty_words : str := py "Abstract: " ++ sixty ++ nl :: py "Keywords: counting".

Definition record_x : item :=
  Item (py "KEY1") 7
       (ItemData [] None (Some (py "10.1/X")) (Some (py "Ledgers and Libraries")) None).

Definition record_y : item :=
  Item (py "KEY2") 3
       (ItemData [] None (Some (py "10.5/Y")) (Some (py "Another Title")) None).

Definition stamp_example : str := py "2025-12-22 16:11:52,549 - INFO - ".

Definition stamped_ledger : list str :=
  file_lines (py "2025-12-22 16:11:52,549 - INFO - Processing [1/1] Smith 2020
2025-12-22 16:11:52,549 - INFO -   DOI: 10.1/a
2025-12-22 16:11:52,549 - INFO -   Abstract: some text
").

Definition plain_ledger : list str :=
  file_lines (py "Processing [1/1] Smith 2020
  Title: Some title
  DOI: 10.1/a
  Abstract: some text
").

Definition padded_entry : entry :=
  Entry (py "Smith 2020") (py " A title") (py "10.1/a") (py "Some text.").

Definition two_entries : list entry :=
  [ Entry (py "Smith & Jones 2020") (py "Ledgers: a study") (py "10.1/a")
          (py "We study ledgers; they are kept, edited and replayed.");
    Entry (py "Doe et al. n.d.") (py "") (py "10.5/b") (py "Short.") ].

Definition two_dangling : list str :=
  file_lines (py "Processing [1/2] Smith 2020
  Title: First
Processing [2/2] Jones 2021
  Title: Second
").

(** ** The parser without the store

    At any point of the loop the list [updates] consists of dicts that are
    no longer written to, followed by some number of references to the
    dict [current_item] points to.  [view] keeps the former as values, the
    number of the latter, and the current dict. *)

Record view := View {
  settled : list ledger_item;
  pending : nat;
  current : ledger_item
}.

Definition view_init : view := View [] 0 empty_item.

Definition view_flush (v : view) : view :=
  if ready (current v) then View (settled v) (S (pending v)) (current v) else v.

Definition view_list (v : view) : list ledger_item :=
  settled v ++ replicate (pending v) (current v).

Definition view_store (f : ledger_item -> ledger_item) (v : view) : view :=
  View (settled v) (pending v) (f (current v)).

Definition view_step (v : view) (raw : str) : view :=
  match classify raw with
  | Skipped => v
  | ProcessingLine cit =>
      let v := view_flush v in
      match cit with
      | Some c => View (view_list v) 0 (LedgerItem (Some c) None None None)
      | None => v
      end
  | TitleLine x => view_store (set_title x) v
  | DoiLine x => view_store (set_doi x) v
  | AbstractLine x => view_store (set_abstract x) v
  | OtherLine => v
  end.

Definition view_result (v : view) : list ledger_item := view_list (view_flush v).

(** The parser state [st] is seen as [v]. *)
Definition represents (st : pstate) (v : view) : Prop :=
  exists old,
    updates st = old ++ replicate (pending v) (current_item st) /\
    Forall (fun r => r <> current_item st /\ r < length (heap st)) old /\
    current_item st < length (heap st) /\
    map (deref (heap st)) old = settled v /\
    deref (heap st) (current_item st) = current v.

(** A view with more settled dicts in front. *)
Definition prepend (d0 : list ledger_item) (v : view) : view :=
  View (d0 ++ settled v) (pending v) (current v).

(** The view right after the first well-formed "Processing" line. *)
Definition fresh (c : str) : view := View [] 0 (LedgerItem (Some c) None None None).

(** Every dict on the list is complete. *)
Definition view_good (v : view) : Prop :=
  Forall (fun d => complete d = true) (settled v) /\
  (pending v <> 0 -> complete (current v) = true).

(** The [if]/[elif] chain on the line without line end and prefix. *)
Definition classify_line (line : str) : line_kind :=
  if match line with [] => true | _ => false end
     || startswith (py "=") line || startswith (py "-") line
  then Skipped
  else if startswith (py "Processing [") line then
    match re_search re_processing line with
    | Some m => ProcessingLine (Some (group1 m))
    | None => ProcessingLine None
    end
  else if startswith (py "Title:") (str_strip line) then
    TitleLine (str_strip (drop 6 (str_strip line)))
  else if startswith (py "DOI:") (str_strip line) then
    DoiLine (str_strip (drop 4 (str_strip line)))
  else if startswith (py "Abstract:") (str_strip line) then
    AbstractLine (str_strip (drop 9 (str_strip line)))
  else OtherLine.

(** The body of the loop of [build_doi_lookup]. *)
Definition add_item (doi_to_item : gmap str item) (it : item) : gmap str item :=
  match str_strip (get (DOI (data it)) []) with
  | [] => doi_to_item
  | c :: d => <[c :: d := it]> (<[clean_doi (c :: d) := it]> doi_to_item)
  end.

(** ** Patterns of fixed width *)

(** A pattern that is a sequence of character classes, and its run. *)
Fixpoint run_classes (ps : list (ascii -> bool)) (sn ah : str) : option (str * str) :=
  match ps with
  | [] => Some (sn, ah)
  | p :: ps' =>
      match ah with
      | c :: t => if p c then run_classes ps' (c :: sn) t else None
      | [] => None
      end
  end.

Fixpoint classes (r : regex) : option (list (ascii -> bool)) :=
  match r with
  | Eps => Some []
  | Cls p => Some [p]
  | Seq r1 r2 =>
      match classes r1, classes r2 with
      | Some x, Some y => Some (x ++ y)
      | _, _ => None
      end
  | _ => None
  end.

(** ** OpenAlex: [reconstruct_abstract] and [fetch_abstract_from_openalex] *)

(** The JSON object ["abstract_inverted_index"]: the words with their
    positions, in the order of the keys of the dict. *)
Definition word_index : Type := list (str * list nat).

(** [sep.join(parts)] *)
Fixpoint str_join (sep : str) (parts : list str) : str :=
  match parts with
  | [] => []
  | [p] => p
  | p :: rest => p ++ sep ++ str_join sep rest
  end.

(** The two nested loops that fill [position_words]. *)
Definition position_words (inverted_index : word_index) : list (nat * str) :=
  flat_map (fun '(word, positions) => map (fun pos => (pos, word)) positions)
           inverted_index.

(** [position_words.sort(key=lambda x: x[0])]: the sort is stable, so a
    pair stays in front of the later pairs with the same position. *)
Fixpoint insert_by_pos (x : nat * str) (l : list (nat * str)) : list (nat * str) :=
  match l with
  | [] => [x]
  | y :: l' => if x.1 <=? y.1 then x :: l else y :: insert_by_pos x l'
  end.

Definition sort_by_pos (l : list (nat * str)) : list (nat * str) :=
  foldr insert_by_pos [] l.

Definition reconstruct_abstract (inverted_index : word_index) : str :=
  match inverted_index with
  | [] => []
  | _ =>
      let position_words := sort_by_pos (position_words inverted_index) in
      str_join (py " ") (map snd position_words)
  end.

(** What [requests.get] and the two calls on its result come to. *)
Inductive response : Type :=
  | NotFound                                (* status code 404 *)
  | RequestError (e : str)                  (* a RequestException, with its text *)
  | Json (abstract_inverted_index : option word_index).
                                            (* data.get("abstract_inverted_index") *)

Definition bump_found (s : stats_t) : stats_t :=
  Stats (total_checked s) (missing_abstract s) (missing_abstract_with_doi s)
        (S (abstracts_found s)) (abstracts_updated s) (errors s).

Definition bump_total_checked (s : stats_t) : stats_t :=
  Stats (S (total_checked s)) (missing_abstract s) (missing_abstract_with_doi s)
        (abstracts_found s) (abstracts_updated s) (errors s).

Definition bump_missing_abstract (s : stats_t) : stats_t :=
  Stats (total_checked s) (S (missing_abstract s)) (missing_abstract_with_doi s)
        (abstracts_found s) (abstracts_updated s) (errors s).

Definition bump_missing_abstract_with_doi (s : stats_t) : stats_t :=
  Stats (total_checked s) (missing_abstract s) (S (missing_abstract_with_doi s))
        (abstracts_found s) (abstracts_updated s) (errors s).

(** [fetch_abstract_from_openalex(doi)], given the answer to its request. *)
Definition fetch_abstract_from_openalex {library} (answer : response) (doi : str)
    (w : @world library) : @world library * option str :=
  let none := py "  No abstract available in OpenAlex for: " ++ doi in
  match answer with
  | NotFound => (log (py "  Not found in OpenAlex: " ++ doi) w, None)
  | RequestError e =>
      (with_stats bump_errors (log (py "  Error fetching from OpenAlex: " ++ e) w), None)
  | Json None => (log none w, None)
  | Json (Some abstract_index) =>
      match abstract_index with
      | [] => (log none w, None)
      | _ =>
          match reconstruct_abstract abstract_index with
          | [] => (log none w, None)
          | abstract => (with_stats bump_found w, Some abstract)
          end
      end
  end.

(** [enumerate(words)] *)
Definition enumerate {A} (l : list A) : list (nat * A) := zip (seq 0 (length l)) l.

(** ** OpenAlex *)

Definition by_pos (x y : nat * str) : Prop := x.1 <= y.1.

(** ** Discovery: [get_items_missing_abstracts] *)

(** An item as [zot.items()] yields it: key, version and data, with the
    further keys of ["data"] that the scans of the two scripts read. *)
Record library_item := LibraryItem {
  li_item : item;
  itemType : option str;
  url : option str;
  contentType : option str;
  parentItem : option str;
  filename : option str
}.

(** A record of the list [missing_abstracts]. *)
Record abstract_item := AbstractItem {
  ai_key : str;
  ai_version : nat;
  ai_doi : str;
  ai_title : str;
  ai_data : zotero_data
}.

(** [item_type in ["attachment", "note", "annotation"]] *)
Definition is_non_citation (item_type : str) : bool :=
  existsb (str_eqb item_type) [py "attachment"; py "note"; py "annotation"].

(** The pattern "10\.\d{4,}/[^\s]+" *)
Definition re_doi_in_url : regex :=
  seqs [lit (py "10."); rep 4 (Cls is_digit); Star is_digit; lit (py "/");
        Plus (fun c => negb (is_space c))].

(** The DOI the scan finds for an item: the DOI field, stripped, or
    else the first match of the pattern in the URL, or else nothing. *)
Definition item_doi (it : library_item) : str :=
  let doi := str_strip (get (DOI (data (li_item it))) []) in
  if nonempty doi then doi
  else match re_search re_doi_in_url (get (url it) []) with
       | Some doi_match => group0 doi_match
       | None => doi
       end.

(** The body of the loop over the items. *)
Definition scan_item (acc : stats_t * list abstract_item) (it : library_item)
    : stats_t * list abstract_item :=
  let '(st, missing_abstracts) := acc in
  let d := data (li_item it) in
  let item_type := get (itemType it) [] in
  if is_non_citation item_type then acc
  else
    let st := bump_total_checked st in
    let abstract := str_strip (get (abstractNote d) []) in
    if nonempty abstract then (st, missing_abstracts)
    else
      let st := bump_missing_abstract st in
      let doi := item_doi it in
      if nonempty doi
      then (bump_missing_abstract_with_doi st,
            missing_abstracts ++
            [AbstractItem (key (li_item it)) (version (li_item it)) (clean_doi doi)
                          (get (data_title d) (py "Unknown")) d])
      else (st, missing_abstracts).

(** [str(n)] for an integer. *)
Definition dec_int (n : Z) : str :=
  if (n <? 0)%Z then py "-" ++ dec (Z.to_nat (- n)) else dec (Z.to_nat n).

(** [l[:n]] for an integer [n]. *)
Definition slice_to {A} (n : Z) (l : list A) : list A :=
  if (n <? 0)%Z then take (length l - Z.to_nat (- n)) l else take (Z.to_nat n) l.

Section Discovery.

Context {library : Type}.

(** The reads of the library: [zot.everything(zot.items())] and
    [zot.everything(zot.collection_items(key))]. *)
Variable everything_items : library -> list library_item.
Variable everything_collection_items : library -> str -> list library_item.

Definition get_items_missing_abstracts (collection_key : option str)
    (limit : option Z) (w : @world library) : @world library * list abstract_item :=
  let w := log (py "Fetching items missing abstracts from Zotero library...") w in
  let items :=
    match collection_key with
    | Some (c :: k) => everything_collection_items (zot w) (c :: k)
    | _ => everything_items (zot w)
    end in
  let '(st, missing_abstracts) := fold_left scan_item items (stats w, []) in
  let w := with_stats (fun _ => st) w in
  let w := log (py "Found " ++ dec (length missing_abstracts)
                  ++ py " items missing abstracts with DOIs") w in
  match limit with
  | Some l =>
      if negb (l =? 0)%Z && (l <? Z.of_nat (length missing_abstracts))%Z
      then (log (py "Limiting to first " ++ dec_int l ++ py " items") w,
            slice_to l missing_abstracts)
      else (w, missing_abstracts)
  | None => (w, missing_abstracts)
  end.

End Discovery.

(** The items a scan looks at. *)
Definition scanned {library} (everything_items : library -> list library_item)
    (everything_collection_items : library -> str -> list library_item)
    (collection_key : option str) (z : library) : list library_item :=
  match collection_key with
  | Some (c :: k) => everything_collection_items z (c :: k)
  | _ => everything_items z
  end.

(** An item that is a citation and has no abstract. *)
Definition lacks_abstract (it : library_item) : bool :=
  negb (is_non_citation (get (itemType it) []))
  && negb (nonempty (str_strip (get (abstractNote (data (li_item it))) []))).

(** The record the scan makes of an item. *)
Definition record_of (it : library_item) : abstract_item :=
  AbstractItem (key (li_item it)) (version (li_item it)) (clean_doi (item_doi it))
               (get (data_title (data (li_item it))) (py "Unknown")) (data (li_item it)).

(** The records of a scan without a limit. *)
Definition selected (items : list library_item) : list abstract_item :=
  map record_of (List.filter (fun it => lacks_abstract it && nonempty (item_doi it)) items).

(** ** The matcher: what a match consumes *)

(** Every character class of the pattern lies within [Q]. *)
Fixpoint classes_within (Q : ascii -> Prop) (r : regex) : Prop :=
  match r with
  | Cls p | Star p | Plus p => forall c, p c = true -> Q c
  | Seq r1 r2 | Alt r1 r2 => classes_within Q r1 /\ classes_within Q r2
  | Opt r1 | Grp r1 => classes_within Q r1
  | _ => True
  end.

(** [e] is reached from [s] by passing over [pre]. *)
Definition passes (s e : mstate) (pre : str) : Prop :=
  ahead s = pre ++ ahead e /\ seen e = rev pre ++ seen s.

(** ** Discovery: the scan *)

Definition is_citation (it : library_item) : bool :=
  negb (is_non_citation (get (itemType it) [])).

Definition no_space (c : ascii) : Prop := is_space c = false.

(** ** Identifier normalizer: what is removed *)

Definition resolver_prefixes : list str :=
  [py "http://doi.org/"; py "https://doi.org/";
   py "http://dx.doi.org/"; py "https://dx.doi.org/"].

(** "doi:" in any mix of cases. *)
Definition is_label (l : str) : bool := str_eqb (str_lower l) (py "doi:").

(** The first character, if any, is not one a prefix or a label begins
    with. *)
Definition no_prefix (s : str) : bool :=
  match s with
  | [] => true
  | c :: _ => negb (char_eqb "h" c) && negb (char_eqb_ci "d" c)
  end.

(** A bare identifier: no prefix, no label, none of ".,;:" at its end,
    no whitespace around it. *)
Definition bare (d : str) : bool :=
  no_prefix d && negb (ends_with_any (py ".,;:") d) && trimmed d.

(** ** The citation label *)

(** A year as the pattern finds it: "19" or "20" and two digits. *)
Definition is_year (y : str) : bool :=
  match y with
  | [a; b; c; d] =>
      (str_eqb [a; b] (py "19") || str_eqb [a; b] (py "20")) && is_digit c && is_digit d
  | _ => false
  end.

(** The authors among the creators, and the last name the label shows. *)
Definition authors_of (d : zotero_data) : list creator := List.filter is_author (creators d).
Definition shown_name (c : creator) : str := get (lastName c) (py "Unknown").

(** ** Ledger parser: lines that do not count, and entries without a
       "Processing" line *)

(** A line the loop passes over: empty, a rule, or none of the four
    kinds of lines. *)
Definition is_ignored (raw : str) : bool :=
  match classify raw with Skipped | OtherLine => true | _ => false end.

Definition is_title_line (raw : str) : bool :=
  match classify raw with TitleLine _ => true | _ => false end.

(** Every "Processing" line is matched by the pattern. *)
Definition well_formed (lines : list str) : bool :=
  forallb (fun raw => implb (is_processing raw) (is_marker raw)) lines.

(** The store between two lines when every "Processing" line is well
    formed: no reference twice on [updates], and [current_item] not yet
    on it. *)
Definition unshared (st : pstate) : Prop :=
  NoDup (updates st) /\ (current_item st ∉ updates st) /\
  Forall (fun r => r < length (heap st)) (updates st) /\
  current_item st < length (heap st).

(** ** The applier on a live run, and the replay loop *)

(** The counters the replay does not touch. *)
Definition scan_counters (s : stats_t) : nat * nat * nat * nat :=
  (total_checked s, missing_abstract s, missing_abstract_with_doi s, abstracts_found s).

(** The entries of a ledger that the lookups match to a record. *)
Definition matched (all_items : list item) (updates : list ledger_item) : list ledger_item :=
  List.filter
    (fun u => has_key (find_matching_item all_items (build_doi_lookup all_items) u).2)
    updates.

(** ** [print_summary] and [run] *)

(** ["=" * 60] *)
Definition rule : str := replicate 60 "="%char.

Definition summary_lines (dry_run : bool) (s : stats_t) : list str :=
  let action_abstract :=
    if dry_run then py "Would update abstracts:" else py "Abstracts updated:" in
  [rule; py "SUMMARY"; rule;
   py "Total items checked:                " ++ dec (total_checked s);
   py "Items missing abstracts:            " ++ dec (missing_abstract s);
   py "Items missing abstracts (with DOI): " ++ dec (missing_abstract_with_doi s);
   py "Abstracts found in OpenAlex:        " ++ dec (abstracts_found s);
   action_abstract ++ py "             " ++ dec (abstracts_updated s)]
  ++ (if 0 <? errors s
      then [py "Errors encountered:                 " ++ dec (errors s)] else [])
  ++ [rule].

Definition print_summary {library} (dry_run : bool) (w : @world library)
    : @world library :=
  let w := log_all (summary_lines dry_run (stats w)) w in
  if dry_run && (0 <? abstracts_updated (stats w))
  then log (nl :: py "To apply these changes, run again without --dry-run") w
  else w.

Section Run.

Context {library : Type}.

Variable update_item : library -> payload -> str + library.
Variable everything_items : library -> list library_item.
Variable everything_collection_items : library -> str -> list library_item.

(** The answer of OpenAlex to the request for the [i]-th record of the
    loop, and the text of the exception when the ledger cannot be
    read. *)
Variable openalex : nat -> str -> response.
Variable read_error : str.

(** [parse_abstract_updates_file] with its log messages. *)
Definition read_updates (f : file) (w : @world library)
    : @world library * option (list ledger_item) :=
  match f with
  | Missing => (w, None)
  | Unreadable =>
      let w := log (py "Reading updates from abstract_updates.txt...") w in
      (log (py "Error reading abstract_updates.txt: " ++ read_error) w, None)
  | Content text =>
      let w := log (py "Reading updates from abstract_updates.txt...") w in
      let updates := parse_lines (file_lines text) in
      let w := log (py "Found " ++ dec (length updates)
                      ++ py " items in abstract_updates.txt") w in
      (w, match updates with [] => None | _ => Some updates end)
  end.

(** [process_from_updates_file] from the read of the library on. *)
Definition replay (updates : list ledger_item) (dry_run : bool) (w : @world library)
    : @world library :=
  let all_items := map li_item (everything_items (zot w)) in
  let doi_to_item := build_doi_lookup all_items in
  let w := log (py "Built DOI lookup with " ++ dec (size doi_to_item)
                  ++ py " entries from " ++ dec (length all_items) ++ py " items") w in
  process_from_updates_file update_item all_items updates dry_run w.

(** One iteration of the loop over [abstract_items]. *)
Definition process_item (dry_run : bool) (n : nat) (w : @world library)
    (ii : nat * abstract_item) : @world library :=
  let '(i, it) := ii in
  let citation := format_citation (ai_data it) in
  let w := log_all (log_processing i n citation (ai_title it) (ai_doi it)) w in
  let '(w, abstract) :=
    fetch_abstract_from_openalex (openalex i (ai_doi it)) (ai_doi it) w in
  match abstract with
  | Some (c :: a) =>
      (update_zotero_abstract update_item (ai_key it) (ai_version it) (c :: a)
         (ai_data it) dry_run w).1.1
  | _ => w
  end.

Definition run (f : file) (collection_key : option str) (limit : option Z)
    (dry_run : bool) (w : @world library) : @world library :=
  let '(w, updates_from_file) := read_updates f w in
  match updates_from_file with
  | Some (u :: us) => print_summary dry_run (replay (u :: us) dry_run w)
  | _ =>
      let '(w, abstract_items) :=
        get_items_missing_abstracts everything_items everything_collection_items
          collection_key limit w in
      let w :=
        fold_left (process_item dry_run (length abstract_items))
                  (zip (seq 1 (length abstract_items)) abstract_items) w in
      print_summary dry_run w
  end.

End Run.

(** ** What a run logs *)

(** [w'] is [w] with the messages [ms] logged, and possibly other
    counters. *)
Definition traced {library} (w w' : @world library) (ms : list str) : Prop :=
  zot w' = zot w /\ write_calls w' = write_calls w /\ verbose w' = verbose w /\
  log_file w' = log_file w ++ (if verbose w then ms else []).

(** The messages of [parse_abstract_updates_file]. *)
Definition read_messages (read_error : str) (f : file) : list str :=
  match f with
  | Missing => []
  | Unreadable =>
      [py "Reading updates from abstract_updates.txt...";
       py "Error reading abstract_updates.txt: " ++ read_error]
  | Content text =>
      [py "Reading updates from abstract_updates.txt...";
       py "Found " ++ dec (length (parse_lines (file_lines text)))
         ++ py " items in abstract_updates.txt"]
  end.

(** The messages of the scan. *)
Definition scan_messages (limit : option Z) (found : nat) : list str :=
  [py "Fetching items missing abstracts from Zotero library...";
   py "Found " ++ dec found ++ py " items missing abstracts with DOIs"]
  ++ match limit with
     | Some l =>
         if negb (l =? 0)%Z && (l <? Z.of_nat found)%Z
         then [py "Limiting to first " ++ dec_int l ++ py " items"] else []
     | None => []
     end.

(** What [fetch_abstract_from_openalex] returns for an answer, and the
    message it logs when it returns [None]. *)
Definition answer_abstract (answer : response) : option str :=
  match answer with
  | Json (Some index) =>
      match reconstruct_abstract index with
      | [] => None
      | a => Some a
      end
  | _ => None
  end.

Definition fetch_messages (answer : response) (doi : str) : list str :=
  match answer_abstract answer with
  | Some _ => []
  | None =>
      match answer with
      | NotFound => [py "  Not found in OpenAlex: " ++ doi]
      | RequestError e => [py "  Error fetching from OpenAlex: " ++ e]
      | Json _ => [py "  No abstract available in OpenAlex for: " ++ doi]
      end
  end.

(** The messages of one iteration of the loop of a preview. *)
Definition item_messages (openalex : nat -> str -> response) (n : nat)
    (ii : nat * abstract_item) : list str :=
  let '(i, it) := ii in
  let citation := format_citation (ai_data it) in
  log_processing i n citation (ai_title it) (ai_doi it)
  ++ match answer_abstract (openalex i (ai_doi it)) with
     | Some a => log_dry_run citation a
     | None => fetch_messages (openalex i (ai_doi it)) (ai_doi it)
     end.

(** The messages of [print_summary]. *)
Definition to_apply : str := nl :: py "To apply these changes, run again without --dry-run".

Definition summary_messages (dry_run : bool) (s : stats_t) : list str :=
  summary_lines dry_run s
  ++ if dry_run && (0 <? abstracts_updated s) then [to_apply] else [].

(** ** The log of a preview, read back as a ledger *)

(** The text of a log file whose records carry the prefixes [stamps]. *)
Definition log_file_text (stamps messages : list str) : str :=
  concat (zip_with (fun s m => s ++ m ++ [nl]) stamps messages).

(** A message of one line that does not begin with a digit. *)
Definition plain (m : str) : bool :=
  one_line m && match m with [] => true | c :: _ => negb (is_digit c) end.

(** A plain message whose line the parser passes over. *)
Definition junk (m : str) : bool := plain m && is_ignored (with_nl m).

(** What the loop of a preview needs of a record and of the answer for
    it, for its messages to be lines of their own: no line end in the
    last names shown, in the title, in the DOI, in the text of a request
    error and in the abstract, and no whitespace around the title and
    around the abstract. *)
Definition loggable (openalex : nat -> str -> response) (ii : nat * abstract_item) : bool :=
  let '(i, r) := ii in
  forallb (fun c => one_line (shown_name c)) (authors_of (ai_data r))
  && one_line (ai_title r) && trimmed (ai_title r)
  && one_line (ai_doi r) && trimmed (ai_doi r)
  && match openalex i (ai_doi r) with
     | RequestError e => one_line e
     | answer =>
         match answer_abstract answer with
         | Some a => one_line a && trimmed a
         | None => true
         end
     end.

(** The entry a preview logs for a record, if OpenAlex has an abstract. *)
Definition found_entry (openalex : nat -> str -> response) (ii : nat * abstract_item)
    : option entry :=
  let '(i, r) := ii in
  match answer_abstract (openalex i (ai_doi r)) with
  | Some a => Some (Entry (format_citation (ai_data r)) (ai_title r) (ai_doi r) a)
  | None => None
  end.

(** ** The PDF extractor: scan, applier, replay and [run] *)

(** [sub in s] *)
Fixpoint contains (sub s : str) : bool :=
  startswith sub s || match s with [] => false | _ :: t => contains sub t end.

(** [s in options] *)
Definition one_of (options : list string) (s : str) : bool :=
  existsb (fun o => str_eqb s (py o)) options.

Module Extractor.

Record stats_t := Stats {
  total_missing : nat;
  has_pdf : nat;
  abstract_extracted : nat;
  user_approved : nat;
  user_skipped : nat;
  extraction_failed : nat
}.

Definition stats_init : stats_t := Stats 0 0 0 0 0 0.

Definition bump_total_missing (s : stats_t) : stats_t :=
  Stats (S (total_missing s)) (has_pdf s) (abstract_extracted s) (user_approved s)
        (user_skipped s) (extraction_failed s).
Definition bump_has_pdf (s : stats_t) : stats_t :=
  Stats (total_missing s) (S (has_pdf s)) (abstract_extracted s) (user_approved s)
        (user_skipped s) (extraction_failed s).
Definition bump_extracted (s : stats_t) : stats_t :=
  Stats (total_missing s) (has_pdf s) (S (abstract_extracted s)) (user_approved s)
        (user_skipped s) (extraction_failed s).
Definition bump_approved (s : stats_t) : stats_t :=
  Stats (total_missing s) (has_pdf s) (abstract_extracted s) (S (user_approved s))
        (user_skipped s) (extraction_failed s).
Definition bump_skipped (s : stats_t) : stats_t :=
  Stats (total_missing s) (has_pdf s) (abstract_extracted s) (user_approved s)
        (S (user_skipped s)) (extraction_failed s).
Definition bump_failed (s : stats_t) : stats_t :=
  Stats (total_missing s) (has_pdf s) (abstract_extracted s) (user_approved s)
        (user_skipped s) (S (extraction_failed s)).

(** A record of the list [items_with_pdfs]. *)
Record pdf_item := PdfItem {
  parent : item;
  attachment_key : str;
  pdf_filename : str
}.

(** What [download_pdf] and [extract_abstract_from_pdf] get for an
    attachment: no file, a file that cannot be read, or the text of its
    first two pages. *)
Inductive pdf_file : Type :=
  | DownloadFails
  | ReadFails
  | Pages (text : str).

(** How [run] ends: at its end, at the answer "q", or with the
    [EOFError] of an [input()] that has nothing to read. *)
Inductive run_end : Type := Completed | QuitByUser | InputExhausted.

(** The first pass of the scan: the items that miss an abstract. *)
Definition first_pass (acc : stats_t * list library_item) (it : library_item)
    : stats_t * list library_item :=
  let '(st, missing_abstracts) := acc in
  let item_type := get (itemType it) [] in
  if is_non_citation item_type then acc
  else
    let abstract := str_strip (get (abstractNote (data (li_item it))) []) in
    if nonempty abstract then acc
    else (bump_total_missing st, missing_abstracts ++ [it]).

(** The second pass: the PDF attachments of these items. *)
Definition second_pass (missing_abstracts : list library_item)
    (acc : stats_t * list pdf_item) (it : library_item) : stats_t * list pdf_item :=
  let '(st, items_with_pdfs) := acc in
  let item_type := get (itemType it) [] in
  if str_eqb item_type (py "attachment") then
    let content_type := get (contentType it) [] in
    let parent_key := get (parentItem it) [] in
    if contains (py "pdf") (str_lower content_type)
       && existsb (fun p => str_eqb (key (li_item p)) parent_key) missing_abstracts
    then
      match List.find (fun p => str_eqb (key (li_item p)) parent_key) missing_abstracts with
      | Some p =>
          (bump_has_pdf st,
           items_with_pdfs ++
           [PdfItem (li_item p) (key (li_item it)) (get (filename it) (py "unknown.pdf"))])
      | None => acc
      end
    else acc
  else acc.

Section Extractor.

Context {library : Type}.

Variable update_item : library -> payload -> str + library.
Variable everything_items : library -> list library_item.

(** [zot.file(key)], written to a temporary file and opened. *)
Variable zot_file : library -> str -> pdf_file.
Variable read_error : str.

(** What a run can change, and the lines still to be read by [input()]. *)
Record world := World {
  zot : library;
  write_calls : list payload;
  verbose : bool;
  log_file : list str;
  stats : stats_t;
  stdin : list str
}.

Definition log (message : str) (w : world) : world :=
  if verbose w
  then World (zot w) (write_calls w) (verbose w) (log_file w ++ [message]) (stats w)
             (stdin w)
  else w.

Definition log_all (messages : list str) (w : world) : world :=
  fold_left (fun w m => log m w) messages w.

Definition with_stats (f : stats_t -> stats_t) (w : world) : world :=
  World (zot w) (write_calls w) (verbose w) (log_file w) (f (stats w)) (stdin w).

Definition get_items_missing_abstracts_with_pdfs (limit : option Z) (w : world)
    : world * list pdf_item :=
  let items := everything_items (zot w) in
  let '(st, missing_abstracts) := fold_left first_pass items (stats w, []) in
  let '(st, items_with_pdfs) :=
    fold_left (second_pass missing_abstracts) items (st, []) in
  let w := with_stats (fun _ => st) w in
  match limit with
  | Some l =>
      if negb (l =? 0)%Z && (l <? Z.of_nat (length items_with_pdfs))%Z
      then (w, slice_to l items_with_pdfs)
      else (w, items_with_pdfs)
  | None => (w, items_with_pdfs)
  end.

Definition update_zotero_item (it : item) (abstract : str) (dry_run : bool) (w : world)
    : world * bool :=
  let citation := format_citation (data it) in
  if dry_run then (log_all (log_dry_run citation abstract) w, true)
  else
    let d := set_abstractNote abstract (data it) in
    let update_payload := Payload (key it) (version it) d in
    let w := World (zot w) (write_calls w ++ [update_payload]) (verbose w)
                   (log_file w) (stats w) (stdin w) in
    match update_item (zot w) update_payload with
    | inr z =>
        let w := World z (write_calls w) (verbose w) (log_file w) (stats w) (stdin w) in
        (log_all (log_updated citation abstract) w, true)
    | inl e => (log (py "  Error updating Zotero: " ++ e) w, false)
    end.

(** [parse_abstract_updates_file] with its log messages. *)
Definition read_updates (f : file) (w : world) : world * option (list ledger_item) :=
  match f with
  | Missing => (w, None)
  | Unreadable =>
      let w := log (py "Reading updates from abstract_updates.txt...") w in
      (log (py "Error reading abstract_updates.txt: " ++ read_error) w, None)
  | Content text =>
      let w := log (py "Reading updates from abstract_updates.txt...") w in
      let updates := parse_lines (file_lines text) in
      let w := log (py "Found " ++ dec (length updates)
                      ++ py " items in abstract_updates.txt") w in
      (w, match updates with [] => None | _ => Some updates end)
  end.

(** One iteration of the loop over [updates]. *)
Definition process_update (all_items : list item) (doi_to_item : gmap str item)
    (dry_run : bool) (n : nat) (w : world) (iu : nat * ledger_item) : world :=
  let '(i, update) := iu in
  let '(LedgerItem c t d a) := update in
  let citation := get c (py "Unknown") in
  let title := get t (py "Unknown") in
  let doi := get d [] in
  let abstract := get a [] in
  let w := log_all (log_processing i n citation title doi) w in
  let '(messages, matching_item) := find_matching_item all_items doi_to_item update in
  let w := log_all messages w in
  match matching_item with
  | None =>
      let w := log (py "  WARNING: Could not find Zotero item with DOI: " ++ doi
                      ++ py " (cleaned: " ++ clean_doi doi ++ py ")") w in
      with_stats bump_failed w
  | Some it =>
      let '(w, ok) := update_zotero_item it abstract dry_run w in
      if ok then with_stats bump_approved w else with_stats bump_failed w
  end.

Definition process_from_updates_file (updates : list ledger_item) (dry_run : bool)
    (w : world) : world :=
  let all_items := map li_item (everything_items (zot w)) in
  let doi_to_item := build_doi_lookup all_items in
  let w := log (py "Built DOI lookup with " ++ dec (size doi_to_item)
                  ++ py " entries from " ++ dec (length all_items) ++ py " items") w in
  fold_left (process_update all_items doi_to_item dry_run (length updates))
            (zip (seq 1 (length updates)) updates) w.

(** The lines of an edited abstract: [input()] until an empty line.
    [None] when the input ends first. *)
Fixpoint read_lines (inputs : list str) : option (list str * list str) :=
  match inputs with
  | [] => None
  | [] :: rest => Some ([], rest)
  | line :: rest =>
      match read_lines rest with
      | Some (lines, rest') => Some (line :: lines, rest')
      | None => None
      end
  end.

(** The loop that asks for approval.  [None]: the user quits. *)
Fixpoint approve (it : item) (abstract : str) (inputs : list str) (w : world)
    : world * run_end :=
  match inputs with
  | [] => (World (zot w) (write_calls w) (verbose w) (log_file w) (stats w) [],
           InputExhausted)
  | line :: rest =>
      let w := World (zot w) (write_calls w) (verbose w) (log_file w) (stats w) rest in
      let response := str_strip (str_lower line) in
      if one_of ["y"; "yes"]%string response then
        let '(w, ok) := update_zotero_item it abstract false w in
        (if ok then with_stats bump_approved w else w, Completed)
      else if one_of ["n"; "no"]%string response then
        (with_stats bump_skipped w, Completed)
      else if one_of ["e"; "edit"]%string response then
        match read_lines rest with
        | None =>
            (World (zot w) (write_calls w) (verbose w) (log_file w) (stats w) [],
             InputExhausted)
        | Some (lines, rest') =>
            let w := World (zot w) (write_calls w) (verbose w) (log_file w) (stats w)
                           rest' in
            match lines with
            | [] => (w, Completed)
            | _ =>
                let abstract := str_join (py " ") lines in
                let '(w, ok) := update_zotero_item it abstract false w in
                (if ok then with_stats bump_approved w else w, Completed)
            end
        end
      else if one_of ["q"; "quit"]%string response then (w, QuitByUser)
      else approve it abstract rest w
  end.

(** The four messages that open the entry of an item. *)
Definition log_item (i n : nat) (info : pdf_item) : list str :=
  let d := data (parent info) in
  log_processing i n (format_citation d) (get (data_title d) (py "Unknown"))
                 (get (DOI d) [])
  ++ [py "  PDF: " ++ pdf_filename info].

(** The loop over [items]. *)
Fixpoint process_items (dry_run : bool) (n : nat) (iis : list (nat * pdf_item))
    (w : world) : world * run_end :=
  match iis with
  | [] => (w, Completed)
  | (i, info) :: later =>
      let w := log_all (log_item i n info) w in
      let failed (message : str) :=
        process_items dry_run n later (with_stats bump_failed (log message w)) in
      match zot_file (zot w) (attachment_key info) with
      | DownloadFails => failed (py "  Failed to download PDF")
      | ReadFails => failed (py "  Could not find abstract in PDF")
      | Pages text =>
          match _find_abstract_in_text text with
          | Some (c :: a) =>
              let abstract := c :: a in
              let w := with_stats bump_extracted w in
              let w := log (py "  Abstract: " ++ abstract) w in
              if verbose w then
                let w :=
                  if dry_run
                  then log (py "  [DRY RUN] Would update abstract for "
                              ++ format_citation (data (parent info))) w
                  else w in
                process_items dry_run n later w
              else if dry_run then process_items dry_run n later w
              else
                match approve (parent info) abstract (stdin w) w with
                | (w, Completed) => process_items dry_run n later w
                | stop => stop
                end
          | _ => failed (py "  Could not find abstract in PDF")
          end
      end
  end.

Definition run (f : file) (limit : option Z) (dry_run : bool) (w : world)
    : world * run_end :=
  let '(w, updates_from_file) := read_updates f w in
  match updates_from_file with
  | Some (u :: us) => (process_from_updates_file (u :: us) dry_run w, Completed)
  | _ =>
      let '(w, items) := get_items_missing_abstracts_with_pdfs limit w in
      process_items dry_run (length items) (zip (seq 1 (length items)) items) w
  end.

End Extractor.

End Extractor.

(** ** The PDF extractor *)

(** [w'] is [w] with the messages [ms] logged, and possibly other
    counters: same library, same writes, same input. *)
Definition etraced {library} (w w' : @Extractor.world library) (ms : list str) : Prop :=
  Extractor.zot w' = Extractor.zot w /\
  Extractor.write_calls w' = Extractor.write_calls w /\
  Extractor.stdin w' = Extractor.stdin w /\
  Extractor.verbose w' = Extractor.verbose w /\
  Extractor.log_file w' = Extractor.log_file w ++ (if Extractor.verbose w then ms else []).

(** The counters the replay of the extractor does not touch. *)
Definition extraction_counters (s : Extractor.stats_t) : nat * nat * nat * nat :=
  (Extractor.total_missing s, Extractor.has_pdf s, Extractor.abstract_extracted s,
   Extractor.user_skipped s).

(** The record the second pass makes of an attachment, given the items
    that miss an abstract. *)
Definition is_pdf_of (missing : list library_item) (att : library_item) : bool :=
  str_eqb (get (itemType att) []) (py "attachment")
  && (contains (py "pdf") (str_lower (get (contentType att) []))
      && existsb (fun p => str_eqb (key (li_item p)) (get (parentItem att) [])) missing).

Definition pdf_of (missing : list library_item) (att : library_item)
    : option Extractor.pdf_item :=
  if is_pdf_of missing att then
    match List.find (fun p => str_eqb (key (li_item p)) (get (parentItem att) [])) missing with
    | Some p => Some (Extractor.PdfItem (li_item p) (key (li_item att))
                        (get (filename att) (py "unknown.pdf")))
    | None => None
    end
  else None.

(** The messages of one iteration of the loop over [items] when it
    does not ask. *)
Definition extraction_messages {library} (zot_file : library -> str -> Extractor.pdf_file)
    (z : library) (dry_run : bool) (n : nat) (ii : nat * Extractor.pdf_item) : list str :=
  let '(i, info) := ii in
  let not_found := [py "  Could not find abstract in PDF"] in
  Extractor.log_item i n info
  ++ match zot_file z (Extractor.attachment_key info) with
     | Extractor.DownloadFails => [py "  Failed to download PDF"]
     | Extractor.ReadFails => not_found
     | Extractor.Pages text =>
         match _find_abstract_in_text text with
         | Some (c :: a) =>
             (py "  Abstract: " ++ c :: a)
             :: (if dry_run
                 then [py "  [DRY RUN] Would update abstract for "
                         ++ format_citation (data (Extractor.parent info))]
                 else [])
         | _ => not_found
         end
     end.

(** What the approval loop makes of an input line. *)
Definition reply (line : str) : str := str_strip (str_lower line).

Definition understood (line : str) : bool :=
  one_of ["y"; "yes"; "n"; "no"; "e"; "edit"; "q"; "quit"]%string (reply line).

(** The world once the input left to read is [inputs]. *)
Definition heard {library} (inputs : list str) (w : @Extractor.world library)
    : @Extractor.world library :=
  Extractor.World (Extractor.zot w) (Extractor.write_calls w) (Extractor.verbose w)
                  (Extractor.log_file w) (Extractor.stats w) inputs.

(** What the loop of a verbose run needs of a record for its messages to
    be lines of their own: no line end in the last names shown, in the
    title, in the DOI and in the name of the PDF, and no whitespace
    around the title and around the DOI. *)
Definition pdf_loggable (info : Extractor.pdf_item) : bool :=
  let d := data (Extractor.parent info) in
  forallb (fun c => one_line (shown_name c)) (authors_of d)
  && one_line (get (data_title d) (py "Unknown"))
  && trimmed (get (data_title d) (py "Unknown"))
  && one_line (get (DOI d) []) && trimmed (get (DOI d) [])
  && one_line (Extractor.pdf_filename info).

(** The entry a verbose run logs for a record, if the segmenter finds an
    abstract in its PDF. *)
Definition extracted_entry {library} (zot_file : library -> str -> Extractor.pdf_file)
    (z : library) (info : Extractor.pdf_item) : option entry :=
  let d := data (Extractor.parent info) in
  match zot_file z (Extractor.attachment_key info) with
  | Extractor.Pages text =>
      match _find_abstract_in_text text with
      | Some (c :: a) =>
          Some (Entry (format_citation d) (get (data_title d) (py "Unknown"))
                      (get (DOI d) []) (c :: a))
      | _ => None
      end
  | _ => None
  end.

(** From [w] to [w'] the extractor sent the writes [new], read the input
    lines [used] and counted [e] extractions, [fl] failures, [a]
    approvals and [s] skipped items, and counted nothing else. *)
Definition accounted {library} (w w' : @Extractor.world library)
    (e fl a s : nat) (new : list payload) (used : list str) : Prop :=
  Extractor.write_calls w' = Extractor.write_calls w ++ new /\
  Extractor.stdin w = used ++ Extractor.stdin w' /\
  Extractor.verbose w' = Extractor.verbose w /\
  Extractor.stats w'
  = Extractor.Stats (Extractor.total_missing (Extractor.stats w))
                    (Extractor.has_pdf (Extractor.stats w))
                    (Extractor.abstract_extracted (Extractor.stats w) + e)
                    (Extractor.user_approved (Extractor.stats w) + a)
                    (Extractor.user_skipped (Extractor.stats w) + s)
                    (Extractor.extraction_failed (Extractor.stats w) + fl).

(** * Properties *)

(** ** Strings *)

Lemma dropwhile_In (p : ascii -> bool) (s : str) (c : ascii) :
  In c (dropwhile p s) -> In c s.
Proof.
  induction s as [|a s IH]; [done|]. cbn. destruct (p a); [|done].
  intros H. right. by apply IH.
Qed.

Lemma dropwhile_head (p : ascii -> bool) (s : str) (c : ascii) (t : str) :
  dropwhile p s = c :: t -> p c = false.
Proof.
  induction s as [|a s IH]; [done|]. cbn. destruct (p a) eqn:E; [done|].
  by intros [= <- _].
Qed.

Lemma dropwhile_stop (p : ascii -> bool) (c : ascii) (t : str) :
  p c = false -> dropwhile p (c :: t) = c :: t.
Proof. cbn. by intros ->. Qed.

Lemma dropwhile_idem (p : ascii -> bool) (s : str) :
  dropwhile p (dropwhile p s) = dropwhile p s.
Proof.
  destruct (dropwhile p s) as [|c t] eqn:E; [done|].
  apply dropwhile_stop. by eapply dropwhile_head.
Qed.

Lemma dropwhile_snoc (p : ascii -> bool) (s : str) (c : ascii) :
  p c = false -> dropwhile p (s ++ [c]) = dropwhile p s ++ [c].
Proof.
  intros Hc. induction s as [|a s IH]; cbn; [by rewrite Hc|].
  by destruct (p a).
Qed.

Lemma rstrip_by_In (p : ascii -> bool) (s : str) (c : ascii) :
  In c (rstrip_by p s) -> In c s.
Proof.
  unfold rstrip_by. rewrite <- in_rev. intros H%dropwhile_In. by apply in_rev.
Qed.

Lemma rstrip_by_idem (p : ascii -> bool) (s : str) :
  rstrip_by p (rstrip_by p s) = rstrip_by p s.
Proof. unfold rstrip_by. by rewrite rev_involutive, dropwhile_idem. Qed.

Lemma rstrip_by_cons (p : ascii -> bool) (c : ascii) (t : str) :
  p c = false -> rstrip_by p (c :: t) = c :: rstrip_by p t.
Proof.
  intros Hc. unfold rstrip_by. cbn [rev].
  rewrite dropwhile_snoc by done. by rewrite rev_app_distr.
Qed.

Lemma dropwhile_app (p : ascii -> bool) (l l' : str) (x : ascii) :
  In x l -> p x = false -> dropwhile p (l ++ l') = dropwhile p l ++ l'.
Proof.
  intros Hin Hx. induction l as [|y l IH]; [done|]. cbn.
  destruct (p y) eqn:Ey; [|done].
  destruct Hin as [->|Hin]; [congruence|]. by apply IH.
Qed.

Lemma rstrip_by_app (p : ascii -> bool) (a b : str) (c : ascii) :
  p c = false -> rstrip_by p (a ++ c :: b) = a ++ rstrip_by p (c :: b).
Proof.
  intros Hc. unfold rstrip_by. rewrite rev_app_distr.
  rewrite (dropwhile_app p (rev (c :: b)) (rev a) c); [|apply in_rev|done].
  - by rewrite rev_app_distr, rev_involutive.
  - rewrite rev_involutive. by left.
Qed.

Lemma str_strip_In (s : str) (c : ascii) : In c (str_strip s) -> In c s.
Proof. unfold str_strip, lstrip_by. intros H%rstrip_by_In. by eapply dropwhile_In. Qed.

Lemma str_strip_idem (s : str) : str_strip (str_strip s) = str_strip s.
Proof.
  unfold str_strip, lstrip_by.
  destruct (dropwhile is_space s) as [|c t] eqn:E; [done|].
  pose proof (dropwhile_head _ _ _ _ E) as Hc.
  rewrite (rstrip_by_cons _ _ _ Hc), (dropwhile_stop _ _ _ Hc).
  rewrite <- (rstrip_by_cons _ _ _ Hc). apply rstrip_by_idem.
Qed.

Lemma str_rstrip_id (chars s : str) :
  ends_with_any chars s = false -> str_rstrip chars s = s.
Proof.
  unfold ends_with_any, str_rstrip, rstrip_by.
  destruct (rev s) as [|c t] eqn:E.
  - intros _. apply (f_equal (@rev _)) in E. by rewrite rev_involutive in E.
  - apply (f_equal (@rev _)) in E. rewrite rev_involutive in E. subst s.
    cbn [rev]. rewrite last_snoc. intros Hc.
    by rewrite dropwhile_stop.
Qed.

Lemma space_nl : is_space nl = true. Proof. reflexivity. Qed.
Lemma space_cr : is_space cr = true. Proof. reflexivity. Qed.
Lemma nl_not_blank : nl <> blank. Proof. discriminate. Qed.
Lemma cr_not_blank : cr <> blank. Proof. discriminate. Qed.

Lemma dot_not_nl (c : ascii) : dot c = true <-> c <> nl.
Proof.
  unfold dot, char_eqb. destruct (Ascii.eqb c nl) eqn:E; cbn.
  - apply Ascii.eqb_eq in E. split; [discriminate|tauto].
  - apply Ascii.eqb_neq in E. tauto.
Qed.

Lemma rstrip_by_keep (q : ascii -> bool) (p s : str) :
  p <> [] -> forallb (fun c => negb (q c)) p = true ->
  rstrip_by q (p ++ s) = p ++ rstrip_by q s.
Proof.
  intros Hne Hp. destruct (exists_last Hne) as (a & c & ->).
  rewrite forallb_app in Hp. apply andb_prop in Hp as [_ Hc]. cbn in Hc.
  rewrite andb_true_r in Hc. apply negb_true_iff in Hc.
  rewrite <- !app_assoc. cbn [app].
  by rewrite rstrip_by_app, rstrip_by_cons.
Qed.

Lemma map_replicate {A B} (f : A -> B) (n : nat) (x : A) :
  map f (replicate n x) = replicate n (f x).
Proof. induction n as [|n IH]; [done|]. cbn. by rewrite IH. Qed.

Lemma char_eqb_eq (a b : ascii) : char_eqb a b = true <-> a = b.
Proof. apply Ascii.eqb_eq. Qed.

Lemma str_eqb_eq (a b : str) : str_eqb a b = true <-> a = b.
Proof.
  revert b. induction a as [|x a IH]; intros [|y b]; cbn; try done.
  rewrite andb_true_iff, char_eqb_eq, IH. split; [by intros [-> ->]|by intros [= -> ->]].
Qed.

Lemma dropwhile_length (p : ascii -> bool) (s : str) :
  length (dropwhile p s) <= length s.
Proof. induction s as [|c s IH]; cbn; [lia|]. destruct (p c); cbn; lia. Qed.

Lemma rstrip_by_length (p : ascii -> bool) (s : str) :
  length (rstrip_by p s) <= length s.
Proof.
  unfold rstrip_by. rewrite length_rev.
  pose proof (dropwhile_length p (rev s)) as H. by rewrite length_rev in H.
Qed.

(** A stripped string is empty, or begins and ends with a character that
    is not whitespace. *)
Lemma trimmed_cases (t : str) :
  trimmed t = true ->
  t = [] \/ exists c t', t = c :: t' /\ is_space c = false /\ rstrip_by is_space t = t.
Proof.
  unfold trimmed. rewrite str_eqb_eq. destruct t as [|c t']; [by left|].
  intros H. right. exists c, t'. split; [done|].
  destruct (is_space c) eqn:Ec.
  - exfalso. apply (f_equal length) in H. unfold str_strip, lstrip_by in H.
    cbn [dropwhile] in H. rewrite Ec in H.
    pose proof (rstrip_by_length is_space (dropwhile is_space t')).
    pose proof (dropwhile_length is_space t'). cbn in H. lia.
  - split; [done|]. unfold str_strip, lstrip_by in H.
    by rewrite (dropwhile_stop _ _ _ Ec) in H.
Qed.

Lemma uint_chars_digits (d : Decimal.uint) : forallb is_digit (uint_chars d) = true.
Proof. induction d; cbn [uint_chars forallb]; [done|..]; by rewrite IHd. Qed.

Lemma dec_digits (n : nat) :
  exists d ds, dec n = d :: ds /\ forallb is_digit (d :: ds) = true.
Proof.
  unfold dec. pose proof (uint_chars_digits (Nat.to_uint n)) as H.
  destruct (Nat.to_uint n); cbn [uint_chars] in *; eauto.
Qed.

Lemma digit_one_line (c : ascii) :
  is_digit c = true -> negb (char_eqb c nl) && negb (char_eqb c cr) = true.
Proof.
  intros H. destruct (char_eqb c nl) eqn:E1.
  { apply char_eqb_eq in E1. subst. discriminate H. }
  destruct (char_eqb c cr) eqn:E2; [|done].
  apply char_eqb_eq in E2. subst. discriminate H.
Qed.

Lemma one_line_app (a b : str) : one_line (a ++ b) = one_line a && one_line b.
Proof. apply forallb_app. Qed.

Lemma one_line_dec (n : nat) : one_line (dec n) = true.
Proof.
  destruct (dec_digits n) as (d & ds & -> & H). unfold one_line.
  apply forallb_forall. intros c Hc. rewrite forallb_forall in H.
  by apply digit_one_line, H.
Qed.

Lemma one_line_dot (s : str) : one_line s = true -> forallb dot s = true.
Proof.
  unfold one_line. rewrite !forallb_forall. intros H c Hc.
  apply H, andb_prop in Hc as [Hc _]. exact Hc.
Qed.

Lemma dropwhile_none (q : ascii -> bool) (s : str) :
  forallb (fun c => negb (q c)) s = true -> dropwhile q s = s.
Proof.
  destruct s as [|c t]; [done|]. cbn. intros [Hc _]%andb_prop.
  apply negb_true_iff in Hc. by rewrite Hc.
Qed.

Lemma str_rstrip_line (m : str) : one_line m = true -> str_rstrip [nl] (m ++ [nl]) = m.
Proof.
  intros H. unfold str_rstrip, rstrip_by. rewrite rev_app_distr. cbn [rev app dropwhile].
  change (mem_char [nl] nl) with true. cbn iota.
  rewrite dropwhile_none; [apply rev_involutive|].
  apply forallb_forall. intros c Hc%in_rev.
  apply one_line_dot in H. rewrite forallb_forall in H. specialize (H c Hc).
  unfold dot in H. cbn. by rewrite orb_false_r.
Qed.

Lemma startswith_app (w rest : str) : startswith w (w ++ rest) = true.
Proof.
  induction w as [|c w IH]; [done|]. cbn. unfold char_eqb.
  by rewrite Ascii.eqb_refl, IH.
Qed.

Lemma str_strip_blank (s : str) : str_strip (blank :: s) = str_strip s.
Proof. reflexivity. Qed.

Lemma rstrip_by_snoc (q : ascii -> bool) (s : str) (c : ascii) :
  q c = true -> rstrip_by q (s ++ [c]) = rstrip_by q s.
Proof. intros H. unfold rstrip_by. rewrite rev_app_distr. cbn. by rewrite H. Qed.

(** Stripping a line "  label value" whose value is stripped. *)
Lemma str_strip_field (lbl t : str) :
  nonempty lbl = true -> trimmed lbl = true -> trimmed t = true ->
  str_strip (blank :: blank :: lbl ++ blank :: t)
  = lbl ++ match t with [] => [] | _ => blank :: t end.
Proof.
  intros Hne Hlbl Ht. rewrite !str_strip_blank.
  apply trimmed_cases in Hlbl as [->|(c & l & -> & Hc & Hl)]; [done|].
  unfold str_strip, lstrip_by. cbn [app]. rewrite (dropwhile_stop _ _ _ Hc).
  change (c :: l ++ blank :: t) with ((c :: l) ++ blank :: t).
  apply trimmed_cases in Ht as [->|(c' & t' & -> & Hc' & Ht')].
  - rewrite (rstrip_by_snoc is_space (c :: l) blank eq_refl), Hl.
    by rewrite app_nil_r.
  - replace ((c :: l) ++ blank :: c' :: t') with (((c :: l) ++ [blank]) ++ c' :: t')
      by (by rewrite <- app_assoc).
    rewrite rstrip_by_app by done. rewrite Ht'. by rewrite <- app_assoc.
Qed.

Lemma str_strip_value (t : str) :
  trimmed t = true -> str_strip match t with [] => [] | _ => blank :: t end = t.
Proof.
  intros Ht. unfold trimmed in Ht. apply str_eqb_eq in Ht.
  destruct t as [|c t']; [done|]. by rewrite str_strip_blank.
Qed.

Lemma str_strip_head (c : ascii) (rest : str) :
  is_space c = false -> str_strip (c :: rest) = c :: rstrip_by is_space rest.
Proof.
  intros Hc. unfold str_strip, lstrip_by. rewrite (dropwhile_stop _ _ _ Hc).
  by apply rstrip_by_cons.
Qed.

Lemma drop_dropwhile (p : ascii -> bool) (t : str) :
  drop (length t - length (dropwhile p t)) t = dropwhile p t.
Proof.
  induction t as [|c t IH]; [done|]. cbn [dropwhile].
  destruct (p c).
  - pose proof (dropwhile_length p t).
    replace (length (c :: t) - length (dropwhile p t))
      with (S (length t - length (dropwhile p t))) by (cbn; lia).
    exact IH.
  - by rewrite Nat.sub_diag.
Qed.

Lemma dropwhile_suffix (p : ascii -> bool) (s : str) :
  exists a, s = a ++ dropwhile p s.
Proof.
  induction s as [|c s [a IH]]; [by exists []|]. cbn.
  destruct (p c); [|by exists []]. exists (c :: a). cbn. by rewrite <- IH.
Qed.

Lemma rstrip_by_prefix (p : ascii -> bool) (s : str) :
  exists b, s = rstrip_by p s ++ b.
Proof.
  unfold rstrip_by. destruct (dropwhile_suffix p (rev s)) as [a Ha].
  exists (rev a). rewrite <- rev_app_distr, <- Ha. by rewrite rev_involutive.
Qed.

(** ** The matcher *)

Lemma match_at_None (r : regex) (sn ah : str) :
  match_at r sn ah = None <-> rmatch r Some (MState sn ah None) = None.
Proof. unfold match_at. by destruct (rmatch r Some _). Qed.

Lemma star_loop_Some (p : ascii -> bool) (g : option str) (ah sn : str) :
  exists e, star_loop p Some g sn ah = Some e /\ length (ahead e) <= length ah.
Proof.
  revert sn. induction ah as [|c t IH]; intros sn; cbn; [by eexists|].
  destruct (p c); [|by eexists].
  destruct (IH (c :: sn)) as (e & -> & Hle). exists e. split; [done|lia].
Qed.

(** A pattern that begins with "^" matches at the start of the text only. *)
Lemma search_from_bos (r : regex) (c : ascii) (sn ah : str) :
  search_from (Seq Bos r) (c :: sn) ah = None.
Proof.
  revert c sn. induction ah as [|a t IH]; intros c sn; cbn [search_from]; [done|].
  unfold match_at. cbn [rmatch seen]. apply IH.
Qed.

Lemma run_classes_app (ps qs : list (ascii -> bool)) (sn ah : str) :
  run_classes (ps ++ qs) sn ah =
  match run_classes ps sn ah with
  | Some (sn', ah') => run_classes qs sn' ah'
  | None => None
  end.
Proof.
  revert sn ah. induction ps as [|p ps IH]; intros sn ah; [done|]. cbn.
  destruct ah as [|c t]; [done|]. destruct (p c); [apply IH|done].
Qed.

Lemma rmatch_classes (r : regex) :
  forall ps, classes r = Some ps ->
  forall k sn ah g,
    rmatch r k (MState sn ah g) =
    match run_classes ps sn ah with
    | Some (sn', ah') => k (MState sn' ah' g)
    | None => None
    end.
Proof.
  induction r; intros ps Hps k sn ah g; try discriminate; cbn in Hps.
  - by injection Hps as <-.
  - injection Hps as <-. cbn. destruct ah as [|c t]; [done|]. by destruct (p c).
  - destruct (classes r1) as [x|]; [|done]. destruct (classes r2) as [y|]; [|done].
    injection Hps as <-. cbn [rmatch]. rewrite (IHr1 x eq_refl), run_classes_app.
    destruct (run_classes x sn ah) as [[sn' ah']|]; [|done].
    apply (IHr2 y eq_refl).
Qed.

Lemma run_classes_more (ps : list (ascii -> bool)) (sn p sn' l : str) :
  run_classes ps sn p = Some (sn', []) -> run_classes ps sn (p ++ l) = Some (sn', l).
Proof.
  revert sn p. induction ps as [|q ps IH]; intros sn p; cbn.
  - by intros [= -> ->].
  - destruct p as [|c t]; [done|]. cbn. destruct (q c); [apply IH|done].
Qed.

Lemma run_classes_chars (ps : list (ascii -> bool)) (sn p sn' : str) (Q : ascii -> Prop) :
  Forall (fun q => forall c, q c = true -> Q c) ps ->
  run_classes ps sn p = Some (sn', []) -> Forall Q p /\ length p = length ps.
Proof.
  intros Hps. revert sn p. induction Hps as [|q ps Hq _ IH]; intros sn p; cbn.
  - by intros [= -> ->].
  - destruct p as [|c t]; [done|]. destruct (q c) eqn:Ec; [|done].
    intros [? ?]%IH. split; [constructor; auto|cbn; congruence].
Qed.

Lemma star_loop_all (p : ascii -> bool) (k : mstate -> option mstate)
    (g : option str) (l sn : str) (e : mstate) :
  forallb p l = true -> k (MState (rev l ++ sn) [] g) = Some e ->
  star_loop p k g sn l = Some e.
Proof.
  revert sn. induction l as [|c t IH]; intros sn; cbn; [done|].
  intros [-> Ht]%andb_prop Hk. rewrite (IH (c :: sn) Ht); [done|].
  by rewrite <- app_assoc in Hk.
Qed.

Lemma class_dot (q : ascii -> bool) :
  q nl = false -> forall c, q c = true -> dot c = true.
Proof. intros Hq c Hc. apply dot_not_nl. intros ->. congruence. Qed.

Lemma rmatch_lit (w : str) (k : mstate -> option mstate) (sn rest : str) (g : option str) :
  rmatch (lit w) k (MState sn (w ++ rest) g) = k (MState (rev w ++ sn) rest g).
Proof.
  revert sn. induction w as [|c w IH]; intros sn; [done|].
  cbn [lit rmatch ahead seen grp1 app]. unfold char_eqb at 1. rewrite Ascii.eqb_refl.
  rewrite IH. cbn [rev]. by rewrite <- app_assoc.
Qed.

Lemma star_loop_until (p : ascii -> bool) (k : mstate -> option mstate)
    (g : option str) (ds rest sn : str) (e : mstate) :
  forallb p ds = true ->
  match rest with c :: _ => p c = false | [] => True end ->
  k (MState (rev ds ++ sn) rest g) = Some e ->
  star_loop p k g sn (ds ++ rest) = Some e.
Proof.
  intros Hds Hrest. revert sn. induction ds as [|c t IH]; intros sn; cbn [app rev].
  - intros Hk. destruct rest as [|c t]; cbn; [done|]. by rewrite Hrest.
  - cbn [forallb] in Hds. apply andb_prop in Hds as [Hc Ht]. intros Hk.
    cbn [star_loop]. rewrite Hc, (IH Ht (c :: sn)); [done|].
    by rewrite <- app_assoc in Hk.
Qed.

Lemma rmatch_plus_run (p : ascii -> bool) (k : mstate -> option mstate)
    (sn : str) (d : ascii) (ds rest : str) (g : option str) (e : mstate) :
  forallb p (d :: ds) = true ->
  match rest with c :: _ => p c = false | [] => True end ->
  k (MState (rev ds ++ d :: sn) rest g) = Some e ->
  rmatch (Plus p) k (MState sn (d :: ds ++ rest) g) = Some e.
Proof.
  cbn [forallb rmatch ahead seen grp1]. intros [-> Hds]%andb_prop Hrest Hk.
  by apply star_loop_until.
Qed.

Lemma rmatch_plus_all (p : ascii -> bool) (k : mstate -> option mstate)
    (sn : str) (d : ascii) (ds : str) (g : option str) (e : mstate) :
  forallb p (d :: ds) = true ->
  k (MState (rev ds ++ d :: sn) [] g) = Some e ->
  rmatch (Plus p) k (MState sn (d :: ds) g) = Some e.
Proof.
  intros Hp Hk. rewrite <- (app_nil_r ds). by apply rmatch_plus_run.
Qed.

Lemma search_from_here (r : regex) (sn ah : str) (m : match_obj) :
  match_at r sn ah = Some m -> search_from r sn ah = Some m.
Proof. intros H. destruct ah; cbn [search_from]; by rewrite H. Qed.

Lemma star_loop_greedy (p : ascii -> bool) (g : option str) (ah sn : str) :
  exists sn', star_loop p Some g sn ah = Some (MState sn' (dropwhile p ah) g).
Proof.
  revert sn. induction ah as [|c t IH]; intros sn; cbn; [by eexists|].
  destruct (p c); [|by eexists].
  destruct (IH (c :: sn)) as (sn' & ->). by eexists.
Qed.

Lemma star_loop_result (p : ascii -> bool) (k : mstate -> option mstate)
    (g : option str) (ah sn : str) (e : mstate) :
  star_loop p k g sn ah = Some e ->
  exists sn' pre ah', ah = pre ++ ah' /\ k (MState sn' ah' g) = Some e.
Proof.
  revert sn. induction ah as [|c t IH]; intros sn; cbn.
  - intros H. by exists sn, [], [].
  - destruct (p c); [|intros H; by exists sn, [], (c :: t)].
    destruct (star_loop p k g (c :: sn) t) as [e'|] eqn:E.
    + intros [= ->]. destruct (IH _ E) as (sn' & pre & ah' & -> & H).
      by exists sn', (c :: pre), ah'.
    + intros H. by exists sn, [], (c :: t).
Qed.

(** ** [re.sub] *)

Lemma sub_go_here (r : regex) (repl sn ah : str) :
  sub_go r repl 0 sn ah =
  let s := MState sn ah None in
  let copy (_ : unit) :=
    match ah with c :: t => c :: sub_go r repl 0 (c :: sn) t | [] => [] end in
  let jump (n : nat) :=
    match ah with c :: t => sub_go r repl n (c :: sn) t | [] => [] end in
  match rmatch r Some s with
  | None => copy ()
  | Some e =>
      match consumed s e with
      | S n => repl ++ jump n
      | 0 =>
          repl ++
          match rmatch r (advancing s) s with
          | Some e' =>
              match consumed s e' with S n => repl ++ jump n | 0 => copy () end
          | None => copy ()
          end
      end
  end.
Proof. by destruct ah. Qed.

(** The characters [re.sub] lets through come from the replacement or are
    characters of the text at which the pattern has no non-empty match. *)
Lemma sub_go_chars (r : regex) (repl : str) (Q : ascii -> Prop) :
  (forall sn c t,
      Q c \/ exists e n, rmatch r Some (MState sn (c :: t) None) = Some e /\
                         consumed (MState sn (c :: t) None) e = S n) ->
  forall ah skip sn c,
    In c (sub_go r repl skip sn ah) -> In c repl \/ (In c ah /\ Q c).
Proof.
  intros HQ. induction ah as [|a t IH]; intros skip sn c.
  - destruct skip as [|n]; [|done]. rewrite sub_go_here. cbn zeta.
    repeat (match goal with
            | |- context [match ?x with _ => _ end] => destruct x
            end; try done);
      rewrite ?in_app_iff; cbn [In]; tauto.
  - destruct skip as [|n].
    + rewrite sub_go_here. cbn zeta.
      assert (forall k, In c (sub_go r repl k (a :: sn) t) ->
                        In c repl \/ In c (a :: t) /\ Q c) as Hrec.
      { intros k [?|[? ?]]%IH; [by left|right; split; [by right|done]]. }
      destruct (HQ sn a t) as [Ha|(e & n & -> & ->)].
      * assert (In c (a :: sub_go r repl 0 (a :: sn) t) ->
                In c repl \/ In c (a :: t) /\ Q c) as Hcopy.
        { intros [<-|?]; [right; split; [by left|done]|by apply (Hrec 0)]. }
        repeat (match goal with
                | |- context [match ?x with _ => _ end] => destruct x
                end; try done);
          rewrite ?in_app_iff; intuition eauto.
      * rewrite in_app_iff. intros [?|?]; [by left|by apply (Hrec n)].
    + cbn [sub_go]. intros [?|[? ?]]%IH; [by left|right; split; [by right|done]].
Qed.

Lemma re_sub_In (r : regex) (repl s : str) (c : ascii) :
  In c (re_sub r repl s) -> In c repl \/ In c s.
Proof.
  intros H. apply (sub_go_chars r repl (fun _ => True)) in H; [tauto|].
  intros. by left.
Qed.

Lemma sub_go_no_match (r : regex) (repl : str) (ah sn : str) :
  search_from r sn ah = None -> sub_go r repl 0 sn ah = ah.
Proof.
  revert sn. induction ah as [|c t IH]; intros sn; cbn [search_from].
  - destruct (match_at r sn []) eqn:E; [done|]. intros _.
    apply match_at_None in E. rewrite sub_go_here. cbn zeta. by rewrite E.
  - destruct (match_at r sn (c :: t)) eqn:E; [done|]. intros H.
    apply match_at_None in E. rewrite sub_go_here. cbn zeta. rewrite E.
    by rewrite IH.
Qed.

Lemma re_sub_bos_no_match (r : regex) (repl s : str) :
  re_match (Seq Bos r) s = None -> re_sub (Seq Bos r) repl s = s.
Proof.
  unfold re_match, re_sub. intros H. apply sub_go_no_match.
  destruct s as [|c t]; cbn [search_from]; rewrite H; [done|].
  apply search_from_bos.
Qed.

Lemma sub_go_skip (r : regex) (repl : str) (n : nat) (ah sn : str) :
  exists sn', sub_go r repl n sn ah = sub_go r repl 0 sn' (drop n ah)
              \/ (length ah < n /\ sub_go r repl n sn ah = []).
Proof.
  revert ah sn. induction n as [|n IH]; intros ah sn.
  - exists sn. left. by rewrite drop_0.
  - destruct ah as [|c t].
    + exists sn. right. split; [cbn; lia|done].
    + cbn [sub_go drop length]. destruct (IH t (c :: sn)) as (sn' & [H|[H1 H2]]).
      * exists sn'. by left.
      * exists sn'. right. split; [lia|done].
Qed.

Lemma sub_go_bos_later (r : regex) (repl : str) (n : nat) (c : ascii) (sn t : str) :
  sub_go (Seq Bos r) repl n (c :: sn) t = drop n t.
Proof.
  revert c sn t. induction n as [|n IH]; intros c sn t.
  - rewrite drop_0. apply sub_go_no_match, search_from_bos.
  - destruct t as [|a t]; [done|]. cbn [sub_go drop]. apply IH.
Qed.

Lemma re_sub_bos_suffix (r : regex) (s : str) :
  exists a, s = a ++ re_sub (Seq Bos r) [] s.
Proof.
  unfold re_sub. rewrite sub_go_here. cbn zeta.
  destruct s as [|c t].
  - exists []. by repeat (match goal with
                         | |- context [match ?x with _ => _ end] => destruct x
                         end).
  - rewrite !sub_go_bos_later, drop_0.
    assert (forall n, exists a, c :: t = a ++ drop n t) as Hjump.
    { intros n. exists (c :: take n t). cbn. by rewrite take_drop. }
    assert (exists a, c :: t = a ++ c :: t) as Hcopy by (by exists []).
    repeat (match goal with
            | |- context [match ?x with _ => _ end] => destruct x
            end); cbn [app]; rewrite ?sub_go_bos_later; auto.
Qed.

(** ** Identifier normalizer *)


Lemma re_sub_resolver_id (repl y : str) :
  re_match re_doi_resolver y = None -> re_sub re_doi_resolver repl y = y.
Proof.
  exact (re_sub_bos_no_match
           (seqs [lit (py "http"); Opt (lit (py "s")); lit (py "://");
                  Opt (lit (py "dx.")); lit (py "doi.org/")]) repl y).
Qed.

Lemma re_sub_label_id (repl y : str) :
  re_match re_doi_label y = None -> re_sub re_doi_label repl y = y.
Proof. exact (re_sub_bos_no_match (lit_ci (py "doi:")) repl y). Qed.



(** ** Mode selection *)

Lemma run_mode_replay (f : file) (ups : list ledger_item) :
  run_mode f = ReplayMode ups <->
  exists text, f = Content text /\ parse_lines (file_lines text) = ups /\ ups <> [].
Proof.
  unfold run_mode, parse_abstract_updates_file. split.
  - destruct f as [| |text]; try discriminate.
    destruct (parse_lines (file_lines text)) as [|u us] eqn:E; try discriminate.
    intros [= <-]. by exists text.
  - intros (text & -> & <- & Hne).
    destruct (parse_lines (file_lines text)); [done|reflexivity].
Qed.

(** C1, evaluated on the code: a ledger file that exists but holds no
    entry with both a DOI and an abstract (an empty file, or a lone
    "Processing" line with its title) sends the run to discovery, as a
    missing file does. *)
Theorem run_mode_existing_ledger_without_entries :
  let empty := Content [] in
  let partial := Content (py "Processing [1/1] Smith 2020
  Title: A title
") in
  file_exists empty = true /\ run_mode empty = DiscoveryMode /\
  file_exists partial = true /\ run_mode partial = DiscoveryMode /\
  run_mode Missing = DiscoveryMode.
Proof. vm_compute. done. Qed.

(** ** Ledger parser: the store and the view *)

Lemma represents_list (st : pstate) (v : view) :
  represents st v -> map (deref (heap st)) (updates st) = view_list v.
Proof.
  intros (old & Hup & _ & _ & Hset & Hc). unfold view_list.
  by rewrite Hup, map_app, map_replicate, Hset, Hc.
Qed.

Lemma represents_init : represents pstate_init view_init.
Proof. exists []. cbn. repeat split; [constructor|lia]. Qed.

Lemma represents_flush (st : pstate) (v : view) :
  represents st v -> represents (flush st) (view_flush v).
Proof.
  intros (old & Hup & Hold & Hcur & Hset & Hc). unfold flush, view_flush.
  rewrite Hc. destruct (ready (current v)); [|by exists old].
  exists old. cbn [updates heap current_item pending settled current].
  split; [|done]. by rewrite Hup, <- app_assoc, replicate_S_end.
Qed.

Lemma deref_app (h : list ledger_item) (d : ledger_item) (r : nat) :
  r < length h -> deref (h ++ [d]) r = deref h r.
Proof. intros Hr. unfold deref. by rewrite lookup_app_l. Qed.

Lemma represents_assign_new (st : pstate) (v : view) (d : ledger_item) :
  represents st v -> represents (assign_new d st) (View (view_list v) 0 d).
Proof.
  intros (old & Hup & Hold & Hcur & Hset & Hc).
  exists (updates st). cbn. rewrite length_app. cbn. repeat split.
  - by rewrite app_nil_r.
  - rewrite Hup. apply Forall_app. split.
    + eapply Forall_impl; [exact Hold|]. cbn. intros r [_ ?]. lia.
    + apply Forall_replicate. lia.
  - lia.
  - rewrite <- (represents_list st v) by (by exists old).
    apply map_ext_in. intros r Hr. apply deref_app.
    rewrite Hup in Hr. apply in_app_iff in Hr as [Hr|Hr].
    + rewrite Forall_forall in Hold. apply list_elem_of_In, Hold in Hr. lia.
    + apply list_elem_of_In, elem_of_replicate in Hr as [-> _]. done.
  - unfold deref. by rewrite list_lookup_middle.
Qed.

Lemma represents_store (st : pstate) (v : view) (f : ledger_item -> ledger_item) :
  represents st v -> represents (store f st) (view_store f v).
Proof.
  intros (old & Hup & Hold & Hcur & Hset & Hc).
  exists old. cbn. rewrite length_alter. repeat split; [done|done|done| |].
  - rewrite <- Hset. apply map_ext_in. intros r Hr.
    rewrite Forall_forall in Hold. apply list_elem_of_In, Hold in Hr as [Hne _].
    unfold deref. by rewrite list_lookup_alter_ne.
  - unfold deref in *. rewrite list_lookup_alter_eq.
    destruct (lookup_lt_is_Some_2 _ _ Hcur) as [x Hx]. rewrite Hx in *.
    cbn in *. by subst.
Qed.

Lemma represents_step (st : pstate) (v : view) (raw : str) :
  represents st v -> represents (process_line st raw) (view_step v raw).
Proof.
  intros H. unfold process_line, view_step.
  destruct (classify raw) as [|[c|]| | | |]; try done.
  - by apply represents_assign_new, represents_flush.
  - by apply represents_flush.
  - by apply represents_store.
  - by apply represents_store.
  - by apply represents_store.
Qed.

(** The parser, freed of the store. *)
Lemma parse_lines_view (lines : list str) :
  parse_lines lines = view_result (fold_left view_step lines view_init).
Proof.
  unfold parse_lines, parse_state, view_result.
  apply represents_list, represents_flush.
  generalize represents_init. generalize pstate_init view_init.
  induction lines as [|raw lines IH]; intros st v H; [done|].
  cbn. by apply IH, represents_step.
Qed.

Lemma view_flush_prepend (d0 : list ledger_item) (v : view) :
  view_flush (prepend d0 v) = prepend d0 (view_flush v).
Proof. unfold view_flush, prepend. cbn. by destruct (ready (current v)). Qed.

Lemma view_list_prepend (d0 : list ledger_item) (v : view) :
  view_list (prepend d0 v) = d0 ++ view_list v.
Proof. unfold view_list, prepend. cbn. by rewrite app_assoc. Qed.

Lemma view_result_prepend (d0 : list ledger_item) (v : view) :
  view_result (prepend d0 v) = d0 ++ view_result v.
Proof. unfold view_result. by rewrite view_flush_prepend, view_list_prepend. Qed.

Lemma view_step_prepend (d0 : list ledger_item) (v : view) (raw : str) :
  view_step (prepend d0 v) raw = prepend d0 (view_step v raw).
Proof.
  unfold view_step. destruct (classify raw) as [|[c|]| | | |]; try done.
  - rewrite view_flush_prepend, view_list_prepend. unfold prepend.
    cbn [settled pending current]. done.
  - apply view_flush_prepend.
Qed.

Lemma fold_view_step_prepend (lines : list str) (d0 : list ledger_item) (v : view) :
  fold_left view_step lines (prepend d0 v) = prepend d0 (fold_left view_step lines v).
Proof.
  revert v. induction lines as [|raw lines IH]; intros v; [done|].
  cbn. by rewrite view_step_prepend, IH.
Qed.

Lemma view_step_marker (v : view) (raw c : str) :
  classify raw = ProcessingLine (Some c) ->
  view_step v raw = prepend (view_result v) (fresh c).
Proof.
  intros H. unfold view_step. rewrite H. unfold prepend, fresh, view_result. cbn.
  by rewrite app_nil_r.
Qed.

Lemma is_marker_classify (raw : str) :
  is_marker raw = true -> exists c, classify raw = ProcessingLine (Some c).
Proof.
  unfold is_marker. destruct (classify raw) as [|[c|]| | | |]; try done. by exists c.
Qed.

(** A well-formed "Processing" line closes what comes before it. *)
Lemma parse_lines_app_marker (pre : list str) (raw : str) (rest : list str) :
  is_marker raw = true ->
  parse_lines (pre ++ raw :: rest) = parse_lines pre ++ parse_lines (raw :: rest).
Proof.
  intros (c & Hc)%is_marker_classify. rewrite !parse_lines_view.
  rewrite fold_left_app. cbn [fold_left].
  rewrite !(view_step_marker _ _ _ Hc), !fold_view_step_prepend, !view_result_prepend.
  done.
Qed.

(** What a run of lines without a "Processing" line does to the view. *)
Lemma fold_view_step_body (body : list str) (v : view) :
  forallb (fun raw => negb (is_processing raw)) body = true ->
  exists c,
    fold_left view_step body v = View (settled v) (pending v) c /\
    (forallb (fun raw => negb (is_doi_line raw)) body = true ->
       doi c = doi (current v)) /\
    (forallb (fun raw => negb (is_abstract_line raw)) body = true ->
       abstract c = abstract (current v)).
Proof.
  revert v. induction body as [|raw body IH]; intros v.
  - intros _. exists (current v). by destruct v.
  - cbn [forallb fold_left]. intros [Hraw Hbody]%andb_prop.
    destruct (IH (view_step v raw) Hbody) as (c & -> & Hd & Ha).
    unfold is_processing, is_doi_line, is_abstract_line, view_step in *.
    destruct (classify raw) as [|[?|]| | | |]; try done; cbn in *;
      exists c; (split; [done|]); split; intros H; try done; auto.
Qed.

Lemma ready_complete (d : ledger_item) : ready d = true -> complete d = true.
Proof.
  unfold ready, complete. intros [[_ ?]%andb_prop ?]%andb_prop.
  by apply andb_true_intro.
Qed.

Lemma view_good_list (v : view) :
  view_good v -> Forall (fun d => complete d = true) (view_list v).
Proof.
  intros [Hs Hp]. unfold view_list. apply Forall_app. split; [done|].
  destruct (pending v) as [|n]; [constructor|]. apply Forall_replicate. by apply Hp.
Qed.

Lemma view_good_flush (v : view) : view_good v -> view_good (view_flush v).
Proof.
  intros [Hs Hp]. unfold view_flush. destruct (ready (current v)) eqn:E; [|done].
  split; [done|]. intros _. by apply ready_complete.
Qed.

Lemma view_good_store (v : view) (f : ledger_item -> ledger_item) :
  (forall d, complete d = true -> complete (f d) = true) ->
  view_good v -> view_good (view_store f v).
Proof.
  intros Hf [Hs Hp]. split; [done|]. cbn [view_store pending current].
  intros Hn. by apply Hf, Hp.
Qed.

Lemma view_good_step (v : view) (raw : str) : view_good v -> view_good (view_step v raw).
Proof.
  intros H. unfold view_step.
  destruct (classify raw) as [|[c|]|x|x|x|]; [done| | | | | |done].
  - split; [|done]. by apply view_good_list, view_good_flush.
  - by apply view_good_flush.
  - apply view_good_store; [|done]. by intros [? ? ? ?].
  - apply view_good_store; [|done]. intros [? ? ? ?]. unfold complete. cbn.
    by intros [_ ->]%andb_prop.
  - apply view_good_store; [|done]. intros [? ? ? ?]. unfold complete. cbn.
    by intros [-> _]%andb_prop.
Qed.

Lemma parse_lines_complete (lines : list str) :
  Forall (fun d => complete d = true) (parse_lines lines).
Proof.
  rewrite parse_lines_view. apply view_good_list, view_good_flush.
  assert (view_good view_init) as H by (split; [constructor|done]).
  revert H. generalize view_init.
  induction lines as [|raw lines IH]; intros v Hv; [done|].
  cbn. by apply IH, view_good_step.
Qed.

(** An entry opened by a well-formed "Processing" line and followed by
    lines among which a DOI line or an abstract line is missing yields
    nothing. *)
Lemma parse_lines_incomplete (raw : str) (body : list str) :
  is_marker raw = true ->
  forallb (fun l => negb (is_processing l)) body = true ->
  forallb (fun l => negb (is_doi_line l)) body = true \/
  forallb (fun l => negb (is_abstract_line l)) body = true ->
  parse_lines (raw :: body) = [].
Proof.
  intros (c & Hc)%is_marker_classify Hbody Hmiss. rewrite parse_lines_view.
  cbn [fold_left]. rewrite (view_step_marker _ _ _ Hc).
  change (view_result view_init) with (@nil ledger_item).
  destruct (fold_view_step_body body (prepend [] (fresh c)) Hbody) as (d & -> & Hd & Ha).
  unfold view_result, view_flush, view_list, ready. cbn in *.
  destruct Hmiss as [H|H]; [rewrite (Hd H)|rewrite (Ha H)]; cbn;
    by rewrite ?andb_false_r.
Qed.

Lemma parse_lines_app_opens (pre post : list str) :
  opens_entry post = true -> parse_lines (pre ++ post) = parse_lines pre ++ parse_lines post.
Proof.
  destruct post as [|raw rest]; cbn [opens_entry].
  - intros _. rewrite app_nil_r. change (parse_lines []) with (@nil ledger_item).
    by rewrite app_nil_r.
  - apply parse_lines_app_marker.
Qed.

(** ** Ledger parser: a "Processing" line the pattern does not match *)

(** C4, evaluated on the code: after a complete entry, a line that starts
    with "Processing [" but lacks the "n/m" counter makes the parser flush
    the entry and keep writing into it; the same dict is appended twice
    and carries the later lines' values. *)
Theorem parse_malformed_marker_aliases :
  let lines := file_lines (py "Processing [1/2] Smith 2020
  Title: First
  DOI: 10.1/a
  Abstract: first abstract
Processing [2] Jones 2021
  Title: Second
  DOI: 10.1/b
  Abstract: second abstract
") in
  let second := LedgerItem (Some (py "Smith 2020")) (Some (py "Second"))
                           (Some (py "10.1/b")) (Some (py "second abstract")) in
  updates (parse_state lines) = [1; 1] /\
  parse_lines lines = [second; second].
Proof. vm_compute. done. Qed.

(** ** Ledger parser: the logging prefix *)

Lemma log_stamp_classes :
  exists ps, classes re_log_stamp = Some ps /\ ps <> [] /\
             Forall (fun q => forall c, q c = true -> dot c = true) ps.
Proof.
  eexists. split; [reflexivity|]. split; [discriminate|].
  repeat constructor; apply class_dot; reflexivity.
Qed.

Lemma log_stamp_shape (p : str) :
  is_log_stamp p = true ->
  p <> [] /\ forallb dot p = true /\
  exists sn', forall k l g,
    rmatch re_log_stamp k (MState [] (p ++ l) g) = k (MState sn' l g).
Proof.
  destruct log_stamp_classes as (ps & Hps & Hne & Hdot).
  unfold is_log_stamp, re_fullmatch. rewrite (rmatch_classes _ _ Hps).
  destruct (run_classes ps [] p) as [[sn' ah']|] eqn:E; [|done].
  destruct ah' as [|? ?]; [|done]. intros _.
  destruct (run_classes_chars _ _ _ _ _ Hdot E) as [Hall Hlen].
  split; [|split].
  - intros ->. by destruct ps.
  - apply forallb_forall. intros c Hc. rewrite Forall_forall in Hall.
    apply Hall. by apply list_elem_of_In.
  - exists sn'. intros k l g. rewrite (rmatch_classes _ _ Hps).
    by rewrite (run_classes_more _ _ _ _ _ E).
Qed.

Lemma re_match_log_prefix (p l : str) :
  is_log_stamp p = true -> forallb dot l = true ->
  exists m, re_match re_log_prefix (p ++ l) = Some m /\ group1 m = l.
Proof.
  intros (_ & _ & sn' & Hp)%log_stamp_shape Hl.
  unfold re_match, match_at, re_log_prefix.
  cbn [seqs rmatch seen]. rewrite Hp. cbn [rmatch seen ahead grp1].
  erewrite star_loop_all; [| exact Hl | cbn; reflexivity].
  eexists. split; [reflexivity|].
  unfold group1, consumed. cbn. rewrite Nat.sub_0_r. by rewrite firstn_all.
Qed.

Lemma line_body_stamped (p raw : str) :
  is_log_stamp p = true -> file_line raw = true ->
  re_match re_log_prefix (str_rstrip [nl] raw) = None ->
  line_body (p ++ raw) = line_body raw.
Proof.
  intros Hp Hraw Hnone. unfold line_body. rewrite Hnone.
  destruct (log_stamp_shape p Hp) as (Hne & Hdot & _).
  unfold file_line in Hraw. unfold str_rstrip in *. rewrite rstrip_by_keep; [|done|].
  - destruct (re_match_log_prefix p _ Hp Hraw) as (m & -> & Hm). exact Hm.
  - apply forallb_forall. intros c Hc. rewrite forallb_forall in Hdot.
    specialize (Hdot c Hc). unfold dot in Hdot. cbn. by rewrite orb_false_r.
Qed.

Lemma parse_lines_ext (f : str -> str) (lines : list str) :
  Forall (fun raw => line_body (f raw) = line_body raw) lines ->
  parse_lines (map f lines) = parse_lines lines.
Proof.
  intros H. unfold parse_lines, parse_state.
  enough (forall st, fold_left process_line (map f lines) st
                     = fold_left process_line lines st) as -> by done.
  induction H as [|raw lines Hraw _ IH]; intros st; [done|]. cbn.
  replace (process_line st (f raw)) with (process_line st raw); [apply IH|].
  unfold process_line, classify. by rewrite Hraw.
Qed.

(** C6, counterexample: lines that carry a logging prefix already are
    parsed to an entry; with a second prefix in front of every line they
    are parsed to nothing, because one prefix only is removed. *)
Lemma parse_lines_stamped_twice :
  is_log_stamp stamp_example = true /\
  parse_lines (map (app stamp_example) stamped_ledger) <> parse_lines stamped_ledger.
Proof. vm_compute. split; [reflexivity|discriminate]. Qed.

(** C6, amended: for lines as a file yields them, none of which begins
    with a logging prefix already, putting one and the same prefix
    "<date> <time>,<ms> - INFO - " in front of every line does not change
    the parsed entries. *)
Theorem parse_lines_stamped (p : str) (lines : list str) :
  is_log_stamp p = true ->
  forallb (fun raw => file_line raw && unstamped raw) lines = true ->
  parse_lines (map (app p) lines) = parse_lines lines.
Proof.
  intros Hp Hlines. apply parse_lines_ext.
  apply Forall_forall. intros raw Hin%list_elem_of_In.
  rewrite forallb_forall in Hlines. apply Hlines in Hin.
  apply andb_prop in Hin as [Hfile Hun]. apply line_body_stamped; [done|done|].
  unfold unstamped in Hun. by destruct (re_match re_log_prefix _).
Qed.

Lemma parse_lines_stamped_witness :
  parse_lines (map (app stamp_example) plain_ledger) = parse_lines plain_ledger.
Proof.
  apply parse_lines_stamped; vm_compute; reflexivity.
Defined.

Lemma re_match_log_prefix_none (c : ascii) (t : str) :
  is_digit c = false -> re_match re_log_prefix (c :: t) = None.
Proof.
  intros H. unfold re_match, match_at, re_log_prefix, re_log_stamp.
  cbn [seqs rep rmatch seen ahead grp1]. by rewrite H.
Qed.

(** A message that does not begin with a digit is read back as it was
    written. *)
Lemma line_body_plain (c : ascii) (t : str) :
  is_digit c = false -> one_line (c :: t) = true ->
  line_body ((c :: t) ++ [nl]) = c :: t.
Proof.
  intros Hc Hm. unfold line_body. rewrite (str_rstrip_line _ Hm).
  by rewrite re_match_log_prefix_none.
Qed.

Lemma line_body_message (w rest : str) :
  match w with c :: _ => is_digit c = false | [] => False end ->
  one_line (w ++ rest) = true ->
  line_body ((w ++ rest) ++ [nl]) = w ++ rest.
Proof. destruct w as [|c w]; [done|]. apply line_body_plain. Qed.

Lemma log_stamp_classes_cr :
  exists ps, classes re_log_stamp = Some ps /\
             Forall (fun q => forall c, q c = true ->
                        negb (char_eqb c nl) && negb (char_eqb c cr) = true) ps.
Proof.
  eexists. split; [reflexivity|].
  assert (forall q : ascii -> bool, q nl = false -> q cr = false ->
            forall c, q c = true -> negb (char_eqb c nl) && negb (char_eqb c cr) = true)
    as Hq.
  { intros q Hnl Hcr c Hc. destruct (char_eqb c nl) eqn:E1.
    { apply char_eqb_eq in E1. congruence. }
    destruct (char_eqb c cr) eqn:E2; [|done].
    apply char_eqb_eq in E2. congruence. }
  repeat constructor; apply Hq; reflexivity.
Qed.

Lemma log_stamp_one_line (p : str) : is_log_stamp p = true -> one_line p = true.
Proof.
  destruct log_stamp_classes_cr as (ps & Hps & Hq).
  unfold is_log_stamp, re_fullmatch. rewrite (rmatch_classes _ _ Hps).
  destruct (run_classes ps [] p) as [[sn' ah']|] eqn:E; [|done].
  destruct ah' as [|? ?]; [|done]. intros _.
  destruct (run_classes_chars _ _ _ _ _ Hq E) as [Hall _].
  unfold one_line. apply forallb_forall. intros c Hc. rewrite Forall_forall in Hall.
  apply Hall. by apply list_elem_of_In.
Qed.

Lemma message_line_ok (w rest : str) :
  match w with c :: _ => is_digit c = false | [] => False end ->
  one_line (w ++ rest) = true ->
  file_line (with_nl (w ++ rest)) && unstamped (with_nl (w ++ rest)) = true.
Proof.
  destruct w as [|c w]; [done|]. intros Hc Hl.
  unfold file_line, unstamped, with_nl. rewrite (str_rstrip_line _ Hl).
  cbn [app]. rewrite (re_match_log_prefix_none _ _ Hc), andb_true_r.
  by apply one_line_dot.
Qed.

(** ** Ledger lines as written and as read back *)

Lemma universal_newlines_line (m rest : str) :
  one_line m = true ->
  universal_newlines (m ++ nl :: rest) = m ++ nl :: universal_newlines rest.
Proof.
  induction m as [|c m IH]; [done|]. cbn [one_line forallb app universal_newlines].
  intros [[_ Hc]%andb_prop Hm]%andb_prop. apply negb_true_iff in Hc.
  rewrite Hc. by rewrite IH.
Qed.

Lemma split_lines_line (m rest : str) :
  one_line m = true -> split_lines (m ++ nl :: rest) = (m ++ [nl]) :: split_lines rest.
Proof.
  induction m as [|c m IH]; [done|]. cbn [one_line forallb app split_lines].
  intros [[Hc _]%andb_prop Hm]%andb_prop. apply negb_true_iff in Hc.
  rewrite Hc. by rewrite IH.
Qed.

Lemma file_lines_concat (messages : list str) :
  forallb one_line messages = true ->
  file_lines (concat (map (fun m => m ++ [nl]) messages))
  = map (fun m => m ++ [nl]) messages.
Proof.
  unfold file_lines. induction messages as [|m ms IH]; [done|].
  cbn [forallb map concat]. intros [Hm Hms]%andb_prop.
  rewrite <- app_assoc. cbn [app].
  rewrite universal_newlines_line, split_lines_line by done.
  by rewrite IH.
Qed.

Lemma file_lines_log_text (messages : list str) :
  forallb one_line messages = true ->
  file_lines (log_text [] messages) = map (fun m => m ++ [nl]) messages.
Proof. apply file_lines_concat. Qed.

(** The "Processing" line of an entry is matched by the pattern, and
    group 1 is the citation. *)
Lemma re_search_processing (i n : nat) (cit : str) :
  nonempty cit = true -> one_line cit = true ->
  exists m,
    re_search re_processing
      (py "Processing [" ++ dec i ++ py "/" ++ dec n ++ py "] " ++ cit) = Some m
    /\ group1 m = cit.
Proof.
  intros Hne Hcit. destruct cit as [|c0 ct]; [done|].
  apply one_line_dot in Hcit.
  destruct (dec_digits i) as (di & dsi & -> & Hi).
  destruct (dec_digits n) as (dn & dsn & -> & Hn).
  assert (exists e, rmatch re_processing Some
            (MState [] (py "Processing [" ++ (di :: dsi) ++ py "/" ++ (dn :: dsn)
                          ++ py "] " ++ c0 :: ct) None) = Some e
                    /\ grp1 e = Some (c0 :: ct)) as (e & He & Hg).
  { eexists. split.
    - unfold re_processing. cbn [seqs rmatch]. rewrite rmatch_lit.
      cbn [app]. apply rmatch_plus_run; [exact Hi|reflexivity|].
      cbn [rmatch]. rewrite rmatch_lit.
      cbn [app]. apply rmatch_plus_run; [exact Hn|reflexivity|].
      cbn [rmatch]. rewrite rmatch_lit.
      apply rmatch_plus_all; [exact Hcit|].
      cbn [rmatch seen ahead grp1]. reflexivity.
    - cbn. by rewrite firstn_all. }
  unfold re_search. eexists. split.
  - apply search_from_here. unfold match_at. rewrite He. reflexivity.
  - unfold group1. cbn [m_to]. by rewrite Hg.
Qed.

Lemma classify_unfold (raw : str) : classify raw = classify_line (line_body raw).
Proof. reflexivity. Qed.

(** The chain on a line that begins with a blank. *)
Lemma classify_line_indented (t : str) :
  classify_line (blank :: t) =
  let s := str_strip (blank :: t) in
  if startswith (py "Title:") s then TitleLine (str_strip (drop 6 s))
  else if startswith (py "DOI:") s then DoiLine (str_strip (drop 4 s))
  else if startswith (py "Abstract:") s then AbstractLine (str_strip (drop 9 s))
  else OtherLine.
Proof. reflexivity. Qed.

Lemma classify_processing (i n : nat) (cit : str) :
  nonempty cit = true -> one_line cit = true ->
  classify ((py "Processing [" ++ dec i ++ py "/" ++ dec n ++ py "] " ++ cit) ++ [nl])
  = ProcessingLine (Some cit).
Proof.
  intros Hne Hcit. rewrite classify_unfold, line_body_message; [|reflexivity|].
  - destruct (re_search_processing i n cit Hne Hcit) as (m & Hm & <-).
    unfold classify_line. rewrite startswith_app, Hm. reflexivity.
  - rewrite !one_line_app, !one_line_dec, Hcit. reflexivity.
Qed.

Lemma classify_title (t : str) :
  one_line t = true -> trimmed t = true ->
  classify ((py "  Title: " ++ t) ++ [nl]) = TitleLine t.
Proof.
  intros Hl Ht. rewrite classify_unfold, line_body_message; [|reflexivity|].
  - change (py "  Title: " ++ t) with (blank :: blank :: py "Title:" ++ blank :: t).
    rewrite classify_line_indented. cbn zeta.
    rewrite (str_strip_field (py "Title:") t eq_refl eq_refl Ht).
    rewrite startswith_app. change 6 with (length (py "Title:")).
    by rewrite drop_app_length, str_strip_value.
  - rewrite one_line_app, Hl. reflexivity.
Qed.

Lemma classify_doi (t : str) :
  one_line t = true -> trimmed t = true ->
  classify ((py "  DOI: " ++ t) ++ [nl]) = DoiLine t.
Proof.
  intros Hl Ht. rewrite classify_unfold, line_body_message; [|reflexivity|].
  - change (py "  DOI: " ++ t) with (blank :: blank :: py "DOI:" ++ blank :: t).
    rewrite classify_line_indented. cbn zeta.
    rewrite (str_strip_field (py "DOI:") t eq_refl eq_refl Ht).
    change (startswith (py "Title:") (py "DOI:" ++ _)) with false. cbn iota.
    rewrite startswith_app. change 4 with (length (py "DOI:")).
    by rewrite drop_app_length, str_strip_value.
  - rewrite one_line_app, Hl. reflexivity.
Qed.

Lemma classify_abstract (t : str) :
  one_line t = true -> trimmed t = true ->
  classify ((py "  Abstract: " ++ t) ++ [nl]) = AbstractLine t.
Proof.
  intros Hl Ht. rewrite classify_unfold, line_body_message; [|reflexivity|].
  - change (py "  Abstract: " ++ t) with (blank :: blank :: py "Abstract:" ++ blank :: t).
    rewrite classify_line_indented. cbn zeta.
    rewrite (str_strip_field (py "Abstract:") t eq_refl eq_refl Ht).
    change (startswith (py "Title:") (py "Abstract:" ++ _)) with false.
    change (startswith (py "DOI:") (py "Abstract:" ++ _)) with false. cbn iota.
    rewrite startswith_app. change 9 with (length (py "Abstract:")).
    by rewrite drop_app_length, str_strip_value.
  - rewrite one_line_app, Hl. reflexivity.
Qed.

Lemma classify_dry_run (cit abs : str) :
  one_line cit = true ->
  classify (nth 0 (log_dry_run cit abs) [] ++ [nl]) = OtherLine.
Proof.
  intros Hcit. cbn [log_dry_run nth].
  rewrite classify_unfold, line_body_message; [|reflexivity|].
  - change (py "  [DRY RUN] Would update abstract for " ++ ?x)
      with (blank :: blank :: "["%char :: py "DRY RUN] Would update abstract for " ++ x).
    rewrite classify_line_indented. cbn zeta.
    rewrite !str_strip_blank, str_strip_head by reflexivity. reflexivity.
  - rewrite !one_line_app, Hcit, one_line_dec. reflexivity.
Qed.

Lemma portable_fields (e : entry) :
  portable e = true ->
  nonempty (e_citation e) = true /\ one_line (e_citation e) = true /\
  one_line (e_title e) = true /\ trimmed (e_title e) = true /\
  one_line (e_doi e) = true /\ trimmed (e_doi e) = true /\
  one_line (e_abstract e) = true /\ trimmed (e_abstract e) = true.
Proof. unfold portable. rewrite !andb_true_iff. tauto. Qed.

Lemma entry_messages_lines (i n : nat) (e : entry) :
  exists l1 l2 l3 l4 l5,
    map with_nl (entry_messages i n e) = [l1; l2; l3; l4; l5] /\
    (portable e = true ->
     classify l1 = ProcessingLine (Some (e_citation e)) /\
     classify l2 = TitleLine (e_title e) /\
     classify l3 = DoiLine (e_doi e) /\
     classify l4 = OtherLine /\
     classify l5 = AbstractLine (e_abstract e)).
Proof.
  do 5 eexists. split; [reflexivity|].
  intros (Hne & Hc & Ht & Ht' & Hd & Hd' & Ha & Ha')%portable_fields.
  split; [by apply classify_processing|].
  split; [by apply classify_title|].
  split; [by apply classify_doi|].
  split; [|by apply classify_abstract].
  by apply (classify_dry_run (e_citation e) (e_abstract e)).
Qed.

Lemma parse_lines_entry (i n : nat) (e : entry) :
  portable e = true ->
  parse_lines (map with_nl (entry_messages i n e)) = [to_item e].
Proof.
  intros He. destruct (entry_messages_lines i n e) as (l1 & l2 & l3 & l4 & l5 & -> & H).
  destruct (H He) as (H1 & H2 & H3 & H4 & H5).
  rewrite parse_lines_view. cbn [fold_left]. unfold view_step.
  rewrite H1, H2, H3, H4, H5. reflexivity.
Qed.

Lemma entry_messages_marker (i n : nat) (e : entry) :
  portable e = true ->
  exists raw rest, map with_nl (entry_messages i n e) = raw :: rest /\
                   is_marker raw = true /\
                   forallb (fun l => negb (is_processing l)) rest = true.
Proof.
  intros He. destruct (entry_messages_lines i n e) as (l1 & l2 & l3 & l4 & l5 & -> & H).
  destruct (H He) as (H1 & H2 & H3 & H4 & H5).
  exists l1, [l2; l3; l4; l5]. split; [done|].
  unfold is_marker, is_processing. cbn [forallb]. by rewrite H1, H2, H3, H4, H5.
Qed.

Lemma opens_entry_messages (i n : nat) (es : list entry) (tail : list str) :
  forallb portable es = true -> opens_entry tail = true ->
  opens_entry (map with_nl (messages_from i n es) ++ tail) = true.
Proof.
  destruct es as [|e es]; [done|]. cbn [forallb messages_from].
  intros [He _]%andb_prop _. rewrite map_app.
  destruct (entry_messages_marker i n e He) as (raw & rest & -> & Hraw & _).
  exact Hraw.
Qed.

(** Reading back the lines of a preview run. *)
Lemma parse_lines_messages (es : list entry) (i n : nat) (tail : list str) :
  forallb portable es = true -> opens_entry tail = true ->
  parse_lines (map with_nl (messages_from i n es) ++ tail)
  = map to_item es ++ parse_lines tail.
Proof.
  intros Hes Htail. revert i Hes. induction es as [|e es IH]; intros i; [done|].
  cbn [forallb messages_from map]. intros [He Hes]%andb_prop.
  rewrite map_app, <- app_assoc.
  rewrite parse_lines_app_opens by (by apply opens_entry_messages).
  by rewrite parse_lines_entry, IH.
Qed.

Lemma count_processing_messages (es : list entry) (i n : nat) :
  forallb portable es = true ->
  count_processing (map with_nl (messages_from i n es)) = length es.
Proof.
  unfold count_processing. revert i. induction es as [|e es IH]; intros i; [done|].
  cbn [forallb messages_from]. intros [He Hes]%andb_prop.
  rewrite map_app, List.filter_app, length_app, (IH _ Hes).
  destruct (entry_messages_lines i n e) as (l1 & l2 & l3 & l4 & l5 & -> & H).
  destruct (H He) as (H1 & H2 & H3 & H4 & H5).
  cbn [List.filter]. unfold is_processing. by rewrite H1, H2, H3, H4, H5.
Qed.

Lemma one_line_entry_messages (i n : nat) (e : entry) :
  portable e = true -> forallb one_line (entry_messages i n e) = true.
Proof.
  intros (Hne & Hc & Ht & Ht' & Hd & Hd' & Ha & Ha')%portable_fields.
  unfold entry_messages, log_processing, log_dry_run. cbn [app forallb].
  rewrite !one_line_app, !one_line_dec, Hc, Ht, Hd, Ha. reflexivity.
Qed.

Lemma one_line_messages (es : list entry) (i n : nat) :
  forallb portable es = true -> forallb one_line (messages_from i n es) = true.
Proof.
  revert i. induction es as [|e es IH]; intros i; [done|].
  cbn [forallb messages_from]. intros [He Hes]%andb_prop.
  by rewrite forallb_app, one_line_entry_messages, IH.
Qed.

(** C3, counterexample: a title that begins with a blank has no newline
    in it, and is read back without the blank. *)
Lemma ledger_round_trip_padded_title :
  one_line (e_title padded_entry) = true /\
  parse_lines (file_lines (log_text [] (ledger_messages [padded_entry])))
  <> map to_item [padded_entry].
Proof. vm_compute. split; [reflexivity|discriminate]. Qed.

Lemma file_lines_log_text_stamped (stamp : str) (messages : list str) :
  one_line stamp = true -> forallb one_line messages = true ->
  file_lines (log_text stamp messages) = map (app stamp) (map with_nl messages).
Proof.
  intros Hs Hm. unfold log_text.
  replace (map (fun m => stamp ++ m ++ [nl]) messages)
    with (map (fun m => m ++ [nl]) (map (app stamp) messages)).
  - rewrite file_lines_concat.
    + rewrite !map_map. apply map_ext. intros m. unfold with_nl.
      by rewrite app_assoc.
    + rewrite forallb_forall in Hm. apply forallb_forall.
      intros x (m & <- & Hin)%in_map_iff. rewrite one_line_app, Hs. by apply Hm.
  - rewrite map_map. apply map_ext. intros m. by rewrite app_assoc.
Qed.

Lemma messages_unstamped (es : list entry) (i n : nat) :
  forallb portable es = true ->
  forallb (fun raw => file_line raw && unstamped raw)
          (map with_nl (messages_from i n es)) = true.
Proof.
  revert i. induction es as [|e es IH]; intros i; [done|].
  cbn [forallb messages_from]. intros [He Hes]%andb_prop.
  rewrite map_app, forallb_app, (IH _ Hes), andb_true_r.
  pose proof (one_line_entry_messages i n e He) as Hl.
  unfold entry_messages, log_processing, log_dry_run in *.
  cbn [app map forallb] in *.
  repeat (apply andb_prop in Hl as [? Hl]).
  rewrite !message_line_ok; done.
Qed.

(** C3, amended: for N >= 0 entries with a non-empty citation, with no
    line end (newline or carriage return) in any field, and with title,
    DOI and abstract free of leading and trailing whitespace, writing the
    entries as a preview run logs them and parsing the text gives back
    the N entries, field by field; the parser function returns them, and
    [None] when N = 0.  The same holds for the log file itself, where
    every line is behind a prefix "<date> <time>,<ms> - INFO - ". *)
Theorem ledger_round_trip (es : list entry) :
  forallb portable es = true ->
  parse_lines (file_lines (log_text [] (ledger_messages es))) = map to_item es /\
  parse_abstract_updates_file (Content (log_text [] (ledger_messages es)))
  = match es with [] => None | _ => Some (map to_item es) end /\
  (forall stamp, is_log_stamp stamp = true ->
     parse_lines (file_lines (log_text stamp (ledger_messages es))) = map to_item es).
Proof.
  intros Hes.
  assert (parse_lines (map with_nl (ledger_messages es)) = map to_item es) as H0.
  { pose proof (parse_lines_messages es 1 (length es) [] Hes eq_refl) as H.
    change (parse_lines []) with (@nil ledger_item) in H.
    rewrite !app_nil_r in H. exact H. }
  assert (parse_lines (file_lines (log_text [] (ledger_messages es))) = map to_item es)
    as H.
  { unfold ledger_messages. rewrite file_lines_log_text by (by apply one_line_messages).
    exact H0. }
  split; [exact H|]. split.
  - unfold parse_abstract_updates_file. rewrite H. by destruct es.
  - intros stamp Hstamp. unfold ledger_messages.
    rewrite file_lines_log_text_stamped;
      [|by apply log_stamp_one_line|by apply one_line_messages].
    rewrite parse_lines_stamped; [exact H0|exact Hstamp|by apply messages_unstamped].
Qed.

Lemma ledger_round_trip_witness :
  parse_lines (file_lines (log_text [] (ledger_messages two_entries)))
  = map to_item two_entries.
Proof.
  refine (proj1 (ledger_round_trip two_entries _)). vm_compute. reflexivity.
Defined.

(** ** Incomplete entries *)

(** C5, counterexample: two "Processing" lines, each followed by a title
    only; the last one is followed by its title and the end of input, and
    the result has no entry, not one. *)
Lemma parse_two_dangling :
  count_processing two_dangling = 2 /\
  length (parse_lines two_dangling) <> count_processing two_dangling - 1.
Proof. vm_compute. split; [reflexivity|discriminate]. Qed.

(** C5, amended: every parsed entry has a DOI and an abstract.  An entry
    opened by a well-formed "Processing" line (counter "n/m" and a
    citation) that has no DOI line or no abstract line before the next
    well-formed "Processing" line or the end of input adds nothing to the
    result.  When the input is N complete entries, as a preview run logs
    them, followed by a "Processing" line and a title line only, the
    result is the N entries: one fewer than the "Processing" lines. *)
Theorem parse_drops_incomplete :
  (forall lines, Forall (fun d => complete d = true) (parse_lines lines)) /\
  (forall pre raw body post,
     is_marker raw = true ->
     forallb (fun l => negb (is_processing l)) body = true ->
     forallb (fun l => negb (is_doi_line l)) body = true \/
     forallb (fun l => negb (is_abstract_line l)) body = true ->
     opens_entry post = true ->
     parse_lines (pre ++ raw :: body ++ post) = parse_lines pre ++ parse_lines post) /\
  (forall es c t,
     forallb portable es = true ->
     nonempty c = true -> one_line c = true ->
     one_line t = true -> trimmed t = true ->
     let n := S (length es) in
     let lines := file_lines (log_text [] (messages_from 1 n es
                                            ++ dangling_messages n n c t)) in
     parse_lines lines = map to_item es /\
     count_processing lines = S (length es) /\
     length (parse_lines lines) = count_processing lines - 1).
Proof.
  split; [apply parse_lines_complete|]. split.
  - intros pre raw body post Hraw Hbody Hmiss Hpost.
    rewrite parse_lines_app_marker by done.
    change (raw :: body ++ post) with ((raw :: body) ++ post).
    rewrite parse_lines_app_opens by done.
    by rewrite parse_lines_incomplete.
  - intros es c t Hes Hne Hc Ht Ht' n lines.
    assert (classify (with_nl (py "Processing [" ++ dec n ++ py "/" ++ dec n
                                 ++ py "] " ++ c)) = ProcessingLine (Some c)) as H1
      by (by apply classify_processing).
    assert (classify (with_nl (py "  Title: " ++ t)) = TitleLine t) as H2
      by (by apply classify_title).
    assert (lines = map with_nl (messages_from 1 n es)
                    ++ [with_nl (py "Processing [" ++ dec n ++ py "/" ++ dec n
                                   ++ py "] " ++ c);
                        with_nl (py "  Title: " ++ t)]) as ->.
    { subst lines. rewrite file_lines_log_text; [by rewrite map_app|].
      rewrite forallb_app, one_line_messages by done.
      cbn [dangling_messages log_processing take forallb].
      rewrite !one_line_app, !one_line_dec, Hc, Ht. reflexivity. }
    assert (parse_lines (map with_nl (messages_from 1 n es)
                    ++ [with_nl (py "Processing [" ++ dec n ++ py "/" ++ dec n
                                   ++ py "] " ++ c);
                        with_nl (py "  Title: " ++ t)]) = map to_item es) as Hparse.
    { rewrite parse_lines_messages; [|done|].
      - rewrite parse_lines_incomplete; [by rewrite app_nil_r| | |].
        + unfold is_marker. by rewrite H1.
        + cbn [forallb]. unfold is_processing. by rewrite H2.
        + left. cbn [forallb]. unfold is_doi_line. by rewrite H2.
      - cbn [opens_entry]. unfold is_marker. by rewrite H1. }
    assert (count_processing (map with_nl (messages_from 1 n es)
                    ++ [with_nl (py "Processing [" ++ dec n ++ py "/" ++ dec n
                                   ++ py "] " ++ c);
                        with_nl (py "  Title: " ++ t)]) = S (length es)) as Hcount.
    { unfold count_processing. rewrite List.filter_app, length_app.
      fold (count_processing (map with_nl (messages_from 1 n es))).
      rewrite count_processing_messages by done.
      cbn [List.filter]. unfold is_processing. rewrite H1, H2. cbn. lia. }
    split; [exact Hparse|]. split; [exact Hcount|].
    rewrite Hparse, Hcount, length_map. lia.
Qed.

Lemma parse_drops_incomplete_witness :
  let lines := file_lines (log_text [] (messages_from 1 3 two_entries
                 ++ dangling_messages 3 3 (py "Roe 1999") (py "Unfinished"))) in
  parse_lines lines = map to_item two_entries /\
  count_processing lines = 3 /\
  length (parse_lines lines) = count_processing lines - 1.
Proof.
  destruct parse_drops_incomplete as (_ & _ & H).
  apply (H two_entries (py "Roe 1999") (py "Unfinished")); vm_compute; reflexivity.
Defined.

(** ** Reconciliation *)

Lemma build_doi_lookup_snoc (items : list item) (it : item) :
  build_doi_lookup (items ++ [it]) = add_item (build_doi_lookup items) it.
Proof.
  unfold build_doi_lookup. rewrite fold_left_app. cbn [fold_left].
  unfold add_item. by destruct (str_strip (get (DOI (data it)) [])).
Qed.

Lemma add_item_lookup (m : gmap str item) (it : item) (k : str) :
  add_item m it !! k = if bool_decide (k ∈ doi_keys it) then Some it else m !! k.
Proof.
  unfold add_item, doi_keys.
  destruct (str_strip (get (DOI (data it)) [])) as [|c d].
  { case_bool_decide as Hk; [by apply elem_of_nil in Hk|done]. }
  case_bool_decide as Hk; rewrite list_elem_of_In in Hk.
  - destruct Hk as [<-|[<-|[]]].
    + destruct (decide (c :: d = clean_doi (c :: d))) as [<-|Hne].
      * by rewrite lookup_insert_eq.
      * rewrite lookup_insert_ne by exact Hne. by rewrite lookup_insert_eq.
    + by rewrite lookup_insert_eq.
  - rewrite !lookup_insert_ne; [done| |]; intros <-; apply Hk.
    + left. reflexivity.
    + right. left. reflexivity.
Qed.

Lemma build_doi_lookup_sound (items : list item) (k : str) (it : item) :
  build_doi_lookup items !! k = Some it -> In it items /\ In k (doi_keys it).
Proof.
  revert it. induction items as [|x items IH] using rev_ind; intros it.
  - unfold build_doi_lookup. cbn. by rewrite lookup_empty.
  - rewrite build_doi_lookup_snoc, add_item_lookup, in_app_iff.
    case_bool_decide as Hk.
    + intros [= <-]. split; [right; by left|by apply list_elem_of_In].
    + intros [? ?]%IH. tauto.
Qed.

Lemma build_doi_lookup_complete (items : list item) (k : str) (it : item) :
  In it items -> In k (doi_keys it) ->
  exists it', build_doi_lookup items !! k = Some it' /\ In k (doi_keys it').
Proof.
  induction items as [|x items IH] using rev_ind; [done|].
  rewrite build_doi_lookup_snoc, add_item_lookup, in_app_iff.
  intros Hin Hk. case_bool_decide as Hx; rewrite list_elem_of_In in Hx; [by exists x|].
  destruct Hin as [Hin|[<-|[]]]; [by apply IH|done].
Qed.

Lemma find_by_title_find (items : list item) (title : str) :
  find_by_title items title = List.find (same_title title) items.
Proof.
  induction items as [|x items IH]; [done|]. cbn [find_by_title List.find].
  unfold same_title at 1. by rewrite IH.
Qed.

(** C7: the lookup map files every record with a non-empty DOI under its
    stripped DOI and under the cleaned DOI, and nothing else; an entry is
    looked up by its cleaned DOI first, by its DOI as written second, and
    failing both is given the first record, in library order, whose title
    equals the entry's once both are lower-cased and stripped; when all
    three fail the result is [None], a value and not an exception.  A
    record filed under "10.1/X" is found by the entry DOI
    "https://doi.org/10.1/X.", and an entry with a wrong DOI is found by
    its title. *)
Theorem find_matching_item_order (all_items : list item) (update : ledger_item) :
  let doi_to_item := build_doi_lookup all_items in
  let entry_doi := get (doi update) [] in
  let entry_title := get (title update) (py "Unknown") in
  let found := (find_matching_item all_items doi_to_item update).2 in
  (forall k it, doi_to_item !! k = Some it -> In it all_items /\ In k (doi_keys it)) /\
  (forall it k, In it all_items -> In k (doi_keys it) ->
     exists it', doi_to_item !! k = Some it' /\ In k (doi_keys it')) /\
  (forall it, doi_to_item !! clean_doi entry_doi = Some it -> found = Some it) /\
  (forall it, doi_to_item !! clean_doi entry_doi = None ->
     doi_to_item !! entry_doi = Some it -> found = Some it) /\
  (doi_to_item !! clean_doi entry_doi = None -> doi_to_item !! entry_doi = None ->
     found = List.find (same_title entry_title) all_items) /\
  (found = None <->
     doi_to_item !! clean_doi entry_doi = None /\ doi_to_item !! entry_doi = None /\
     List.find (same_title entry_title) all_items = None) /\
  (forall it, In it all_items -> In (py "10.1/X") (doi_keys it) ->
     entry_doi = py "https://doi.org/10.1/X." ->
     exists it', found = Some it' /\ In (py "10.1/X") (doi_keys it')) /\
  (find_matching_item [record_y; record_x] (build_doi_lookup [record_y; record_x])
     (LedgerItem (Some (py "Doe 2020")) (Some (py "  LEDGERS and libraries "))
                 (Some (py "10.9/wrong")) (Some (py "text")))).2 = Some record_x.
Proof.
  intros doi_to_item entry_doi entry_title found.
  assert (found = match doi_to_item !! clean_doi entry_doi orelse doi_to_item !! entry_doi with
                  | Some it => Some it
                  | None => List.find (same_title entry_title) all_items
                  end) as Hfound.
  { subst found entry_doi entry_title. unfold find_matching_item.
    destruct update as [c t d a]. cbn [doi title].
    rewrite find_by_title_find.
    destruct (doi_to_item !! clean_doi (get d [])); [reflexivity|].
    destruct (doi_to_item !! get d []); [reflexivity|].
    by destruct (List.find _ all_items). }
  clearbody found. subst found.
  split; [apply build_doi_lookup_sound|].
  split; [intros it k; apply build_doi_lookup_complete|].
  split; [by intros it ->|].
  split; [by intros it -> ->|].
  split; [by intros -> ->|].
  split.
  - destruct (doi_to_item !! clean_doi entry_doi); [by split; [|intros [? _]]|].
    destruct (doi_to_item !! entry_doi); [by split; [|intros [_ [? _]]]|].
    tauto.
  - split.
    + intros it Hin Hk Hd.
      destruct (build_doi_lookup_complete _ _ _ Hin Hk) as (it' & Hit' & Hk').
      exists it'. split; [|exact Hk'].
      assert (clean_doi entry_doi = py "10.1/X") as -> by (rewrite Hd; vm_compute; reflexivity).
      fold doi_to_item in Hit'. by rewrite Hit'.
    + vm_compute. reflexivity.
Qed.

Lemma find_matching_item_order_witness :
  exists it',
    (find_matching_item [record_y; record_x] (build_doi_lookup [record_y; record_x])
       (LedgerItem (Some (py "Doe 2020")) (Some (py "No such title"))
                   (Some (py "https://doi.org/10.1/X.")) (Some (py "text")))).2
    = Some it' /\ In (py "10.1/X") (doi_keys it').
Proof.
  destruct (find_matching_item_order [record_y; record_x]
              (LedgerItem (Some (py "Doe 2020")) (Some (py "No such title"))
                 (Some (py "https://doi.org/10.1/X.")) (Some (py "text"))))
    as (_ & _ & _ & _ & _ & _ & H & _).
  apply (H record_x).
  - right. left. reflexivity.
  - vm_compute. right. left. reflexivity.
  - reflexivity.
Defined.

(** ** Update applier *)

Lemma log_all_frame {library} (ms : list str) (w : @world library) :
  zot (log_all ms w) = zot w /\ write_calls (log_all ms w) = write_calls w /\
  stats (log_all ms w) = stats w /\ verbose (log_all ms w) = verbose w.
Proof.
  revert w. induction ms as [|m ms IH]; intros w; [done|].
  change (log_all (m :: ms) w) with (log_all ms (log m w)).
  destruct (IH (log m w)) as (-> & -> & -> & ->).
  unfold log. destruct (verbose w) eqn:E; cbn; rewrite ?E; done.
Qed.

(** C8: in preview mode the applier makes no write call, leaves the
    library and the record as they are, adds one to [abstracts_updated]
    and to no other counter, and returns [True]. *)
Theorem update_zotero_abstract_dry_run {library}
    (update_item : library -> payload -> str + library)
    (item_key : str) (item_version : nat) (abstract : str)
    (item_data : zotero_data) (w : world) :
  let r := update_zotero_abstract update_item item_key item_version abstract
             item_data true w in
  r.2 = true /\ r.1.2 = item_data /\
  zot r.1.1 = zot w /\ write_calls r.1.1 = write_calls w /\
  abstracts_updated (stats r.1.1) = S (abstracts_updated (stats w)) /\
  errors (stats r.1.1) = errors (stats w) /\
  total_checked (stats r.1.1) = total_checked (stats w) /\
  missing_abstract (stats r.1.1) = missing_abstract (stats w) /\
  missing_abstract_with_doi (stats r.1.1) = missing_abstract_with_doi (stats w) /\
  abstracts_found (stats r.1.1) = abstracts_found (stats w).
Proof.
  cbn -[log_all log_dry_run format_citation].
  destruct (log_all_frame (log_dry_run (format_citation item_data) abstract) w)
    as (-> & -> & -> & _).
  done.
Qed.

(** ** Abstract segmenter: validation *)

Lemma find_abstract_from_some (ps : list regex) (text a : str) :
  find_abstract_from ps text = Some a ->
  exists earlier p later m,
    ps = earlier ++ p :: later /\ Forall (rejected text) earlier /\
    re_search p text = Some m /\ a = candidate text m /\ valid_length a = true.
Proof.
  induction ps as [|p ps IH]; [done|]. cbn [find_abstract_from].
  destruct (re_search p text) as [m|] eqn:Em.
  - fold (valid_length (candidate text m)).
    destruct (valid_length (candidate text m)) eqn:Ev.
    + intros [= <-]. exists [], p, ps, m. by repeat split.
    + intros (earlier & q & later & m' & -> & Hrej & ?)%IH.
      exists (p :: earlier), q, later, m'. split; [done|]. split; [|done].
      constructor; [|done]. unfold rejected. by rewrite Em.
  - intros (earlier & q & later & m' & -> & Hrej & ?)%IH.
    exists (p :: earlier), q, later, m'. split; [done|]. split; [|done].
    constructor; [|done]. unfold rejected. by rewrite Em.
Qed.





(** ** Abstract segmenter: cleaning *)

Lemma clean_abstract_spaces (text : str) (c : ascii) :
  In c (_clean_abstract text) -> is_space c = true -> c = blank.
Proof.
  unfold _clean_abstract. intros H%str_strip_In Hc.
  apply re_sub_In in H as [[]|H]. apply re_sub_In in H as [[]|H].
  unfold re_sub in H.
  apply (sub_go_chars re_spaces (py " ") (fun c => is_space c = false)) in H.
  - destruct H as [[<-|[]]|[_ H]]; [done|congruence].
  - intros sn a t. destruct (is_space a) eqn:Ea; [right|by left].
    unfold re_spaces. cbn [rmatch ahead seen grp1]. rewrite Ea.
    destruct (star_loop_Some is_space None t (a :: sn)) as (e & -> & Hle).
    exists e, (length t - length (ahead e)). split; [done|].
    unfold consumed. cbn [ahead length]. lia.
Qed.

Lemma sub_spaces_head (sn ah : str) :
  nonspace_head ah -> nonspace_head (sub_go re_spaces [blank] 0 sn ah).
Proof.
  rewrite sub_go_here. cbn zeta. destruct ah as [|c t]; [done|].
  cbn [nonspace_head]. intros Hc. unfold re_spaces. cbn [rmatch ahead].
  by rewrite Hc.
Qed.

Lemma single_spaced_blank (s : str) :
  nonspace_head s -> single_spaced s = true -> single_spaced (blank :: s) = true.
Proof.
  intros Hh Hs. cbn [single_spaced]. change (is_space blank) with true. cbn iota.
  rewrite Hs. destruct s as [|c t]; [done|]. cbn in Hh. by rewrite Hh.
Qed.

Lemma sub_spaces_single_spaced (n : nat) :
  forall ah sn, length ah <= n -> single_spaced (sub_go re_spaces [blank] 0 sn ah) = true.
Proof.
  induction n as [|n IH]; intros ah sn Hlen.
  - destruct ah; [done|cbn in Hlen; lia].
  - destruct ah as [|c t]; [done|]. cbn [length] in Hlen.
    rewrite sub_go_here. cbn zeta. unfold re_spaces at 1 2. cbn [rmatch ahead seen grp1].
    destruct (is_space c) eqn:Ec.
    + destruct (star_loop_greedy is_space None t (c :: sn)) as (sn' & ->).
      unfold consumed. cbn [ahead length].
      pose proof (dropwhile_length is_space t) as Hd.
      replace (S (length t) - length (dropwhile is_space t))
        with (S (length t - length (dropwhile is_space t))) by lia.
      cbn [app].
      destruct (sub_go_skip re_spaces [blank] (length t - length (dropwhile is_space t))
                  t (c :: sn)) as (sn'' & [->|[Hlt _]]); [|lia].
      rewrite drop_dropwhile. apply single_spaced_blank.
      * apply sub_spaces_head. unfold nonspace_head.
        destruct (dropwhile is_space t) as [|a t'] eqn:E; [done|].
        by eapply dropwhile_head.
      * apply IH. lia.
    + cbn [single_spaced]. rewrite Ec. apply IH. lia.
Qed.

Lemma single_spaced_app (a b : str) :
  single_spaced (a ++ b) = true -> single_spaced a = true /\ single_spaced b = true.
Proof.
  induction a as [|c a IH]; [done|]. cbn [app single_spaced].
  intros [Hc Hab]%andb_prop. destruct (IH Hab) as [Ha Hb]. split; [|done].
  rewrite Ha, andb_true_r. destruct (is_space c); [|done].
  destruct a as [|x a]; [by apply andb_prop in Hc as [-> _]|exact Hc].
Qed.

Lemma trailing_digits_end (sn ah : str) (e : mstate) :
  forallb dot ah = true ->
  rmatch re_trailing_digits Some (MState sn ah None) = Some e -> ahead e = [].
Proof.
  intros Hdot. unfold re_trailing_digits. cbn [seqs rmatch ahead seen grp1].
  destruct ah as [|c t]; [done|]. destruct (is_digit c); [|done].
  intros (sn1 & pre1 & ah1 & Et & H)%star_loop_result.
  cbn [rmatch ahead seen grp1] in H.
  apply star_loop_result in H as (sn2 & pre2 & ah2 & E1 & H).
  assert (forallb dot ah2 = true) as Hdot2.
  { cbn [forallb] in Hdot. apply andb_prop in Hdot as [_ Hdot].
    rewrite Et, E1, !forallb_app in Hdot.
    by apply andb_prop in Hdot as [_ [_ ?]%andb_prop]. }
  cbn [rmatch ahead] in H. destruct ah2 as [|x [|y ah2]]; [|..|done].
  - by injection H as <-.
  - cbn in Hdot2. unfold dot in Hdot2. destruct (char_eqb x nl); [done|done].
Qed.

Lemma sub_go_trailing_skip_all (t sn : str) :
  sub_go re_trailing_digits [] (length t) sn t = [].
Proof. revert sn. induction t as [|c t IH]; intros sn; [done|]. cbn. apply IH. Qed.

Lemma sub_go_trailing_prefix (ah sn : str) :
  forallb dot ah = true ->
  exists b, ah = sub_go re_trailing_digits [] 0 sn ah ++ b.
Proof.
  revert sn. induction ah as [|c t IH]; intros sn Hdot.
  - by exists [].
  - rewrite sub_go_here. cbn zeta.
    destruct (rmatch re_trailing_digits Some (MState sn (c :: t) None)) as [e|] eqn:E.
    + pose proof (trailing_digits_end _ _ _ Hdot E) as He.
      unfold consumed. rewrite He. cbn [ahead length Nat.sub app].
      rewrite sub_go_trailing_skip_all. by exists (c :: t).
    + cbn [forallb] in Hdot. apply andb_prop in Hdot as [_ Hdot].
      destruct (IH (c :: sn) Hdot) as [b Hb]. exists b. cbn [app]. by rewrite <- Hb.
Qed.

Lemma sub_spaces_dot (text : str) : forallb dot (re_sub re_spaces [blank] text) = true.
Proof.
  apply forallb_forall. intros c Hc. apply dot_not_nl. intros ->.
  unfold re_sub in Hc.
  apply (sub_go_chars re_spaces [blank] (fun c => is_space c = false)) in Hc.
  - destruct Hc as [[Hc|[]]|[_ Hc]]; [discriminate Hc|discriminate Hc].
  - intros sn a t. destruct (is_space a) eqn:Ea; [right|by left].
    unfold re_spaces. cbn [rmatch ahead seen grp1]. rewrite Ea.
    destruct (star_loop_Some is_space None t (a :: sn)) as (e & -> & Hle).
    exists e, (length t - length (ahead e)). split; [done|].
    unfold consumed. cbn [ahead length]. lia.
Qed.

Lemma re_leading_digits_bos :
  re_leading_digits = Seq Bos (seqs [Star is_space; Plus digit_or_dash; Star is_space]).
Proof. reflexivity. Qed.

(** Cleaning leaves single blanks only, and none at either end. *)
Lemma clean_abstract_single_spaced (text : str) :
  single_spaced (_clean_abstract text) = true /\ trimmed (_clean_abstract text) = true.
Proof.
  split.
  - unfold _clean_abstract.
    pose proof (sub_spaces_single_spaced _ text [] (le_n _)) as H1.
    fold (re_sub re_spaces [blank] text) in H1.
    change (py " ") with [blank].
    destruct (sub_go_trailing_prefix (re_sub re_spaces [blank] text) []
                (sub_spaces_dot text)) as [b Hb].
    fold (re_sub re_trailing_digits [] (re_sub re_spaces [blank] text)) in Hb.
    rewrite Hb in H1. apply single_spaced_app in H1 as [H2 _].
    rewrite re_leading_digits_bos.
    destruct (re_sub_bos_suffix (seqs [Star is_space; Plus digit_or_dash; Star is_space])
                (re_sub re_trailing_digits [] (re_sub re_spaces [blank] text))) as [a Ha].
    rewrite Ha in H2. apply single_spaced_app in H2 as [_ H3].
    unfold str_strip, lstrip_by.
    match goal with |- single_spaced (rstrip_by _ (dropwhile _ ?x)) = true =>
      destruct (dropwhile_suffix is_space x) as [a' Ha'];
      rewrite Ha' in H3; apply single_spaced_app in H3 as [_ H4];
      destruct (rstrip_by_prefix is_space (dropwhile is_space x)) as [b' Hb'];
      rewrite Hb' in H4; by apply single_spaced_app in H4 as [H5 _]
    end.
  - unfold trimmed, _clean_abstract. apply str_eqb_eq, str_strip_idem.
Qed.

(** C10: an abstract the segmenter returns has no whitespace character
    but the blank, no two blanks in a row and none at either end; hence
    it has neither a newline nor a carriage return in it: it is one
    line, as the ledger's line format needs. *)
Theorem find_abstract_single_line (text a : str) :
  _find_abstract_in_text text = Some a ->
  (forall c, In c a -> is_space c = true -> c = blank) /\
  single_spaced a = true /\ trimmed a = true /\
  ~ In nl a /\ one_line a = true.
Proof.
  intros (earlier & p & later & m & _ & _ & _ & -> & _)%find_abstract_from_some.
  assert (forall c, In c (candidate text m) -> is_space c = true -> c = blank) as H.
  { intros c. apply clean_abstract_spaces. }
  split; [exact H|].
  split; [apply clean_abstract_single_spaced|].
  split; [apply clean_abstract_single_spaced|].
  split.
  - intros Hin. apply nl_not_blank. exact (H _ Hin space_nl).
  - unfold one_line. apply forallb_forall. intros c Hc.
    destruct (char_eqb c nl) eqn:E1.
    { apply Ascii.eqb_eq in E1. subst. destruct nl_not_blank. exact (H _ Hc space_nl). }
    destruct (char_eqb c cr) eqn:E2; [|done].
    apply Ascii.eqb_eq in E2. subst. destruct cr_not_blank. exact (H _ Hc space_cr).
Qed.

Lemma find_abstract_single_line_witness :
  (forall c, In c sixty -> is_space c = true -> c = blank) /\
  single_spaced sixty = true /\ trimmed sixty = true /\
  ~ In nl sixty /\ one_line sixty = true.
Proof.
  apply (find_abstract_single_line sixty_words sixty). vm_compute. reflexivity.
Defined.

Lemma insert_by_pos_perm (x : nat * str) (l : list (nat * str)) :
  insert_by_pos x l ≡ₚ x :: l.
Proof.
  induction l as [|y l IH]; [done|]. cbn.
  destruct (x.1 <=? y.1); [done|]. rewrite IH. apply perm_swap.
Qed.

Lemma sort_by_pos_perm (l : list (nat * str)) : sort_by_pos l ≡ₚ l.
Proof.
  induction l as [|x l IH]; [done|]. cbn.
  by rewrite insert_by_pos_perm, IH.
Qed.

Lemma insert_by_pos_sorted (x : nat * str) (l : list (nat * str)) :
  StronglySorted by_pos l -> StronglySorted by_pos (insert_by_pos x l).
Proof.
  induction l as [|y l IH]; intros Hl; cbn.
  - repeat constructor.
  - apply StronglySorted_inv in Hl as [Hl Hy].
    destruct (x.1 <=? y.1) eqn:E.
    + apply Nat.leb_le in E. constructor; [by constructor|].
      constructor; [exact E|].
      eapply Forall_impl; [exact Hy|]. unfold by_pos. intros z Hz. lia.
    + apply Nat.leb_gt in E. constructor; [by apply IH|].
      rewrite insert_by_pos_perm. constructor; [unfold by_pos; lia|exact Hy].
Qed.

Lemma sort_by_pos_sorted (l : list (nat * str)) : StronglySorted by_pos (sort_by_pos l).
Proof.
  induction l as [|x l IH]; [constructor|]. cbn. by apply insert_by_pos_sorted.
Qed.

(** Pairs with the same position keep their order. *)
Lemma insert_by_pos_stable (k : nat) (x : nat * str) (l : list (nat * str)) :
  StronglySorted by_pos l ->
  List.filter (fun y => y.1 =? k) (insert_by_pos x l)
  = List.filter (fun y => y.1 =? k) (x :: l).
Proof.
  induction l as [|y l IH]; intros Hl; [done|]. cbn [insert_by_pos].
  apply StronglySorted_inv in Hl as [Hl Hy].
  destruct (x.1 <=? y.1) eqn:E; [done|]. apply Nat.leb_gt in E.
  cbn [List.filter] in *. rewrite (IH Hl).
  destruct (x.1 =? k) eqn:Ex; [|done].
  destruct (y.1 =? k) eqn:Ey; [|done].
  apply Nat.eqb_eq in Ex, Ey. lia.
Qed.

Lemma sort_by_pos_stable (k : nat) (l : list (nat * str)) :
  List.filter (fun y => y.1 =? k) (sort_by_pos l) = List.filter (fun y => y.1 =? k) l.
Proof.
  induction l as [|x l IH]; [done|]. cbn [sort_by_pos foldr].
  rewrite insert_by_pos_stable by apply sort_by_pos_sorted.
  cbn [List.filter]. fold (sort_by_pos l). by rewrite IH.
Qed.

Lemma elem_of_enumerate_from {A} (i : nat) (l : list A) (x : nat * A) :
  x ∈ zip (seq i (length l)) l -> i <= x.1 < i + length l.
Proof.
  destruct x as [j b]. intros H%elem_of_zip_l. apply elem_of_seq in H. cbn. lia.
Qed.

Lemma enumerate_from_sorted {A} (i : nat) (l : list A) (R : relation (nat * A)) :
  (forall x y : nat * A, x.1 < y.1 -> R x y) ->
  StronglySorted R (zip (seq i (length l)) l).
Proof.
  intros HR. revert i. induction l as [|a l IH]; intros i; [constructor|].
  cbn. constructor; [apply IH|].
  apply Forall_forall. intros x Hin%elem_of_enumerate_from. apply HR. cbn. lia.
Qed.

Lemma enumerate_from_fst {A} (i : nat) (l : list A) (x y : nat * A) :
  x ∈ zip (seq i (length l)) l -> y ∈ zip (seq i (length l)) l -> x.1 = y.1 -> x = y.
Proof.
  revert i. induction l as [|a l IH]; intros i; cbn; [by intros ?%elem_of_nil|].
  intros [->|Hx]%elem_of_cons [->|Hy]%elem_of_cons; cbn.
  - done.
  - apply elem_of_enumerate_from in Hy. lia.
  - apply elem_of_enumerate_from in Hx. lia.
  - by apply (IH (S i)).
Qed.

Lemma sort_by_pos_enumerate (l : list (nat * str)) (words : list str) :
  l ≡ₚ enumerate words -> sort_by_pos l = enumerate words.
Proof.
  intros Hl. apply (StronglySorted_unique_strong by_pos).
  - intros x y Hx Hy Hxy Hyx. rewrite sort_by_pos_perm, Hl in Hx.
    apply (enumerate_from_fst 0 words); [done|done|]. unfold by_pos in *. lia.
  - apply sort_by_pos_sorted.
  - apply enumerate_from_sorted. unfold by_pos. intros; lia.
  - by rewrite sort_by_pos_perm.
Qed.

Lemma snd_enumerate_from {A} (i : nat) (l : list A) :
  map snd (zip (seq i (length l)) l) = l.
Proof.
  revert i. induction l as [|a l IH]; intros i; [done|]. cbn. by rewrite IH.
Qed.

(** X1: when the index lists every position 0, 1, ..., n-1 once, each
    with the word at that position (in any order of the words and of the
    positions), [reconstruct_abstract] gives the n words in order, joined
    by single blanks; an index without positions gives the empty
    string. *)
Theorem reconstruct_abstract_round_trip (inverted_index : word_index)
    (words : list str) :
  position_words inverted_index ≡ₚ enumerate words ->
  reconstruct_abstract inverted_index = str_join (py " ") words.
Proof.
  intros H. unfold reconstruct_abstract.
  destruct inverted_index as [|e rest].
  - cbn in H. symmetry in H. apply Permutation_nil_r in H.
    destruct words; [done|discriminate].
  - cbv zeta. rewrite (sort_by_pos_enumerate _ _ H).
    unfold enumerate. by rewrite snd_enumerate_from.
Qed.

Lemma reconstruct_abstract_round_trip_witness :
  reconstruct_abstract [(py "the", [0; 2]); (py "mat", [3]); (py "on", [1])]
  = py "the on the mat".
Proof.
  apply (reconstruct_abstract_round_trip
           [(py "the", [0; 2]); (py "mat", [3]); (py "on", [1])]
           [py "the"; py "on"; py "the"; py "mat"]).
  cbn. apply perm_skip.
  etransitivity; [apply perm_skip, perm_swap|]. apply perm_swap.
Defined.

(** X2: a pair is never lost, never doubled and never moved in front of
    a pair with a smaller position: the words of the result are those of
    the index, one for every listed position, in the order of their
    positions, and words listed at one position keep the order of the
    index. *)
Theorem reconstruct_abstract_sorted (inverted_index : word_index) :
  exists position_words' : list (nat * str),
    reconstruct_abstract inverted_index = str_join (py " ") (map snd position_words') /\
    position_words' ≡ₚ position_words inverted_index /\
    StronglySorted (fun x y => x.1 <= y.1) position_words' /\
    forall pos, List.filter (fun x => x.1 =? pos) position_words'
                = List.filter (fun x => x.1 =? pos) (position_words inverted_index).
Proof.
  exists (sort_by_pos (position_words inverted_index)).
  split; [by destruct inverted_index|].
  split; [apply sort_by_pos_perm|].
  split; [apply sort_by_pos_sorted|].
  intros pos. apply sort_by_pos_stable.
Qed.

(** X3: the request to OpenAlex has four outcomes.  An abstract is
    returned only when the answer carries an index from which a
    non-empty text is rebuilt, and then [abstracts_found] grows by one;
    a 404, a missing, null or empty index, and an index that rebuilds to
    the empty string return [None] and leave the counters alone; a
    request that raises returns [None] and adds one to [errors].  The
    library is never written to. *)
Theorem fetch_abstract_from_openalex_outcomes {library} (answer : response)
    (doi : str) (w : @world library) :
  let r := fetch_abstract_from_openalex answer doi w in
  zot r.1 = zot w /\ write_calls r.1 = write_calls w /\
  abstracts_updated (stats r.1) = abstracts_updated (stats w) /\
  (forall a, r.2 = Some a ->
     a <> [] /\
     (exists index, answer = Json (Some index) /\ a = reconstruct_abstract index) /\
     abstracts_found (stats r.1) = S (abstracts_found (stats w)) /\
     errors (stats r.1) = errors (stats w) /\ log_file r.1 = log_file w) /\
  (r.2 = None ->
     abstracts_found (stats r.1) = abstracts_found (stats w) /\
     errors (stats r.1) =
       match answer with RequestError _ => S (errors (stats w)) | _ => errors (stats w) end) /\
  (forall index, answer = Json (Some index) -> reconstruct_abstract index = [] ->
     r.2 = None).
Proof.
  assert (forall m, zot (log m w) = zot w /\ write_calls (log m w) = write_calls w /\
                    stats (log m w) = stats w) as Hlog.
  { intros m. unfold log. by destruct (verbose w). }
  unfold fetch_abstract_from_openalex.
  destruct answer as [|e|[[|e0 rest]|]]; cbn zeta.
  1,2,3,5: cbn [fst snd with_stats zot write_calls stats];
    match goal with |- context [log ?m _] => destruct (Hlog m) as (-> & -> & ->) end;
    repeat split; try done; intros; try done.
  destruct (reconstruct_abstract (e0 :: rest)) as [|c a] eqn:E.
  - cbn [fst snd]. destruct (Hlog (py "  No abstract available in OpenAlex for: " ++ doi))
        as (-> & -> & ->).
      repeat split; try done.
  - cbn. split; [done|]. split; [done|]. split; [done|]. split; [|split; [done|]].
    + intros ? [= <-]. split; [done|]. split; [|done].
      exists (e0 :: rest). by rewrite E.
    + intros index [= <-]. by rewrite E.
Qed.

Lemma passes_refl (s : mstate) : passes s s [].
Proof. by split. Qed.

Lemma passes_trans (s m e : mstate) (p q : str) :
  passes s m p -> passes m e q -> passes s e (p ++ q).
Proof.
  intros [H1 H2] [H3 H4]. split.
  - by rewrite H1, H3, app_assoc.
  - by rewrite H4, H2, rev_app_distr, app_assoc.
Qed.

Lemma star_loop_passes (Q : ascii -> Prop) (p : ascii -> bool)
    (k : mstate -> option mstate) (g : option str) (ah sn : str) (e : mstate) :
  (forall c, p c = true -> Q c) ->
  star_loop p k g sn ah = Some e ->
  exists m pre, k m = Some e /\ passes (MState sn ah g) m pre /\ Forall Q pre
                /\ grp1 m = g.
Proof.
  intros HQ. revert sn. induction ah as [|c t IH]; intros sn; cbn [star_loop].
  - intros H. exists (MState sn [] g), []. by repeat split.
  - destruct (p c) eqn:Ec.
    + destruct (star_loop p k g (c :: sn) t) as [e'|] eqn:E.
      * intros [= ->]. destruct (IH _ E) as (m & pre & Hk & [H1 H2] & Hpre & Hg).
        exists m, (c :: pre). split; [done|]. split; [|split; [|done]].
        -- split; cbn in *; [by rewrite H1|]. by rewrite H2, <- app_assoc.
        -- constructor; [by apply HQ|done].
      * intros H. exists (MState sn (c :: t) g), []. by repeat split.
    + intros H. exists (MState sn (c :: t) g), []. by repeat split.
Qed.

(** A successful run of [r] passes over characters of its classes and
    then succeeds in its continuation. *)
Lemma rmatch_passes (Q : ascii -> Prop) (r : regex) :
  classes_within Q r ->
  forall k s e, rmatch r k s = Some e ->
  exists m pre, k m = Some e /\ passes s m pre /\ Forall Q pre.
Proof.
  induction r as [|p|r1 IH1 r2 IH2|r1 IH1 r2 IH2|r1 IH1|p|p|r1 IH1| | | | |];
    cbn [classes_within rmatch]; intros HQ k s e.
  - intros H. exists s, []. split; [done|]. split; [apply passes_refl|constructor].
  - destruct s as [sn [|c t] g]; cbn; [done|]. destruct (p c) eqn:Ec; [|done].
    intros H. exists (MState (c :: sn) t g), [c]. split; [done|].
    split; [by split|]. constructor; [by apply HQ|constructor].
  - destruct HQ as [HQ1 HQ2]. intros H.
    destruct (IH1 HQ1 _ _ _ H) as (m1 & p1 & Hk1 & Hp1 & HF1).
    destruct (IH2 HQ2 _ _ _ Hk1) as (m2 & p2 & Hk2 & Hp2 & HF2).
    exists m2, (p1 ++ p2). split; [done|].
    split; [by eapply passes_trans|by apply Forall_app].
  - destruct HQ as [HQ1 HQ2].
    destruct (rmatch r1 k s) as [e'|] eqn:E.
    + intros [= ->]. by apply (IH1 HQ1 _ _ _ E).
    + by apply IH2.
  - destruct (rmatch r1 k s) as [e'|] eqn:E.
    + intros [= ->]. by apply (IH1 HQ _ _ _ E).
    + intros H. exists s, []. split; [done|]. split; [apply passes_refl|constructor].
  - destruct s as [sn ah g]. cbn. intros H.
    destruct (star_loop_passes Q p k g ah sn e HQ H) as (m & pre & ? & ? & ? & _).
    by exists m, pre.
  - destruct s as [sn [|c t] g]; cbn; [done|]. destruct (p c) eqn:Ec; [|done].
    intros H.
    destruct (star_loop_passes Q p k g t (c :: sn) e HQ H) as (m & pre & ? & [H1 H2] & ? & _).
    exists m, (c :: pre). split; [done|]. split.
    + split; cbn in *; [by rewrite H1|]. by rewrite H2, <- app_assoc.
    + constructor; [by apply HQ|done].
  - intros H. destruct (IH1 HQ _ _ _ H) as (m & pre & Hk & [H1 H2] & HF).
    eexists _, pre. split; [exact Hk|]. split; [by split|done].
  - destruct (seen s); [|done]. intros H. exists s, []. split; [done|].
    split; [apply passes_refl|constructor].
  - intros H. exists s, []. split; [|split; [apply passes_refl|constructor]].
    destruct (ahead s) as [|c [|? ?]]; try done. by destruct (char_eqb c nl).
  - intros H. exists s, []. split; [|split; [apply passes_refl|constructor]].
    destruct (seen s) as [|c ?]; try done. by destruct (char_eqb c nl).
  - intros H. exists s, []. split; [|split; [apply passes_refl|constructor]].
    destruct (ahead s) as [|c ?]; try done. by destruct (char_eqb c nl).
  - intros H. exists s, []. split; [|split; [apply passes_refl|constructor]].
    by destruct (xorb _ _).
Qed.

Lemma passes_consumed (s e : mstate) (pre : str) :
  passes s e pre -> take (consumed s e) (ahead s) = pre.
Proof.
  intros [H _]. unfold consumed. rewrite H, length_app.
  replace (length pre + length (ahead e) - length (ahead e)) with (length pre) by lia.
  by rewrite take_app_length.
Qed.

(** Where [re.search] finds its match: after a prefix of the text, and
    the characters of group 0 are of the classes of the pattern. *)
Lemma search_from_Some (Q : ascii -> Prop) (r : regex) (sn ah : str) (m : match_obj) :
  classes_within Q r ->
  search_from r sn ah = Some m ->
  exists pre post, ah = pre ++ group0 m ++ post /\ Forall Q (group0 m) /\
                   m_from m = MState (rev pre ++ sn) (group0 m ++ post) None /\
                   rmatch r Some (m_from m) = Some (m_to m).
Proof.
  intros HQ. revert sn. induction ah as [|c t IH]; intros sn; cbn [search_from];
    unfold match_at.
  - destruct (rmatch r Some (MState sn [] None)) as [e|] eqn:E; [|done].
    intros [= <-]. destruct (rmatch_passes Q r HQ _ _ _ E) as (m' & pre & [= ->] & Hp & HF).
    unfold group0. cbn [m_from m_to]. rewrite (passes_consumed _ _ _ Hp).
    destruct Hp as [H1 H2]. cbn in H1.
    exists [], (ahead e). cbn [app rev]. rewrite <- H1. by repeat split.
  - destruct (rmatch r Some (MState sn (c :: t) None)) as [e|] eqn:E.
    + intros [= <-]. destruct (rmatch_passes Q r HQ _ _ _ E) as (m' & pre & [= ->] & Hp & HF).
      unfold group0. cbn [m_from m_to]. rewrite (passes_consumed _ _ _ Hp).
      destruct Hp as [H1 H2]. cbn in H1.
      exists [], (ahead e). cbn [app rev]. rewrite <- H1. by repeat split.
    + intros H. destruct (IH _ H) as (pre & post & -> & HF & Hfrom & Hm).
      exists (c :: pre), post. cbn [app rev]. rewrite <- app_assoc. by repeat split.
Qed.

Lemma scan_item_cases (st : stats_t) (acc : list abstract_item) (it : library_item) :
  scan_item (st, acc) it =
  if is_citation it then
    if lacks_abstract it then
      if nonempty (item_doi it)
      then (bump_missing_abstract_with_doi (bump_missing_abstract (bump_total_checked st)),
            acc ++ [record_of it])
      else (bump_missing_abstract (bump_total_checked st), acc)
    else (bump_total_checked st, acc)
  else (st, acc).
Proof.
  unfold scan_item, is_citation, lacks_abstract.
  destruct (is_non_citation (get (itemType it) [])); [done|]. cbn [negb andb].
  by destruct (nonempty (str_strip (get (abstractNote (data (li_item it))) []))).
Qed.

Lemma lacks_abstract_citation (it : library_item) :
  lacks_abstract it = true -> is_citation it = true.
Proof. unfold lacks_abstract, is_citation. by intros [? _]%andb_prop. Qed.

Lemma scan_item_fold (items : list library_item) (st : stats_t)
    (acc : list abstract_item) :
  let r := fold_left scan_item items (st, acc) in
  r.2 = acc ++ selected items /\
  total_checked r.1 = total_checked st + length (List.filter is_citation items) /\
  missing_abstract r.1 = missing_abstract st + length (List.filter lacks_abstract items) /\
  missing_abstract_with_doi r.1 = missing_abstract_with_doi st + length (selected items) /\
  abstracts_found r.1 = abstracts_found st /\
  abstracts_updated r.1 = abstracts_updated st /\ errors r.1 = errors st.
Proof.
  revert st acc. induction items as [|it items IH]; intros st acc.
  - cbn. rewrite app_nil_r. repeat split; lia.
  - cbn [fold_left]. rewrite scan_item_cases. unfold selected in *.
    cbn [List.filter].
    destruct (lacks_abstract it) eqn:El.
    + rewrite (lacks_abstract_citation _ El). cbn [andb].
      destruct (nonempty (item_doi it)); cbn [map length].
      * destruct (IH (bump_missing_abstract_with_doi
                        (bump_missing_abstract (bump_total_checked st)))
                     (acc ++ [record_of it])) as (-> & -> & -> & -> & -> & -> & ->).
        cbn. rewrite <- app_assoc. repeat split; lia.
      * destruct (IH (bump_missing_abstract (bump_total_checked st)) acc)
          as (-> & -> & -> & -> & -> & -> & ->).
        cbn. repeat split; lia.
    + cbn [andb]. destruct (is_citation it); cbn [length].
      * destruct (IH (bump_total_checked st) acc) as (-> & -> & -> & -> & -> & -> & ->).
        cbn. repeat split; lia.
      * apply IH.
Qed.

Lemma filter_length_le {A} (p q : A -> bool) (l : list A) :
  (forall x, p x = true -> q x = true) ->
  length (List.filter p l) <= length (List.filter q l).
Proof.
  intros H. induction l as [|x l IH]; [done|]. cbn.
  destruct (p x) eqn:E; [rewrite (H _ E); cbn; lia|].
  destruct (q x); cbn; lia.
Qed.

Lemma log_frame {library} (m : str) (w : @world library) :
  zot (log m w) = zot w /\ write_calls (log m w) = write_calls w /\
  stats (log m w) = stats w /\ verbose (log m w) = verbose w.
Proof. unfold log. by destruct (verbose w) eqn:E. Qed.

Lemma get_items_missing_abstracts_unfold {library}
    (everything_items : library -> list library_item)
    (everything_collection_items : library -> str -> list library_item)
    (collection_key : option str) (limit : option Z) (w : @world library) :
  let items := scanned everything_items everything_collection_items collection_key (zot w) in
  let r := get_items_missing_abstracts everything_items everything_collection_items
             collection_key limit w in
  zot r.1 = zot w /\ write_calls r.1 = write_calls w /\ verbose r.1 = verbose w /\
  stats r.1 = (fold_left scan_item items (stats w, [])).1 /\
  r.2 = match limit with
        | Some l =>
            if negb (l =? 0)%Z && (l <? Z.of_nat (length (selected items)))%Z
            then slice_to l (selected items) else selected items
        | None => selected items
        end.
Proof.
  cbv zeta. unfold get_items_missing_abstracts, scanned. cbv zeta.
  destruct (log_frame (py "Fetching items missing abstracts from Zotero library...") w)
    as (Hz & Hw & Hs & Hv).
  rewrite Hz, Hs.
  set (items := match collection_key with
                | Some (c :: k) => everything_collection_items (zot w) (c :: k)
                | _ => everything_items (zot w)
                end).
  pose proof (scan_item_fold items (stats w) []) as Hfold. cbv zeta in Hfold.
  destruct (fold_left scan_item items (stats w, [])) as [st missing] eqn:E.
  cbn [fst snd] in *. destruct Hfold as (-> & _). cbn [app].
  set (w1 := with_stats _ _).
  set (m := py "Found " ++ _).
  destruct (log_frame m w1) as (Hz1 & Hw1 & Hs1 & Hv1).
  assert (zot w1 = zot w /\ write_calls w1 = write_calls w /\ verbose w1 = verbose w
          /\ stats w1 = st) as (Hz2 & Hw2 & Hv2 & Hs2).
  { subst w1. unfold with_stats. cbn [zot write_calls verbose stats].
    by rewrite Hz, Hw, Hv. }
  assert (forall (b : bool) x,
            let r := if b then (log x (log m w1), slice_to (default 0%Z limit) (selected items))
                     else (log m w1, selected items) in
            zot r.1 = zot w /\ write_calls r.1 = write_calls w /\ verbose r.1 = verbose w
            /\ stats r.1 = st) as Hb.
  { intros b x. destruct (log_frame x (log m w1)) as (Hz3 & Hw3 & Hs3 & Hv3).
    destruct b; cbn [fst snd]; rewrite ?Hz3, ?Hw3, ?Hs3, ?Hv3, ?Hz1, ?Hw1, ?Hs1, ?Hv1;
      repeat split; assumption. }
  destruct limit as [l|].
  - specialize (Hb (negb (l =? 0)%Z && (l <? Z.of_nat (length (selected items)))%Z)
                   (py "Limiting to first " ++ dec_int l ++ py " items")).
    cbn [default] in Hb. cbv zeta in Hb.
    destruct (negb (l =? 0)%Z && (l <? Z.of_nat (length (selected items)))%Z);
      cbn [fst snd] in *; tauto.
  - specialize (Hb false []). cbv zeta iota in Hb. cbn [fst snd] in *. tauto.
Qed.

(** X4: the scan counts every item that is not an attachment, a note
    or an annotation in [total_checked], those of them whose abstract is
    empty or blank in [missing_abstract], and those of the latter for
    which a DOI is found in [missing_abstract_with_doi]; so the three
    increments are ordered, and bounded by the number of items read.
    The counts are those of the whole scan, whatever the limit; no other
    counter moves and the library is not written to. *)
Theorem get_items_missing_abstracts_counts {library}
    (everything_items : library -> list library_item)
    (everything_collection_items : library -> str -> list library_item)
    (collection_key : option str) (limit : option Z) (w : @world library) :
  let items := scanned everything_items everything_collection_items collection_key (zot w) in
  let r := get_items_missing_abstracts everything_items everything_collection_items
             collection_key limit w in
  let checked := length (List.filter is_citation items) in
  let missing := length (List.filter lacks_abstract items) in
  let with_doi := length (selected items) in
  total_checked (stats r.1) = total_checked (stats w) + checked /\
  missing_abstract (stats r.1) = missing_abstract (stats w) + missing /\
  missing_abstract_with_doi (stats r.1) = missing_abstract_with_doi (stats w) + with_doi /\
  with_doi <= missing <= checked /\ checked <= length items /\
  abstracts_found (stats r.1) = abstracts_found (stats w) /\
  abstracts_updated (stats r.1) = abstracts_updated (stats w) /\
  errors (stats r.1) = errors (stats w) /\
  zot r.1 = zot w /\ write_calls r.1 = write_calls w.
Proof.
  intros items r checked missing with_doi.
  destruct (get_items_missing_abstracts_unfold everything_items
              everything_collection_items collection_key limit w)
    as (Hz & Hw & Hv & Hs & _).
  fold items in Hs. fold r in Hz, Hw, Hs. rewrite Hs, Hz, Hw.
  destruct (scan_item_fold items (stats w) []) as (_ & -> & -> & -> & -> & -> & ->).
  repeat split; try done.
  - subst with_doi missing. unfold selected. rewrite length_map.
    apply filter_length_le. by intros x [? _]%andb_prop.
  - apply filter_length_le. apply lacks_abstract_citation.
  - subst checked. clear. induction items as [|x l IH]; [done|]. cbn.
    destruct (is_citation x); cbn; lia.
Qed.

Lemma rmatch_lit_inv (w : str) (k : mstate -> option mstate) (sn ah : str)
    (g : option str) (e : mstate) :
  rmatch (lit w) k (MState sn ah g) = Some e ->
  exists rest, ah = w ++ rest /\ k (MState (rev w ++ sn) rest g) = Some e.
Proof.
  revert sn ah. induction w as [|c w IH]; intros sn ah; cbn [lit rmatch].
  - intros H. by exists ah.
  - cbn [ahead seen grp1]. destruct ah as [|a t]; [done|].
    destruct (char_eqb c a) eqn:E; [|done]. apply char_eqb_eq in E as <-.
    intros (rest & -> & Hk)%IH. exists rest. split; [done|].
    cbn [rev]. by rewrite <- app_assoc.
Qed.

Lemma lit_within (Q : ascii -> Prop) (w : str) :
  Forall Q w -> classes_within Q (lit w).
Proof.
  induction 1 as [|c w Hc _ IH]; [done|]. cbn. split; [|done].
  by intros a <-%char_eqb_eq.
Qed.

Lemma re_doi_in_url_within : classes_within no_space re_doi_in_url.
Proof.
  assert (forall c, is_digit c = true -> no_space c) as Hd.
  { intros c Hc. unfold no_space, is_space, is_digit, between in *.
    apply andb_prop in Hc as [H1%Nat.leb_le H2%Nat.leb_le].
    replace (ord c <=? 13) with false by (symmetry; apply Nat.leb_gt; lia).
    replace (ord c <=? 32) with false by (symmetry; apply Nat.leb_gt; lia).
    replace (ord c =? 133) with false by (symmetry; apply Nat.eqb_neq; lia).
    replace (ord c =? 160) with false by (symmetry; apply Nat.eqb_neq; lia).
    by rewrite !andb_false_r. }
  unfold re_doi_in_url. cbn -[char_eqb is_space is_digit].
  repeat split; try done; try (by intros c <-%char_eqb_eq).
  intros c Hc. by apply negb_true_iff in Hc.
Qed.

(** What the pattern finds in a URL: a run of characters without
    whitespace that begins with "10.". *)
Lemma re_doi_in_url_match (u : str) (m : match_obj) :
  re_search re_doi_in_url u = Some m ->
  (exists pre post, u = pre ++ group0 m ++ post) /\
  startswith (py "10.") (group0 m) = true /\
  forallb (fun c => negb (is_space c)) (group0 m) = true.
Proof.
  intros H. unfold re_search in H.
  destruct (search_from_Some no_space _ _ _ _ re_doi_in_url_within H)
    as (pre & post & Hu & HF & Hfrom & Hm).
  split; [by exists pre, post|]. split.
  - rewrite Hfrom in Hm. unfold re_doi_in_url in Hm. cbn [seqs rmatch] in Hm.
    apply rmatch_lit_inv in Hm as (rest & Hrest & Hk).
    assert (classes_within no_space
              (seqs [rep 4 (Cls is_digit); Star is_digit; lit (py "/");
                     Plus (fun c => negb (is_space c))])) as Hw.
    { pose proof re_doi_in_url_within as Hw. unfold re_doi_in_url in Hw.
      cbn [seqs classes_within] in Hw. cbn [seqs classes_within]. tauto. }
    change (rmatch (rep 4 (Cls is_digit)) _ ?s = _)
      with (rmatch (seqs [rep 4 (Cls is_digit); Star is_digit; lit (py "/");
                          Plus (fun c => negb (is_space c))]) Some s = Some (m_to m)) in Hk.
    destruct (rmatch_passes _ _ Hw _ _ _ Hk) as (m' & p & [= ->] & [Hp _] & _).
    cbn [ahead] in Hp. unfold group0. rewrite Hfrom. cbn [ahead]. unfold consumed.
    cbn [ahead]. rewrite Hrest, Hp, !length_app.
    replace (length (py "10.") + (length p + length (ahead (m_to m)))
             - length (ahead (m_to m))) with (length (py "10." ++ p))
      by (rewrite length_app; lia).
    rewrite app_assoc, take_app_length. apply startswith_app.
  - apply forallb_forall. intros c Hc. rewrite Forall_forall in HF.
    apply negb_true_iff. by apply HF, list_elem_of_In.
Qed.

Lemma trimmed_strip (s : str) : trimmed (str_strip s) = true.
Proof. unfold trimmed. apply str_eqb_eq, str_strip_idem. Qed.

Lemma trimmed_clean_doi (x : str) : trimmed (clean_doi x) = true.
Proof. apply trimmed_strip. Qed.

(** X5: every record the scan returns is made from an item that is not
    an attachment, a note or an annotation and whose abstract is empty
    or blank; its DOI is the cleaned form of the item's DOI field,
    stripped, when that is not empty, and otherwise of the first run of
    characters in the URL that begins with "10." (four digits or more,
    a slash) and has no whitespace in it.  The records come in library
    order, and the DOI of a record has no whitespace around it. *)
Theorem get_items_missing_abstracts_selection {library}
    (everything_items : library -> list library_item)
    (everything_collection_items : library -> str -> list library_item)
    (collection_key : option str) (limit : option Z) (w : @world library) :
  let items := scanned everything_items everything_collection_items collection_key (zot w) in
  let r := get_items_missing_abstracts everything_items everything_collection_items
             collection_key limit w in
  (exists n, r.2 = take n (selected items)) /\
  (forall a, In a r.2 ->
     trimmed (ai_doi a) = true /\
     exists it, In it items /\ a = record_of it /\
       is_non_citation (get (itemType it) []) = false /\
       str_strip (get (abstractNote (data (li_item it))) []) = [] /\
       item_doi it <> [] /\
       let field := str_strip (get (DOI (data (li_item it))) []) in
       (field <> [] -> item_doi it = field) /\
       (field = [] ->
          (exists pre post, get (url it) [] = pre ++ item_doi it ++ post) /\
          startswith (py "10.") (item_doi it) = true /\
          forallb (fun c => negb (is_space c)) (item_doi it) = true)).
Proof.
  intros items r.
  destruct (get_items_missing_abstracts_unfold everything_items
              everything_collection_items collection_key limit w)
    as (_ & _ & _ & _ & Hr).
  fold items in Hr. fold r in Hr.
  assert (exists n, r.2 = take n (selected items)) as [n Hn].
  { rewrite Hr. destruct limit as [l|]; [|exists (length (selected items)); by rewrite firstn_all].
    destruct (negb (l =? 0)%Z && (l <? Z.of_nat (length (selected items)))%Z);
      [|exists (length (selected items)); by rewrite firstn_all].
    unfold slice_to. destruct (l <? 0)%Z; by eexists. }
  split; [by exists n|]. intros a Ha. rewrite Hn in Ha.
  apply list_elem_of_In, elem_of_take in Ha as (i & Ha & _).
  apply list_elem_of_lookup_2, list_elem_of_In in Ha. unfold selected in Ha.
  apply in_map_iff in Ha as (it & <- & Hit). apply filter_In in Hit as [Hin Hc].
  apply andb_prop in Hc as [Hl Hd]. split; [apply trimmed_clean_doi|].
  exists it. split; [done|]. split; [done|].
  unfold lacks_abstract in Hl. apply andb_prop in Hl as [H1 H2].
  apply negb_true_iff in H1, H2. split; [done|].
  split; [by destruct (str_strip (get (abstractNote (data (li_item it))) []))|].
  split; [by destruct (item_doi it)|].
  cbv zeta. unfold item_doi in *.
  destruct (str_strip (get (DOI (data (li_item it))) [])) as [|c d] eqn:E; cbn [nonempty] in *.
  - split; [done|]. intros _.
    destruct (re_search re_doi_in_url (get (url it) [])) as [m|] eqn:Em; [|done].
    by apply re_doi_in_url_match.
  - split; [done|]. done.
Qed.

Lemma get_items_missing_abstracts_selection_witness :
  let it := LibraryItem (Item (py "K1") 4 (ItemData [] None None (Some (py "T")) None))
                        None (Some (py "https://doi.org/10.1234/ab cd")) None None None in
  let r := get_items_missing_abstracts (fun _ : unit => [it]) (fun _ _ => [])
             None None (World tt [] false [] stats_init) in
  In (record_of it) r.2 /\ trimmed (ai_doi (record_of it)) = true.
Proof.
  intros it r.
  assert (In (record_of it) r.2) as Hin by (vm_compute; left; reflexivity).
  split; [exact Hin|].
  exact (proj1 (proj2 (get_items_missing_abstracts_selection (fun _ : unit => [it])
                         (fun _ _ => []) None None (World tt [] false [] stats_init))
                      (record_of it) Hin)).
Defined.

(** X6: the limit.  Without [limit], or with the limit 0, all the
    records are returned; a positive limit returns the first [limit] of
    them; a negative limit, which the option parser lets through, returns
    all but the last [-limit] records. *)
Theorem get_items_missing_abstracts_limit {library}
    (everything_items : library -> list library_item)
    (everything_collection_items : library -> str -> list library_item)
    (collection_key : option str) (limit : option Z) (w : @world library) :
  let items := scanned everything_items everything_collection_items collection_key (zot w) in
  let r := get_items_missing_abstracts everything_items everything_collection_items
             collection_key limit w in
  let full := selected items in
  match limit with
  | None => r.2 = full
  | Some l =>
      (l = 0%Z -> r.2 = full) /\
      ((0 < l)%Z -> r.2 = take (Z.to_nat l) full /\ (Z.of_nat (length r.2) <= l)%Z) /\
      ((l < 0)%Z -> r.2 = take (length full - Z.to_nat (- l)) full)
  end.
Proof.
  intros items r full.
  destruct (get_items_missing_abstracts_unfold everything_items
              everything_collection_items collection_key limit w)
    as (_ & _ & _ & _ & Hr).
  fold items in Hr. fold r in Hr. fold full in Hr. rewrite Hr.
  destruct limit as [l|]; [|done].
  unfold slice_to.
  destruct (l =? 0)%Z eqn:E0; cbn [negb andb].
  { apply Z.eqb_eq in E0. repeat split; intros; try lia; done. }
  apply Z.eqb_neq in E0.
  destruct (l <? Z.of_nat (length full))%Z eqn:E1.
  - apply Z.ltb_lt in E1. destruct (l <? 0)%Z eqn:E2.
    + apply Z.ltb_lt in E2. repeat split; intros; try lia; done.
    + apply Z.ltb_ge in E2. repeat split; intros; try lia; try done.
      rewrite length_take. lia.
  - apply Z.ltb_ge in E1. repeat split; intros; try lia.
    rewrite take_ge; [done|lia].
Qed.

Lemma get_items_missing_abstracts_limit_witness :
  let it k := LibraryItem (Item k 1 (ItemData [] None (Some (py "10.1/a")) None None))
                          None None None None None in
  let lib (_ : unit) := [it (py "A"); it (py "B"); it (py "C")] in
  let w := World tt [] false [] stats_init in
  map ai_key (get_items_missing_abstracts lib (fun _ _ => []) None (Some (-1)%Z) w).2
  = [py "A"; py "B"].
Proof.
  intros it lib w.
  pose proof (get_items_missing_abstracts_limit lib (fun _ _ => []) None (Some (-1)%Z) w)
    as (_ & _ & H).
  rewrite H by lia. vm_compute. reflexivity.
Defined.

Lemma re_sub_bos_match (r : regex) (c : ascii) (u rest : str) (e : mstate) :
  rmatch (Seq Bos r) Some (MState [] ((c :: u) ++ rest) None) = Some e ->
  ahead e = rest ->
  re_sub (Seq Bos r) [] ((c :: u) ++ rest) = rest.
Proof.
  intros He Hah. unfold re_sub. rewrite sub_go_here. cbv zeta. rewrite He.
  unfold consumed. cbn [ahead]. rewrite Hah, length_app.
  replace (length (c :: u) + length rest - length rest) with (S (length u))
    by (cbn; lia).
  cbn [app]. rewrite sub_go_bos_later. by rewrite drop_app_length.
Qed.

Lemma re_sub_resolver_prefix (u rest : str) :
  In u resolver_prefixes -> re_sub re_doi_resolver [] (u ++ rest) = rest.
Proof.
  intros Hu.
  assert (exists c u' e, u = c :: u' /\
            rmatch re_doi_resolver Some (MState [] (u ++ rest) None) = Some e /\
            ahead e = rest) as (c & u' & e & -> & He & Hah).
  { destruct Hu as [<-|[<-|[<-|[<-|[]]]]]; do 3 eexists;
      (split; [reflexivity|]); cbn; split; reflexivity. }
  exact (re_sub_bos_match _ c u' rest e He Hah).
Qed.

Lemma is_label_chars (l : str) :
  is_label l = true ->
  exists a b c d, l = [a; b; c; d] /\ lower_char a = "d"%char /\ lower_char b = "o"%char
                  /\ lower_char c = "i"%char /\ d = ":"%char.
Proof.
  unfold is_label. intros H%str_eqb_eq. unfold str_lower in H.
  destruct l as [|a [|b [|c [|d [|? ?]]]]]; try discriminate.
  injection H as Ha Hb Hc Hd. exists a, b, c, d. repeat split; try done.
  revert Hd. unfold lower_char.
  destruct d as [[] [] [] [] [] [] [] []]; vm_compute; congruence.
Qed.

Lemma re_sub_label_prefix (l rest : str) :
  is_label l = true -> re_sub re_doi_label [] (l ++ rest) = rest.
Proof.
  intros (a & b & c & d & -> & Ha & Hb & Hc & ->)%is_label_chars.
  apply (re_sub_bos_match (lit_ci (py "doi:")) a [b; c; ":"%char] rest
           (MState [":"%char; c; b; a] rest None)); [|done].
  cbn [rmatch lit_ci seen ahead grp1 app py list_ascii_of_string].
  unfold char_eqb_ci. rewrite Ha, Hb, Hc. reflexivity.
Qed.

Lemma resolver_needs_h (s : str) :
  match s with [] => True | c :: _ => char_eqb "h" c = false end ->
  re_match re_doi_resolver s = None.
Proof.
  destruct s as [|c s]; [done|]. intros H.
  unfold re_match, match_at, re_doi_resolver.
  cbn [seqs rmatch lit py list_ascii_of_string seen ahead]. by rewrite H.
Qed.

Lemma no_prefix_resolver (s : str) :
  no_prefix s = true -> re_match re_doi_resolver s = None.
Proof.
  intros H. apply resolver_needs_h. destruct s as [|c s]; [done|].
  cbn [no_prefix] in H. apply andb_prop in H as [H _]. by apply negb_true_iff in H.
Qed.

Lemma no_prefix_label (s : str) :
  no_prefix s = true -> re_match re_doi_label s = None.
Proof.
  destruct s as [|c s]; [done|]. cbn [no_prefix]. intros [_ H]%andb_prop.
  apply negb_true_iff in H. unfold re_match, match_at, re_doi_label.
  cbn [seqs rmatch lit_ci py list_ascii_of_string seen ahead]. by rewrite H.
Qed.

Lemma no_prefix_app (d t : str) :
  no_prefix d = true -> forallb (mem_char (py ".,;:")) t = true ->
  no_prefix (d ++ t) = true.
Proof.
  destruct d as [|c d]; [|done]. intros _. destruct t as [|c t]; [done|].
  cbn [app forallb no_prefix]. intros [H _]%andb_prop. revert H.
  destruct c as [[] [] [] [] [] [] [] []]; vm_compute; congruence.
Qed.

Lemma label_resolver (l rest : str) :
  is_label l = true -> re_match re_doi_resolver (l ++ rest) = None.
Proof.
  intros (a & b & c & d & -> & Ha & _)%is_label_chars. apply resolver_needs_h.
  cbn [app]. apply not_true_is_false. intros <-%char_eqb_eq. discriminate.
Qed.

Lemma rstrip_by_all (p : ascii -> bool) (d t : str) :
  forallb p t = true -> rstrip_by p (d ++ t) = rstrip_by p d.
Proof.
  induction t as [|c t IH] using rev_ind; [by rewrite app_nil_r|].
  rewrite forallb_app. cbn. intros [Ht [Hc _]%andb_prop]%andb_prop.
  by rewrite app_assoc, rstrip_by_snoc, IH.
Qed.

(** X7: [clean_doi] removes a resolver prefix ("http://doi.org/",
    "https://doi.org/", "http://dx.doi.org/" or "https://dx.doi.org/"),
    then a label "doi:" in any mix of cases, and any run of the
    characters ".,;:" at the end, and returns the bare identifier that
    is left. *)
Theorem clean_doi_strips (u l d t : str) :
  u = [] \/ In u resolver_prefixes ->
  l = [] \/ is_label l = true ->
  forallb (mem_char (py ".,;:")) t = true ->
  bare d = true ->
  clean_doi (u ++ l ++ d ++ t) = d.
Proof.
  intros Hu Hl Ht Hd. unfold bare in Hd.
  apply andb_prop in Hd as [[Hnp Hend]%andb_prop Htrim].
  apply negb_true_iff in Hend. apply str_eqb_eq in Htrim.
  pose proof (no_prefix_app d t Hnp Ht) as Hdt.
  unfold clean_doi.
  assert (re_sub re_doi_resolver [] (u ++ l ++ d ++ t) = l ++ d ++ t) as ->.
  { destruct Hu as [->|Hu]; [|by apply re_sub_resolver_prefix].
    apply re_sub_resolver_id.
    destruct Hl as [->|Hl]; [by apply no_prefix_resolver|by apply label_resolver]. }
  assert (re_sub re_doi_label [] (l ++ d ++ t) = d ++ t) as ->.
  { destruct Hl as [->|Hl]; [|by apply re_sub_label_prefix].
    by apply re_sub_label_id, no_prefix_label. }
  unfold str_rstrip. rewrite (rstrip_by_all _ d t Ht).
  fold (str_rstrip (py ".,;:") d). by rewrite (str_rstrip_id _ _ Hend).
Qed.

Lemma clean_doi_strips_witness :
  clean_doi (py "https://dx.doi.org/DoI:10.1000/xyz123.;") = py "10.1000/xyz123".
Proof.
  apply (clean_doi_strips (py "https://dx.doi.org/") (py "DoI:") (py "10.1000/xyz123")
           (py ".;")).
  - right. vm_compute. tauto.
  - right. vm_compute. reflexivity.
  - vm_compute. reflexivity.
  - vm_compute. reflexivity.
Defined.

(** X8: the result of [clean_doi] is a contiguous part of its argument:
    characters are removed in front and at the end only, none is added,
    changed or moved; and the result has no whitespace around it. *)
Theorem clean_doi_infix (x : str) :
  (exists pre post, x = pre ++ clean_doi x ++ post) /\
  trimmed (clean_doi x) = true /\
  length (clean_doi x) <= length x.
Proof.
  assert (exists pre post, x = pre ++ clean_doi x ++ post) as (pre & post & H).
  { unfold clean_doi, str_strip, lstrip_by, str_rstrip.
    destruct (re_sub_bos_suffix
                (seqs [lit (py "http"); Opt (lit (py "s")); lit (py "://");
                       Opt (lit (py "dx.")); lit (py "doi.org/")]) x) as [a Ha].
    change (Seq Bos (seqs _)) with re_doi_resolver in Ha.
    set (x1 := re_sub re_doi_resolver [] x) in *.
    destruct (re_sub_bos_suffix (lit_ci (py "doi:")) x1) as [b Hb].
    change (Seq Bos (lit_ci _)) with re_doi_label in Hb.
    set (x2 := re_sub re_doi_label [] x1) in *.
    destruct (rstrip_by_prefix (mem_char (py ".,;:")) x2) as [c Hc].
    set (x3 := rstrip_by (mem_char (py ".,;:")) x2) in *.
    destruct (dropwhile_suffix is_space x3) as [d Hd].
    set (x4 := dropwhile is_space x3) in *.
    destruct (rstrip_by_prefix is_space x4) as [e He].
    set (x5 := rstrip_by is_space x4) in *.
    exists (a ++ b ++ d), (e ++ c).
    rewrite Ha, Hb, Hc, Hd, He at 1. by rewrite <- !app_assoc. }
  split; [by exists pre, post|]. split; [apply trimmed_clean_doi|].
  apply (f_equal length) in H. rewrite !length_app in H. lia.
Qed.

Lemma re_year_tail (sn ah : str) (e : mstate) :
  rmatch (seqs [rep 2 (Cls is_digit); Wordb]) Some (MState sn ah None) = Some e ->
  exists c d rest, ah = c :: d :: rest /\ is_digit c = true /\ is_digit d = true /\
                   ahead e = rest.
Proof.
  cbn [seqs rep rmatch seen ahead grp1].
  destruct ah as [|c [|d rest]]; [done| |].
  - destruct (is_digit c); done.
  - destruct (is_digit c) eqn:Ec; [|done]. destruct (is_digit d) eqn:Ed; [|done].
    destruct (xorb _ _); [|done]. intros [= <-]. by exists c, d, rest.
Qed.

Lemma re_year_match (s : str) (m : match_obj) :
  re_search re_year s = Some m ->
  is_year (group0 m) = true /\ exists pre post, s = pre ++ group0 m ++ post.
Proof.
  intros H. unfold re_search in H.
  destruct (search_from_Some (fun _ => True) re_year [] s m) as
    (pre & post & Hs & _ & Hfrom & Hm); [by cbn|exact H|].
  split; [|by exists pre, post].
  unfold group0, consumed. rewrite Hfrom in *. cbn [ahead].
  set (ah := group0 m ++ post) in *. clearbody ah.
  unfold re_year in Hm. cbn [seqs rmatch] in Hm.
  destruct (xorb _ _); [|done].
  assert (forall w, rmatch (lit w) (rmatch (seqs [rep 2 (Cls is_digit); Wordb]) Some)
                      (MState (rev pre ++ []) ah None) = Some (m_to m) ->
                    exists c d, is_digit c = true /\ is_digit d = true /\
                      take (length ah - length (ahead (m_to m))) ah = w ++ [c; d]) as Hw.
  { intros w (rest & -> & Hk)%rmatch_lit_inv.
    apply re_year_tail in Hk as (c & d & rest' & -> & Hc & Hd & ->).
    exists c, d. split; [done|]. split; [done|].
    rewrite !length_app. cbn [length].
    replace (length w + S (S (length rest')) - length rest')
      with (length (w ++ [c; d])) by (rewrite length_app; cbn; lia).
    replace (w ++ c :: d :: rest') with ((w ++ [c; d]) ++ rest')
      by (by rewrite <- app_assoc).
    by rewrite take_app_length. }
  change (rmatch (rep 2 (Cls is_digit)) (rmatch (Seq Wordb Eps) Some))
    with (rmatch (seqs [rep 2 (Cls is_digit); Wordb]) Some) in Hm.
  destruct (rmatch (lit (py "19")) _ _) as [e|] eqn:E.
  - injection Hm as ->. destruct (Hw _ E) as (c & d & Hc & Hd & ->).
    cbn. by rewrite Hc, Hd.
  - destruct (Hw _ Hm) as (c & d & Hc & Hd & ->). cbn. by rewrite Hc, Hd.
Qed.

Lemma is_year_one_line (y : str) : is_year y = true -> one_line y = true.
Proof.
  destruct y as [|a [|b [|c [|d [|? ?]]]]]; try done. cbn [is_year].
  intros [[Hab Hc]%andb_prop Hd]%andb_prop.
  assert (one_line [a; b] = true) as Hab'.
  { apply orb_prop in Hab as [->%str_eqb_eq| ->%str_eqb_eq]; reflexivity. }
  change (one_line ([a; b] ++ [c] ++ [d]) = true).
  rewrite !one_line_app, Hab'. cbn [one_line forallb].
  by rewrite (digit_one_line c Hc), (digit_one_line d Hd).
Qed.

Lemma format_citation_year (d : zotero_data) :
  let year := match re_search re_year (get (date d) []) with
              | Some m => group0 m
              | None => py "n.d."
              end in
  (year = py "n.d." /\ re_search re_year (get (date d) []) = None \/
   is_year year = true /\ exists pre post, get (date d) [] = pre ++ year ++ post) /\
  one_line year = true.
Proof.
  cbv zeta. destruct (re_search re_year (get (date d) [])) as [m|] eqn:E.
  - destruct (re_year_match _ _ E) as [Hy Hin]. split; [by right|].
    by apply is_year_one_line.
  - split; [by left|reflexivity].
Qed.

(** X9: a citation label is an author part, one blank and a year.  The
    year is four characters of the date, "19" or "20" and two digits,
    or "n.d." when the pattern finds no year in the date; it never
    holds a line end.  The author part is "Unknown" when no creator is
    an author, the last name of a sole author, "A & B" for two and
    "A et al." for more, with "Unknown" for an author without a last
    name; creators that are not authors do not show. *)
Theorem format_citation_shape (d : zotero_data) :
  exists author year,
    format_citation d = author ++ blank :: year /\
    (year = py "n.d." /\ re_search re_year (get (date d) []) = None \/
     is_year year = true /\ exists pre post, get (date d) [] = pre ++ year ++ post) /\
    one_line year = true /\
    author = match map shown_name (authors_of d) with
             | [] => py "Unknown"
             | [a] => a
             | [a; b] => a ++ py " & " ++ b
             | a :: _ => a ++ py " et al."
             end.
Proof.
  destruct (format_citation_year d) as [Hy Hl]. cbv zeta in Hy, Hl.
  unfold format_citation, authors_of, shown_name.
  eexists _, _. split; [reflexivity|]. split; [exact Hy|]. split; [exact Hl|].
  by destruct (List.filter is_author (creators d)) as [|a [|b [|c l]]].
Qed.

Lemma format_citation_one_line (d : zotero_data) :
  forallb (fun c => one_line (shown_name c)) (authors_of d) = true ->
  nonempty (format_citation d) = true /\ one_line (format_citation d) = true.
Proof.
  intros Ha. destruct (format_citation_year d) as [_ Hy]. cbv zeta in Hy.
  unfold format_citation. fold (authors_of d).
  set (year := match re_search re_year (get (date d) []) with
               | Some m => group0 m
               | None => py "n.d."
               end) in *.
  set (author := match authors_of d with [] => _ | _ => _ end).
  split; [by destruct author|].
  rewrite !one_line_app, Hy, andb_true_r. subst author.
  unfold shown_name in Ha.
  destruct (authors_of d) as [|a [|b [|c l]]]; cbn [forallb] in *.
  - reflexivity.
  - apply andb_prop in Ha as [-> _]. reflexivity.
  - apply andb_prop in Ha as [Ha [Hb _]%andb_prop].
    by rewrite !one_line_app, Ha, Hb.
  - apply andb_prop in Ha as [Ha _]. by rewrite one_line_app, Ha.
Qed.

(** X10: the "Processing" line written for a record is always matched
    by the pattern of the ledger parser, which reads back the label as
    it was written, whatever the date and the number of authors, as long
    as the last names shown hold no line end. *)
Theorem format_citation_read_back (d : zotero_data) (i n : nat) :
  forallb (fun c => one_line (shown_name c)) (authors_of d) = true ->
  classify (with_nl (nth 0 (log_processing i n (format_citation d) [] []) []))
  = ProcessingLine (Some (format_citation d)).
Proof.
  intros [Hne Hl]%format_citation_one_line. by apply classify_processing.
Qed.

Lemma format_citation_read_back_witness :
  let d := ItemData [Creator (Some (py "editor")) (Some (py "Roe"));
                     Creator (Some (py "author")) (Some (py "Smith"));
                     Creator (Some (py "author")) None]
                    (Some (py "March 2020")) None None None in
  format_citation d = py "Smith & Unknown 2020" /\
  classify (with_nl (nth 0 (log_processing 3 12 (format_citation d) [] []) []))
  = ProcessingLine (Some (format_citation d)).
Proof.
  intros d. split; [vm_compute; reflexivity|].
  apply (format_citation_read_back d 3 12). vm_compute. reflexivity.
Defined.

Lemma view_step_ignored (v : view) (raw : str) :
  is_ignored raw = true -> view_step v raw = v.
Proof. unfold is_ignored, view_step. by destruct (classify raw) as [|[?|]| | | |]. Qed.

Lemma fold_view_step_filter (lines : list str) (v : view) :
  fold_left view_step (List.filter (fun raw => negb (is_ignored raw)) lines) v
  = fold_left view_step lines v.
Proof.
  revert v. induction lines as [|raw lines IH]; intros v; [done|].
  cbn [List.filter fold_left]. destruct (is_ignored raw) eqn:E; cbn [negb].
  - by rewrite view_step_ignored.
  - cbn [fold_left]. apply IH.
Qed.

(** X11: the parser passes over every line that is empty, that begins
    with "=" or "-", or that is none of a "Processing", title, DOI or
    abstract line (each read without its line end and without a logging
    prefix): removing all such lines from the input, or adding any,
    does not change the entries. *)
Theorem parse_lines_ignores (lines : list str) :
  parse_lines (List.filter (fun raw => negb (is_ignored raw)) lines) = parse_lines lines /\
  (forall raw,
     line_body raw = [] \/ startswith (py "=") (line_body raw) = true
     \/ startswith (py "-") (line_body raw) = true ->
     is_ignored raw = true) /\
  (forall raw,
     is_ignored raw = false ->
     startswith (py "Processing [") (line_body raw) = true
     \/ startswith (py "Title:") (str_strip (line_body raw)) = true
     \/ startswith (py "DOI:") (str_strip (line_body raw)) = true
     \/ startswith (py "Abstract:") (str_strip (line_body raw)) = true).
Proof.
  split; [|split].
  - by rewrite !parse_lines_view, fold_view_step_filter.
  - intros raw H. unfold is_ignored, classify.
    destruct H as [->|[->| ->]]; [done| |]; by rewrite ?orb_true_r.
  - intros raw. unfold is_ignored, classify.
    destruct (_ || _ || _); [done|].
    destruct (startswith (py "Processing [") (line_body raw)); [by left|].
    destruct (startswith (py "Title:") _); [by right; left|].
    destruct (startswith (py "DOI:") _); [by right; right; left|].
    destruct (startswith (py "Abstract:") _); [by right; right; right|done].
Qed.

Lemma parse_lines_ignores_witness :
  parse_lines (file_lines (py "============
Fetching items missing abstracts from Zotero library...
Processing [1/1] Smith 2020
  DOI: 10.1/a
  Not found anywhere
  Abstract: some text
------------
")) = parse_lines stamped_ledger.
Proof.
  destruct (parse_lines_ignores (file_lines (py "============
Fetching items missing abstracts from Zotero library...
Processing [1/1] Smith 2020
  DOI: 10.1/a
  Not found anywhere
  Abstract: some text
------------
"))) as (<- & _). vm_compute. reflexivity.
Defined.

Lemma unshared_step (st : pstate) (raw : str) :
  implb (is_processing raw) (is_marker raw) = true ->
  unshared st -> unshared (process_line st raw).
Proof.
  unfold is_processing, is_marker, process_line.
  destruct (classify raw) as [|[c|]|x|x|x|]; try done; intros _ (Hnd & Hcur & Hlt & Hc).
  - unfold flush. destruct (ready _); unfold assign_new, unshared;
      cbn [updates current_item heap]; rewrite length_app; cbn [length].
    + split; [|split; [|split]].
      * apply NoDup_app. split; [done|]. split; [|apply NoDup_singleton].
        intros r Hr ->%list_elem_of_singleton. done.
      * intros [Hin|Heq%list_elem_of_singleton]%elem_of_app; [|lia].
        rewrite Forall_forall in Hlt. apply Hlt in Hin. lia.
      * apply Forall_app. split; [|repeat constructor; lia].
        eapply Forall_impl; [exact Hlt|]. cbn. lia.
      * lia.
    + split; [done|]. split; [|split].
      * intros Hin. rewrite Forall_forall in Hlt. apply Hlt in Hin. lia.
      * eapply Forall_impl; [exact Hlt|]. cbn. lia.
      * lia.
  - unfold store, unshared. cbn [updates current_item heap]. by rewrite length_alter.
  - unfold store, unshared. cbn [updates current_item heap]. by rewrite length_alter.
  - unfold store, unshared. cbn [updates current_item heap]. by rewrite length_alter.
Qed.

Lemma view_count_step (v : view) (raw : str) :
  length (view_list (view_step v raw))
  <= length (view_list v) + (if is_processing raw then 1 else 0).
Proof.
  unfold view_step, is_processing.
  destruct (classify raw) as [|[c|]|x|x|x|]; try (cbn; lia);
    try (unfold view_store, view_list; cbn [settled pending current];
         rewrite !length_app, !length_replicate; lia).
  - unfold view_flush. destruct (ready _); unfold view_list;
      cbn [settled pending current replicate]; rewrite ?app_nil_r, !length_app;
      cbn [length replicate]; rewrite ?length_replicate; lia.
  - unfold view_flush. destruct (ready _); unfold view_list;
      cbn [settled pending current]; rewrite !length_app, !length_replicate; lia.
Qed.

(** X12: when every line that begins with "Processing [" is matched by
    the pattern (it has its counter "n/m" and a citation), no dict is
    appended to [updates] twice: every entry of the result is a dict of
    its own.  In any case (well-formed or not) there are never more
    entries than "Processing" lines plus one. *)
Theorem parse_state_unshared (lines : list str) :
  (well_formed lines = true -> NoDup (updates (parse_state lines))) /\
  length (parse_lines lines) <= S (count_processing lines).
Proof.
  split.
  - intros Hwf. unfold parse_state.
    assert (unshared (fold_left process_line lines pstate_init)) as (Hnd & Hcur & _).
    { assert (unshared pstate_init) as H0.
      { repeat split; cbn; [constructor|by intros ?%elem_of_nil|constructor|lia]. }
      revert H0 Hwf. generalize pstate_init. unfold well_formed.
      induction lines as [|raw lines IH]; intros st H0; [done|].
      cbn [forallb fold_left]. intros [Hraw Hwf]%andb_prop.
      apply IH; [|done]. by apply unshared_step. }
    unfold flush. destruct (ready _); [|done]. cbn [updates].
    apply NoDup_app. split; [done|]. split; [|apply NoDup_singleton].
    intros r Hr ->%list_elem_of_singleton. done.
  - rewrite parse_lines_view. unfold view_result, count_processing.
    assert (forall v, length (view_list (fold_left view_step lines v))
                      <= length (view_list v) + length (List.filter is_processing lines))
      as H.
    { induction lines as [|raw lines IH]; intros v; [cbn; lia|].
      cbn [fold_left List.filter]. specialize (IH (view_step v raw)).
      pose proof (view_count_step v raw).
      destruct (is_processing raw); cbn [length]; lia. }
    specialize (H view_init). change (length (view_list view_init)) with 0 in H.
    set (v := fold_left view_step lines view_init) in *.
    unfold view_flush. destruct (ready _); [|lia].
    unfold view_list in *. cbn [settled pending current].
    rewrite !length_app, !length_replicate in *. lia.
Qed.

Lemma parse_state_unshared_witness : NoDup (updates (parse_state plain_ledger)).
Proof.
  apply (proj1 (parse_state_unshared plain_ledger)). vm_compute. reflexivity.
Defined.

Lemma fold_view_step_fields (body : list str) (v : view) :
  forallb (fun raw => negb (is_processing raw)) body = true ->
  exists c,
    fold_left view_step body v = View (settled v) (pending v) c /\
    citation c = citation (current v) /\
    has_key (title c) = has_key (title (current v)) || existsb is_title_line body /\
    has_key (doi c) = has_key (doi (current v)) || existsb is_doi_line body /\
    has_key (abstract c) = has_key (abstract (current v)) || existsb is_abstract_line body.
Proof.
  revert v. induction body as [|raw body IH]; intros v.
  - intros _. exists (current v). destruct v. cbn. by rewrite !orb_false_r.
  - cbn [forallb fold_left existsb]. intros [Hraw Hbody]%andb_prop.
    destruct (IH (view_step v raw) Hbody) as (c & -> & Hc & Ht & Hd & Ha).
    exists c. rewrite Hc, Ht, Hd, Ha.
    unfold is_processing, is_title_line, is_doi_line, is_abstract_line, view_step in *.
    destruct (classify raw) as [|[?|]| | | |]; try done;
      cbn [view_store settled pending current set_title set_doi set_abstract
           citation title doi abstract has_key orb];
      rewrite ?orb_true_r; done.
Qed.

(** X13: field lines that come before any "Processing" line are not
    dropped: they are written into the dict the parser starts with.
    For an input without a "Processing" line the result is one entry
    without a citation when the input has a DOI line and an abstract
    line, and no entry otherwise. *)
Theorem parse_lines_without_processing (lines : list str) :
  forallb (fun raw => negb (is_processing raw)) lines = true ->
  if existsb is_doi_line lines && existsb is_abstract_line lines
  then exists t d a, parse_lines lines = [LedgerItem None t (Some d) (Some a)] /\
                     has_key t = existsb is_title_line lines
  else parse_lines lines = [].
Proof.
  intros H. rewrite parse_lines_view.
  destruct (fold_view_step_fields lines view_init H) as (c & -> & Hc & Ht & Hd & Ha).
  cbn [view_init settled pending current empty_item citation title doi abstract
       has_key orb] in *.
  unfold view_result, view_flush, ready, dict_truthy. cbn [current settled pending].
  destruct c as [cc ct cd ca]. cbn [citation title doi abstract] in *. subst cc.
  rewrite Hd, Ha, <- Ht.
  destruct (existsb is_doi_line lines), (existsb is_abstract_line lines);
    cbn [andb orb has_key] in *; rewrite ?orb_true_r, ?orb_false_r, ?andb_false_r;
    cbn [andb]; try reflexivity.
  destruct cd as [d|]; [|done]. destruct ca as [a|]; [|done].
  exists ct, d, a. split; [|done]. reflexivity.
Qed.

Lemma parse_lines_without_processing_witness :
  exists t d a,
    parse_lines (file_lines (py "  DOI: 10.1/a
  Abstract: some text
")) = [LedgerItem None t (Some d) (Some a)].
Proof.
  pose proof (parse_lines_without_processing (file_lines (py "  DOI: 10.1/a
  Abstract: some text
")) eq_refl) as H.
  destruct H as (t & d & a & H & _). by exists t, d, a.
Defined.

Lemma update_zotero_abstract_effect {library}
    (update_item : library -> payload -> str + library)
    (item_key : str) (item_version : nat) (abstract : str)
    (item_data : zotero_data) (dry_run : bool) (w : world) :
  let r := update_zotero_abstract update_item item_key item_version abstract
             item_data dry_run w in
  let sent := Payload item_key item_version (set_abstractNote abstract item_data) in
  verbose r.1.1 = verbose w /\ scan_counters (stats r.1.1) = scan_counters (stats w) /\
  if dry_run then
    r = (with_stats bump_updated
           (log_all (log_dry_run (format_citation item_data) abstract) w), item_data, true) /\
    zot r.1.1 = zot w /\ write_calls r.1.1 = write_calls w /\
    abstracts_updated (stats r.1.1) = S (abstracts_updated (stats w)) /\
    errors (stats r.1.1) = errors (stats w)
  else
    r.1.2 = set_abstractNote abstract item_data /\
    write_calls r.1.1 = write_calls w ++ [sent] /\
    match update_item (zot w) sent with
    | inr z =>
        r.2 = true /\ zot r.1.1 = z /\
        abstracts_updated (stats r.1.1) = S (abstracts_updated (stats w)) /\
        errors (stats r.1.1) = errors (stats w)
    | inl e =>
        r.2 = false /\ zot r.1.1 = zot w /\
        abstracts_updated (stats r.1.1) = abstracts_updated (stats w) /\
        errors (stats r.1.1) = S (errors (stats w))
    end.
Proof.
  unfold update_zotero_abstract. destruct dry_run.
  - cbn -[log_all log_dry_run format_citation].
    destruct (log_all_frame (log_dry_run (format_citation item_data) abstract) w)
      as (-> & -> & -> & ->).
    done.
  - cbv zeta. cbn [zot write_calls verbose log_file stats].
    destruct (update_item (zot w) _) as [e|z].
    + cbn [fst snd with_stats stats zot write_calls verbose].
      match goal with |- context [log ?m ?w'] => destruct (log_frame m w') as (-> & -> & -> & ->) end.
      done.
    + cbn [fst snd].
      match goal with |- context [log_all ?m ?w'] =>
        destruct (log_all_frame m w') as (-> & -> & -> & ->) end.
      done.
Qed.

(** X14: a live call of the applier.  The record's abstract is set
    first, in the record itself; then exactly one write is sent to the
    library, with the key and the version of the record and its data
    with the new abstract.  When the write succeeds the call returns
    [True] and adds one to [abstracts_updated]; when it raises the call
    returns [False], adds one to [errors], leaves the library as it was,
    and the record keeps the new abstract. *)
Theorem update_zotero_abstract_live {library}
    (update_item : library -> payload -> str + library)
    (item_key : str) (item_version : nat) (abstract : str)
    (item_data : zotero_data) (w : world) :
  let r := update_zotero_abstract update_item item_key item_version abstract
             item_data false w in
  let sent := Payload item_key item_version (set_abstractNote abstract item_data) in
  r.1.2 = set_abstractNote abstract item_data /\
  write_calls r.1.1 = write_calls w ++ [sent] /\
  scan_counters (stats r.1.1) = scan_counters (stats w) /\
  match update_item (zot w) sent with
  | inr z =>
      r.2 = true /\ zot r.1.1 = z /\
      abstracts_updated (stats r.1.1) = S (abstracts_updated (stats w)) /\
      errors (stats r.1.1) = errors (stats w)
  | inl e =>
      r.2 = false /\ zot r.1.1 = zot w /\
      abstracts_updated (stats r.1.1) = abstracts_updated (stats w) /\
      errors (stats r.1.1) = S (errors (stats w))
  end.
Proof.
  intros r sent.
  destruct (update_zotero_abstract_effect update_item item_key item_version abstract
              item_data false w) as (_ & Hs & Hd & Hw & Hm).
  by repeat split.
Qed.

Lemma process_update_effect {library}
    (update_item : library -> payload -> str + library)
    (all_items : list item) (dry_run : bool) (n : nat) (w : world)
    (i : nat) (u : ledger_item) :
  let w' := process_update update_item all_items (build_doi_lookup all_items)
              dry_run n w (i, u) in
  let hit := has_key (find_matching_item all_items (build_doi_lookup all_items) u).2 in
  verbose w' = verbose w /\ scan_counters (stats w') = scan_counters (stats w) /\
  abstracts_updated (stats w') + errors (stats w')
    = S (abstracts_updated (stats w) + errors (stats w)) /\
  (exists new, write_calls w' = write_calls w ++ new /\
               length new = if hit && negb dry_run then 1 else 0) /\
  errors (stats w) + (if hit then 0 else 1) <= errors (stats w') /\
  (dry_run = true ->
     zot w' = zot w /\
     errors (stats w') = errors (stats w) + if hit then 0 else 1).
Proof.
  unfold process_update. destruct u as [c t d a]. cbv zeta.
  destruct (find_matching_item all_items (build_doi_lookup all_items)
              (LedgerItem c t d a)) as [messages [it|]]; cbn [snd has_key andb].
  - set (w1 := log_all messages (log_all _ w)).
    assert (zot w1 = zot w /\ write_calls w1 = write_calls w /\ stats w1 = stats w
            /\ verbose w1 = verbose w) as (Hz & Hw & Hs & Hv).
    { subst w1.
      destruct (log_all_frame messages
                  (log_all (log_processing i n (get c (py "Unknown")) (get t (py "Unknown"))
                              (get d [])) w)) as (-> & -> & -> & ->).
      apply log_all_frame. }
    destruct (update_zotero_abstract_effect update_item (key it) (version it) (get a [])
                (data it) dry_run w1) as (Hv' & Hsc & H).
    cbv zeta in *. rewrite Hv', Hsc, Hv, Hs. split; [done|]. split; [done|].
    destruct dry_run; cbn [negb].
    + destruct H as (_ & Hz' & Hw' & Hu & He). rewrite Hu, He, Hz', Hw', Hz, Hw, Hs.
      split; [lia|]. split; [exists []; by rewrite app_nil_r|].
      split; [lia|]. intros _. split; [done|lia].
    + destruct H as (_ & Hw' & H). rewrite Hw', Hw.
      destruct (update_item (zot w1) _) as [e|z];
        destruct H as (_ & _ & -> & ->); rewrite Hs;
        (split; [lia|]); (split; [by eexists|]); (split; [lia|done]).
  - set (w1 := log _ (log_all messages (log_all _ w))).
    assert (zot w1 = zot w /\ write_calls w1 = write_calls w /\ stats w1 = stats w
            /\ verbose w1 = verbose w) as (Hz & Hw & Hs & Hv).
    { subst w1.
      match goal with |- context [log ?m ?w'] => destruct (log_frame m w') as (-> & -> & -> & ->) end.
      destruct (log_all_frame messages
                  (log_all (log_processing i n (get c (py "Unknown")) (get t (py "Unknown"))
                              (get d [])) w)) as (-> & -> & -> & ->).
      apply log_all_frame. }
    unfold with_stats. cbn [zot write_calls verbose stats bump_errors scan_counters
      total_checked missing_abstract missing_abstract_with_doi abstracts_found
      abstracts_updated errors].
    rewrite Hz, Hw, Hs, Hv. split; [done|]. split; [done|]. split; [lia|].
    split; [exists []; by rewrite app_nil_r|]. split; [lia|]. intros _. split; [done|lia].
Qed.

Lemma process_updates_effect {library}
    (update_item : library -> payload -> str + library)
    (all_items : list item) (dry_run : bool) (n : nat)
    (updates : list ledger_item) (i : nat) (w : world) :
  let w' := fold_left (process_update update_item all_items (build_doi_lookup all_items)
                         dry_run n)
                      (zip (seq i (length updates)) updates) w in
  verbose w' = verbose w /\ scan_counters (stats w') = scan_counters (stats w) /\
  abstracts_updated (stats w') + errors (stats w')
    = abstracts_updated (stats w) + errors (stats w) + length updates /\
  (exists new, write_calls w' = write_calls w ++ new /\
               length new = if dry_run then 0 else length (matched all_items updates)) /\
  errors (stats w) + (length updates - length (matched all_items updates))
    <= errors (stats w') /\
  (dry_run = true ->
     zot w' = zot w /\
     errors (stats w') = errors (stats w)
                         + (length updates - length (matched all_items updates))).
Proof.
  revert i w. induction updates as [|u updates IH]; intros i w.
  - cbn. repeat split; try lia. exists []. rewrite app_nil_r. by destruct dry_run.
  - cbn [length seq zip zip_with fold_left].
    destruct (process_update_effect update_item all_items dry_run n w i u)
      as (Hv & Hsc & Hsum & (new & Hw & Hnew) & Hmiss & Hdry).
    cbv zeta in *.
    set (w1 := process_update update_item all_items (build_doi_lookup all_items)
                 dry_run n w (i, u)) in *.
    destruct (IH (S i) w1) as (Hv' & Hsc' & Hsum' & (new' & Hw' & Hnew') & Hmiss' & Hdry').
    cbv zeta in *.
    set (w2 := fold_left _ _ w1) in *.
    assert (length (matched all_items (u :: updates))
            = (if has_key (find_matching_item all_items (build_doi_lookup all_items) u).2
               then 1 else 0) + length (matched all_items updates)) as Hm.
    { unfold matched. cbn [List.filter]. by destruct (has_key _). }
    assert (length (matched all_items updates) <= length updates) as Hle.
    { unfold matched. clear. induction updates as [|x l IHl]; [done|]. cbn.
      destruct (has_key _); cbn; lia. }
    rewrite Hv', Hsc', Hsum', Hsum, Hv, Hsc, Hm.
    split; [done|]. split; [done|]. split; [lia|]. split; [|split].
    + exists (new ++ new'). rewrite Hw', Hw, <- app_assoc. split; [done|].
      rewrite length_app, Hnew, Hnew'.
      destruct dry_run; destruct (has_key _); cbn; lia.
    + destruct (has_key _); lia.
    + intros ->. destruct (Hdry eq_refl) as [Hz He].
      destruct (Hdry' eq_refl) as [Hz' He']. rewrite Hz', Hz, He', He.
      split; [done|]. destruct (has_key _); lia.
Qed.

(** X15: the replay accounts for every entry of the ledger once: after
    the loop, [abstracts_updated] and [errors] together have grown by
    the number of entries, and the counters of the scan are as they
    were.  No write is sent for an entry that matches no record, and at
    most one for an entry that does; a preview sends none, leaves the
    library as it was, and counts as errors exactly the entries that
    match no record. *)
Theorem process_from_updates_file_accounts {library}
    (update_item : library -> payload -> str + library)
    (all_items : list item) (updates : list ledger_item) (dry_run : bool) (w : world) :
  let w' := process_from_updates_file update_item all_items updates dry_run w in
  let unmatched := length updates - length (matched all_items updates) in
  abstracts_updated (stats w') + errors (stats w')
    = abstracts_updated (stats w) + errors (stats w) + length updates /\
  scan_counters (stats w') = scan_counters (stats w) /\
  (exists new, write_calls w' = write_calls w ++ new /\
               length new = if dry_run then 0 else length (matched all_items updates)) /\
  errors (stats w) + unmatched <= errors (stats w') /\
  (dry_run = true ->
     zot w' = zot w /\ write_calls w' = write_calls w /\
     errors (stats w') = errors (stats w) + unmatched /\
     abstracts_updated (stats w') = abstracts_updated (stats w)
                                    + length (matched all_items updates)).
Proof.
  intros w' unmatched.
  destruct (process_updates_effect update_item all_items dry_run (length updates)
              updates 1 w) as (_ & Hsc & Hsum & (new & Hw & Hnew) & Hmiss & Hdry).
  fold (process_from_updates_file update_item all_items updates dry_run w) in *.
  fold w' in Hsc, Hsum, Hw, Hmiss, Hdry.
  split; [done|]. split; [done|]. split; [by exists new|]. split; [done|].
  intros ->. destruct (Hdry eq_refl) as [Hz He]. split; [done|].
  split; [|split; [done|]].
  - destruct new; [by rewrite Hw, app_nil_r|done].
  - assert (length (matched all_items updates) <= length updates).
    { unfold matched. clear. induction updates as [|x l IHl]; [done|]. cbn.
      destruct (has_key _); cbn; lia. }
    fold unmatched in He. subst unmatched. lia.
Qed.

Lemma process_from_updates_file_accounts_witness :
  let upd := [LedgerItem (Some (py "Doe 2020")) (Some (py "No such title"))
                         (Some (py "10.9/none")) (Some (py "text"));
              LedgerItem None None (Some (py "doi:10.1/X")) (Some (py "text"))] in
  let w := World tt [] true [] stats_init in
  let w' := process_from_updates_file (fun z _ => inr z) [record_x; record_y] upd true w in
  write_calls w' = [] /\ errors (stats w') = 1 /\ abstracts_updated (stats w') = 1.
Proof.
  intros upd w w'.
  destruct (process_from_updates_file_accounts (fun (z : unit) _ => @inr str unit z)
              [record_x; record_y] upd true w) as (_ & _ & _ & _ & H).
  destruct (H eq_refl) as (_ & Hw & He & Hu).
  split; [exact Hw|].
  split; (etransitivity; [first [exact He|exact Hu]|]); vm_compute; reflexivity.
Defined.

(** ** The replay finds the record an entry was made from *)

Lemma doi_keys_field (it : item) :
  str_strip (get (DOI (data it)) []) <> [] ->
  doi_keys it = [clean_doi (str_strip (get (DOI (data it)) []));
                 str_strip (get (DOI (data it)) [])].
Proof. unfold doi_keys. by destruct (str_strip (get (DOI (data it)) [])). Qed.

(** X16: an entry that carries the cleaned DOI of a record, as the scan
    of a discovery run writes it, is matched by the replay to that very
    record, by DOI, provided no other record of the library is filed
    under that DOI or under its cleaned form. *)
Theorem find_matching_item_finds_source (all_items : list item) (it : item)
    (c t a : option str) :
  let field := str_strip (get (DOI (data it)) []) in
  In it all_items -> field <> [] ->
  (forall it' k, In it' all_items -> In k (doi_keys it') ->
     k = clean_doi field \/ k = clean_doi (clean_doi field) -> it' = it) ->
  find_matching_item all_items (build_doi_lookup all_items)
    (LedgerItem c t (Some (clean_doi field)) a) = ([], Some it).
Proof.
  intros field Hin Hne Huniq. unfold find_matching_item.
  change (get (Some (clean_doi field)) []) with (clean_doi field).
  destruct (build_doi_lookup all_items !! clean_doi (clean_doi field)) as [it'|] eqn:E1.
  - apply build_doi_lookup_sound in E1 as [Hin' Hk].
    by rewrite (Huniq it' _ Hin' Hk (or_intror eq_refl)).
  - destruct (build_doi_lookup_complete all_items (clean_doi field) it Hin)
      as (it' & E2 & Hk).
    { rewrite (doi_keys_field it Hne). by left. }
    rewrite E2. apply build_doi_lookup_sound in E2 as [Hin' _].
    by rewrite (Huniq it' _ Hin' Hk (or_introl eq_refl)).
Qed.

Lemma find_matching_item_finds_source_witness :
  find_matching_item [record_y; record_x] (build_doi_lookup [record_y; record_x])
    (LedgerItem None None (Some (py "10.1/X")) None) = ([], Some record_x).
Proof.
  apply (find_matching_item_finds_source [record_y; record_x] record_x None None None).
  - right. left. reflexivity.
  - discriminate.
  - intros it' k [<-|[<-|[]]] Hk [->| ->]; try reflexivity; exfalso;
      vm_compute in Hk; destruct Hk as [Hk|[Hk|[]]]; discriminate.
Defined.

(** X17: a record whose DOI field is empty or blank is filed under no
    key, so the two DOI lookups never return it: when the replay matches
    such a record, it is by its title, after the message that the DOI
    lookup failed.  This is the case of the records for which the scan
    took the DOI from the URL. *)
Theorem find_matching_item_needs_field (all_items : list item) (update : ledger_item)
    (it : item) (messages : list str) :
  find_matching_item all_items (build_doi_lookup all_items) update = (messages, Some it) ->
  str_strip (get (DOI (data it)) []) = [] ->
  messages = [py "  DOI lookup failed, attempting title match for: "
                ++ get (title update) (py "Unknown");
              py "  Found match by title"] /\
  same_title (get (title update) (py "Unknown")) it = true /\ In it all_items.
Proof.
  unfold find_matching_item. destruct update as [c t d a]. cbn [title].
  intros H Hfield.
  assert (forall k, build_doi_lookup all_items !! k = Some it -> False) as Hno.
  { intros k [_ Hk]%build_doi_lookup_sound. unfold doi_keys in Hk.
    by rewrite Hfield in Hk. }
  destruct (build_doi_lookup all_items !! clean_doi (get d [])) as [x|] eqn:E1.
  { injection H as _ ->. by apply Hno in E1. }
  destruct (build_doi_lookup all_items !! get d []) as [x|] eqn:E2.
  { injection H as _ ->. by apply Hno in E2. }
  rewrite find_by_title_find in H.
  destruct (List.find _ all_items) as [x|] eqn:E3; [|done].
  injection H as <- ->. apply find_some in E3 as [? ?]. done.
Qed.

Lemma find_matching_item_needs_field_witness :
  let it := Item (py "K") 1 (ItemData [] None None (Some (py "A Title")) None) in
  same_title (py "a title ") it = true /\ In it [it].
Proof.
  intros it.
  refine (proj2 (find_matching_item_needs_field [it]
            (LedgerItem None (Some (py "a title ")) (Some (py "10.1/z")) None) it _ _ _)).
  - vm_compute. reflexivity.
  - vm_compute. reflexivity.
Defined.

Lemma traced_refl {library} (w : @world library) : traced w w [].
Proof. unfold traced. destruct (verbose w); by rewrite app_nil_r. Qed.

Lemma traced_trans {library} (w1 w2 w3 : @world library) (ms1 ms2 : list str) :
  traced w1 w2 ms1 -> traced w2 w3 ms2 -> traced w1 w3 (ms1 ++ ms2).
Proof.
  intros (Hz & Hw & Hv & Hl) (Hz' & Hw' & Hv' & Hl'). unfold traced.
  rewrite Hz', Hz, Hw', Hw, Hv', Hv, Hl', Hl, Hv. repeat split.
  destruct (verbose w1); by rewrite <- ?app_assoc.
Qed.

Lemma traced_log {library} (m : str) (w : @world library) :
  traced w (log m w) [m] /\ stats (log m w) = stats w.
Proof. unfold traced, log. destruct (verbose w) eqn:E; cbn; by rewrite ?E, ?app_nil_r. Qed.

Lemma traced_log_all {library} (ms : list str) (w : @world library) :
  traced w (log_all ms w) ms /\ stats (log_all ms w) = stats w.
Proof.
  revert w. induction ms as [|m ms IH]; intros w; [split; [apply traced_refl|done]|].
  change (log_all (m :: ms) w) with (log_all ms (log m w)).
  destruct (IH (log m w)) as [Ht ->]. destruct (traced_log m w) as [Ht' ->].
  split; [|done]. exact (traced_trans _ _ _ [m] ms Ht' Ht).
Qed.

Lemma traced_with_stats {library} (f : stats_t -> stats_t) (w : @world library) :
  traced w (with_stats f w) [].
Proof. unfold traced, with_stats. cbn. destruct (verbose w); by rewrite app_nil_r. Qed.

Lemma read_updates_traced {library} (read_error : str) (f : file) (w : @world library) :
  let r := read_updates read_error f w in
  traced w r.1 (read_messages read_error f) /\ stats r.1 = stats w /\
  r.2 = parse_abstract_updates_file f.
Proof.
  destruct f as [| |text]; cbn [read_updates read_messages fst snd].
  - split; [apply traced_refl|done].
  - destruct (traced_log (py "Reading updates from abstract_updates.txt...") w) as [H1 H1'].
    destruct (traced_log (py "Error reading abstract_updates.txt: " ++ read_error)
                (log (py "Reading updates from abstract_updates.txt...") w)) as [H2 H2'].
    cbv zeta. rewrite H2', H1'. split; [|done].
    exact (traced_trans _ _ _ [_] [_] H1 H2).
  - destruct (traced_log (py "Reading updates from abstract_updates.txt...") w) as [H1 H1'].
    destruct (traced_log (py "Found " ++ dec (length (parse_lines (file_lines text)))
                            ++ py " items in abstract_updates.txt")
                (log (py "Reading updates from abstract_updates.txt...") w)) as [H2 H2'].
    cbv zeta. cbn [fst snd]. rewrite H2', H1'.
    split; [|split; [done|]].
    2: { unfold parse_abstract_updates_file. by destruct (parse_lines (file_lines text)). }
    exact (traced_trans _ _ _ [_] [_] H1 H2).
Qed.

Lemma get_items_missing_abstracts_traced {library}
    (everything_items : library -> list library_item)
    (everything_collection_items : library -> str -> list library_item)
    (collection_key : option str) (limit : option Z) (w : @world library) :
  let items := scanned everything_items everything_collection_items collection_key (zot w) in
  let r := get_items_missing_abstracts everything_items everything_collection_items
             collection_key limit w in
  traced w r.1 (scan_messages limit (length (selected items))).
Proof.
  cbv zeta. unfold get_items_missing_abstracts, scanned. cbv zeta.
  destruct (traced_log (py "Fetching items missing abstracts from Zotero library...") w)
    as [H1 H1'].
  set (w1 := log _ w) in *.
  assert (zot w1 = zot w) as -> by apply H1. rewrite H1'.
  set (items := match collection_key with
                | Some (c :: k) => everything_collection_items (zot w) (c :: k)
                | _ => everything_items (zot w)
                end).
  pose proof (scan_item_fold items (stats w) []) as Hfold. cbv zeta in Hfold.
  destruct (fold_left scan_item items (stats w, [])) as [st missing] eqn:E.
  cbn [fst snd] in *. destruct Hfold as (-> & _). cbn [app].
  pose proof (traced_with_stats (fun _ => st) w1) as H2.
  set (w2 := with_stats _ w1) in *.
  destruct (traced_log (py "Found " ++ dec (length (selected items))
                          ++ py " items missing abstracts with DOIs") w2) as [H3 _].
  set (w3 := log _ w2) in *.
  pose proof (traced_trans _ _ _ _ _ (traced_trans _ _ _ _ _ H1 H2) H3) as H123.
  cbn [app] in H123. unfold scan_messages.
  destruct limit as [l|].
  - destruct (negb (l =? 0)%Z && (l <? Z.of_nat (length (selected items)))%Z).
    + cbn [fst snd].
      destruct (traced_log (py "Limiting to first " ++ dec_int l ++ py " items") w3)
        as [H4 _].
      exact (traced_trans _ _ _ _ _ H123 H4).
    + cbn [fst snd]. by rewrite app_nil_r.
  - cbn [fst snd]. by rewrite app_nil_r.
Qed.

Lemma reconstruct_abstract_nil : reconstruct_abstract [] = [].
Proof. reflexivity. Qed.

Lemma fetch_abstract_from_openalex_traced {library} (answer : response) (doi : str)
    (w : @world library) :
  let r := fetch_abstract_from_openalex answer doi w in
  traced w r.1 (fetch_messages answer doi) /\ r.2 = answer_abstract answer /\
  abstracts_updated (stats r.1) = abstracts_updated (stats w).
Proof.
  unfold fetch_abstract_from_openalex, fetch_messages, answer_abstract.
  destruct (traced_log (py "  No abstract available in OpenAlex for: " ++ doi) w)
    as [Hnone Hsnone].
  destruct answer as [|e|[index|]]; cbv zeta.
  - destruct (traced_log (py "  Not found in OpenAlex: " ++ doi) w) as [H Hs].
    cbn [fst snd]. by rewrite Hs.
  - destruct (traced_log (py "  Error fetching from OpenAlex: " ++ e) w) as [H Hs].
    cbn [fst snd].
    split; [|by unfold with_stats; cbn [stats bump_errors abstracts_updated]; rewrite Hs].
    pose proof (traced_trans _ _ _ _ _ H (traced_with_stats bump_errors _)) as H'.
    by rewrite app_nil_r in H'.
  - destruct index as [|e0 rest]; [by cbn [fst snd]; rewrite Hsnone|].
    destruct (reconstruct_abstract (e0 :: rest)) as [|c a];
      [by cbn [fst snd]; rewrite Hsnone|].
    cbn [fst snd]. split; [apply traced_with_stats|done].
  - cbn [fst snd]. by rewrite Hsnone.
Qed.

Lemma answer_abstract_nonempty (answer : response) (a : str) :
  answer_abstract answer = Some a -> a <> [].
Proof.
  unfold answer_abstract. destruct answer as [|e|[index|]]; try done.
  destruct (reconstruct_abstract index); [done|]. by intros [= <-].
Qed.

Lemma process_item_traced {library}
    (update_item : library -> payload -> str + library)
    (openalex : nat -> str -> response) (n : nat) (w : @world library)
    (ii : nat * abstract_item) :
  let w' := process_item update_item openalex true n w ii in
  traced w w' (item_messages openalex n ii) /\
  abstracts_updated (stats w')
  = abstracts_updated (stats w)
    + if has_key (answer_abstract (openalex ii.1 (ai_doi ii.2))) then 1 else 0.
Proof.
  destruct ii as [i it]. unfold process_item, item_messages. cbv zeta. cbn [fst snd].
  destruct (traced_log_all
              (log_processing i n (format_citation (ai_data it)) (ai_title it) (ai_doi it)) w)
    as [H1 Hs1].
  set (w1 := log_all _ w) in *.
  destruct (fetch_abstract_from_openalex_traced (openalex i (ai_doi it)) (ai_doi it) w1)
    as (H2 & Hr & Hs2).
  cbv zeta in *.
  destruct (fetch_abstract_from_openalex (openalex i (ai_doi it)) (ai_doi it) w1)
    as [w2 abstract]. cbn [fst snd] in *. subst abstract.
  destruct (answer_abstract (openalex i (ai_doi it))) as [a|] eqn:Ea.
  - pose proof (answer_abstract_nonempty _ _ Ea) as Hne.
    destruct a as [|c a]; [done|].
    destruct (update_zotero_abstract_effect update_item (ai_key it) (ai_version it)
                (c :: a) (ai_data it) true w2) as (_ & _ & -> & _ & _ & Hu & _).
    cbn [fst snd] in *. rewrite Hu. unfold with_stats at 1. cbn [stats].
    destruct (traced_log_all (log_dry_run (format_citation (ai_data it)) (c :: a)) w2)
      as [H3 Hs3].
    split.
    + unfold fetch_messages in H2. rewrite Ea in H2.
      pose proof (traced_trans _ _ _ _ _ (traced_trans _ _ _ _ _ H1 H2)
                    (traced_trans _ _ _ _ _ H3 (traced_with_stats bump_updated _))) as H.
      by rewrite !app_nil_r in H.
    + cbn [has_key]. rewrite Hs2, Hs1. lia.
  - split; [exact (traced_trans _ _ _ _ _ H1 H2)|]. rewrite Hs2, Hs1. cbn [has_key]. lia.
Qed.

Lemma process_items_traced {library}
    (update_item : library -> payload -> str + library)
    (openalex : nat -> str -> response) (n : nat)
    (iis : list (nat * abstract_item)) (w : @world library) :
  let w' := fold_left (process_item update_item openalex true n) iis w in
  traced w w' (concat (map (item_messages openalex n) iis)) /\
  abstracts_updated (stats w')
  = abstracts_updated (stats w)
    + length (List.filter (fun ii => has_key (answer_abstract (openalex ii.1 (ai_doi ii.2))))
                          iis).
Proof.
  revert w. induction iis as [|ii iis IH]; intros w.
  - cbn. split; [apply traced_refl|lia].
  - cbn [fold_left map concat List.filter].
    destruct (process_item_traced update_item openalex n w ii) as [H1 Hs1].
    cbv zeta in *.
    destruct (IH (process_item update_item openalex true n w ii)) as [H2 Hs2].
    cbv zeta in *. split; [exact (traced_trans _ _ _ _ _ H1 H2)|].
    rewrite Hs2, Hs1.
    destruct (answer_abstract (openalex ii.1 (ai_doi ii.2))); cbn [has_key length]; lia.
Qed.

Lemma print_summary_traced {library} (dry_run : bool) (w : @world library) :
  traced w (print_summary dry_run w) (summary_messages dry_run (stats w)) /\
  stats (print_summary dry_run w) = stats w.
Proof.
  unfold print_summary, summary_messages. cbv zeta.
  destruct (traced_log_all (summary_lines dry_run (stats w)) w) as [H1 Hs1].
  rewrite Hs1.
  destruct (dry_run && (0 <? abstracts_updated (stats w))).
  - destruct (traced_log to_apply (log_all (summary_lines dry_run (stats w)) w))
      as [H2 Hs2].
    split; [exact (traced_trans _ _ _ _ _ H1 H2)|].
    etransitivity; [exact Hs2|exact Hs1].
  - split; [by rewrite app_nil_r|done].
Qed.

Lemma replay_effect {library}
    (update_item : library -> payload -> str + library)
    (everything_items : library -> list library_item)
    (updates : list ledger_item) (dry_run : bool) (w : @world library) :
  let w' := replay update_item everything_items updates dry_run w in
  let all_items := map li_item (everything_items (zot w)) in
  scan_counters (stats w') = scan_counters (stats w) /\
  abstracts_updated (stats w') + errors (stats w')
    = abstracts_updated (stats w) + errors (stats w) + length updates /\
  (exists new, write_calls w' = write_calls w ++ new /\
               length new = if dry_run then 0 else length (matched all_items updates)) /\
  (dry_run = true -> zot w' = zot w).
Proof.
  unfold replay. cbv zeta.
  set (all_items := map li_item (everything_items (zot w))).
  destruct (traced_log (py "Built DOI lookup with " ++ dec (size (build_doi_lookup all_items))
                          ++ py " entries from " ++ dec (length all_items) ++ py " items") w)
    as [(Hz & Hw & _) Hs].
  set (w1 := log _ w) in *.
  destruct (process_updates_effect update_item all_items dry_run (length updates)
              updates 1 w1) as (_ & Hsc & Hsum & Hnew & _ & Hdry).
  fold (process_from_updates_file update_item all_items updates dry_run w1) in *.
  rewrite Hsc, Hsum, Hs. rewrite Hw in Hnew. split; [done|]. split; [done|].
  split; [done|]. intros Hd. rewrite <- Hz. by apply Hdry.
Qed.

(** X18: a preview never writes.  With [dry_run], whatever the ledger
    file, the library, the answers of OpenAlex, the limit and the
    collection, [run] sends no write to the library and leaves it as it
    was, in the replay as in the discovery. *)
Theorem run_dry_run_frame {library}
    (update_item : library -> payload -> str + library)
    (everything_items : library -> list library_item)
    (everything_collection_items : library -> str -> list library_item)
    (openalex : nat -> str -> response) (read_error : str)
    (f : file) (collection_key : option str) (limit : option Z) (w : @world library) :
  let w' := run update_item everything_items everything_collection_items openalex
              read_error f collection_key limit true w in
  zot w' = zot w /\ write_calls w' = write_calls w.
Proof.
  unfold run.
  destruct (read_updates_traced read_error f w) as ((Hz0 & Hw0 & _) & _ & _).
  cbv zeta in *.
  destruct (read_updates read_error f w) as [w0 ups]. cbn [fst snd] in *.
  assert (forall w1 : @world library,
            zot (print_summary true w1) = zot w1 /\
            write_calls (print_summary true w1) = write_calls w1) as Hsum.
  { intros w1. destruct (print_summary_traced true w1) as [(? & ? & _) _]. done. }
  assert (forall w1 abstract_items,
            get_items_missing_abstracts everything_items everything_collection_items
              collection_key limit w0 = (w1, abstract_items) ->
            let w2 := fold_left (process_item update_item openalex true (length abstract_items))
                        (zip (seq 1 (length abstract_items)) abstract_items) w1 in
            zot (print_summary true w2) = zot w /\
            write_calls (print_summary true w2) = write_calls w) as Hdisc.
  { intros w1 abstract_items E.
    destruct (get_items_missing_abstracts_traced everything_items
                everything_collection_items collection_key limit w0) as (Hz1 & Hw1 & _).
    cbv zeta in *. rewrite E in Hz1, Hw1. cbn [fst snd] in *.
    destruct (process_items_traced update_item openalex (length abstract_items)
                (zip (seq 1 (length abstract_items)) abstract_items) w1)
      as [(Hz2 & Hw2 & _) _].
    cbv zeta in *. destruct (Hsum (fold_left (process_item update_item openalex true
                                     (length abstract_items))
                                   (zip (seq 1 (length abstract_items)) abstract_items) w1))
      as [-> ->].
    by rewrite Hz2, Hw2, Hz1, Hw1, Hz0, Hw0. }
  destruct (get_items_missing_abstracts everything_items everything_collection_items
              collection_key limit w0) as [w1 abstract_items] eqn:E.
  specialize (Hdisc w1 abstract_items eq_refl). cbv zeta in Hdisc.
  destruct ups as [[|u us]|]; [exact Hdisc| |exact Hdisc].
  destruct (Hsum (replay update_item everything_items (u :: us) true w0)) as [-> ->].
  destruct (replay_effect update_item everything_items (u :: us) true w0)
    as (_ & _ & (new & -> & Hnew) & Hz).
  cbv zeta in *. rewrite (Hz eq_refl), Hz0, Hw0.
  destruct new; [by rewrite app_nil_r|done].
Qed.

Lemma parse_lines_bodies (l1 l2 : list str) :
  Forall2 (fun a b => line_body a = line_body b) l1 l2 ->
  parse_lines l1 = parse_lines l2.
Proof.
  intros H. unfold parse_lines, parse_state.
  enough (forall st, fold_left process_line l1 st = fold_left process_line l2 st) as ->
    by done.
  induction H as [|a b l1 l2 Hab _ IH]; intros st; [done|]. cbn.
  replace (process_line st a) with (process_line st b); [apply IH|].
  unfold process_line, classify. by rewrite Hab.
Qed.

Lemma line_body_stamp (s m : str) :
  is_log_stamp s = true -> one_line m = true -> line_body (with_nl (s ++ m)) = m.
Proof.
  intros Hs Hm. unfold line_body, with_nl.
  rewrite str_rstrip_line by (by rewrite one_line_app, (log_stamp_one_line s Hs), Hm).
  destruct (re_match_log_prefix s m Hs (one_line_dot m Hm)) as (x & -> & Hx). exact Hx.
Qed.

Lemma line_body_plain_message (m : str) : plain m = true -> line_body (with_nl m) = m.
Proof.
  unfold plain. intros [Hl Hd]%andb_prop. destruct m as [|c t]; [reflexivity|].
  apply negb_true_iff in Hd. by apply line_body_plain.
Qed.

Lemma plain_one_line (m : str) : plain m = true -> one_line m = true.
Proof. unfold plain. by intros [? _]%andb_prop. Qed.

(** The lines of a log file of plain messages, as the parser sees
    them. *)
Lemma parse_stamped (stamps messages : list str) :
  length stamps = length messages ->
  forallb is_log_stamp stamps = true -> forallb plain messages = true ->
  forallb one_line (zip_with app stamps messages) = true /\
  Forall2 (fun a b => line_body a = line_body b)
          (map with_nl (zip_with app stamps messages)) (map with_nl messages).
Proof.
  revert messages. induction stamps as [|s stamps IH]; intros [|m ms]; try done.
  cbn [length forallb zip_with map]. intros [= Hlen] [Hs Hss]%andb_prop [Hm Hms]%andb_prop.
  destruct (IH ms Hlen Hss Hms) as [H1 H2]. split.
  - by rewrite one_line_app, (log_stamp_one_line s Hs), (plain_one_line m Hm), H1.
  - constructor; [|done].
    by rewrite line_body_stamp, line_body_plain_message
      by (done || by apply plain_one_line).
Qed.

Lemma log_file_text_lines (stamps messages : list str) :
  log_file_text stamps messages = concat (map with_nl (zip_with app stamps messages)).
Proof.
  unfold log_file_text. f_equal. revert messages.
  induction stamps as [|s stamps IH]; intros [|m ms]; try done.
  cbn [zip_with map]. unfold with_nl at 1. by rewrite <- app_assoc, IH.
Qed.

Lemma log_file_text_app (s1 s2 m1 m2 : list str) :
  length s1 = length m1 ->
  log_file_text (s1 ++ s2) (m1 ++ m2) = log_file_text s1 m1 ++ log_file_text s2 m2.
Proof.
  intros H. unfold log_file_text. by rewrite zip_with_app, concat_app.
Qed.

Lemma fold_view_step_ignored (lines : list str) (v : view) :
  forallb is_ignored lines = true -> fold_left view_step lines v = v.
Proof.
  induction lines as [|raw lines IH]; [done|]. cbn [forallb fold_left].
  intros [Hraw Hlines]%andb_prop. rewrite view_step_ignored by done. by apply IH.
Qed.

Lemma parse_lines_junk (front lines back : list str) :
  forallb is_ignored front = true -> forallb is_ignored back = true ->
  parse_lines (front ++ lines ++ back) = parse_lines lines.
Proof.
  intros Hf Hb. rewrite !parse_lines_view, !fold_left_app.
  by rewrite (fold_view_step_ignored front), (fold_view_step_ignored back).
Qed.

Lemma junk_lines (ms : list str) :
  forallb junk ms = true ->
  forallb plain ms = true /\ forallb is_ignored (map with_nl ms) = true.
Proof.
  induction ms as [|m ms IH]; [done|]. cbn [forallb map].
  intros [[Hp Hi]%andb_prop Hms]%andb_prop. destruct (IH Hms) as [-> ->].
  by rewrite Hp, Hi.
Qed.

(** A one-line message that begins with a letter other than those of
    the four kinds of lines is passed over. *)
Ltac one_line_parts :=
  rewrite ?one_line_app, ?one_line_dec;
  repeat match goal with H : one_line _ = true |- _ => rewrite H end;
  reflexivity.

Ltac other_line :=
  unfold junk; apply andb_true_intro; split;
  [ unfold plain; apply andb_true_intro; split; [one_line_parts|reflexivity]
  | unfold is_ignored, with_nl;
    rewrite classify_unfold, line_body_message;
    [ unfold classify_line; cbn [app py list_ascii_of_string];
      rewrite ?str_strip_blank;
      rewrite str_strip_head by reflexivity;
      rewrite ?rstrip_by_cons by reflexivity;
      reflexivity
    | reflexivity
    | one_line_parts ] ].

Lemma one_line_dec_int (l : Z) : one_line (dec_int l) = true.
Proof.
  unfold dec_int. destruct (l <? 0)%Z; [|apply one_line_dec].
  by rewrite one_line_app, one_line_dec.
Qed.

Lemma junk_read_messages (read_error : str) (f : file) :
  one_line read_error = true -> forallb junk (read_messages read_error f) = true.
Proof.
  intros He. destruct f as [| |text]; cbn [read_messages forallb]; [done| |].
  - apply andb_true_intro. split; [reflexivity|].
    apply andb_true_intro. split; [|done]. other_line.
  - apply andb_true_intro. split; [reflexivity|].
    apply andb_true_intro. split; [|done]. other_line.
Qed.

Lemma junk_scan_messages (limit : option Z) (found : nat) :
  forallb junk (scan_messages limit found) = true.
Proof.
  unfold scan_messages. rewrite forallb_app. apply andb_true_intro. split.
  - cbn [forallb]. apply andb_true_intro. split; [reflexivity|].
    apply andb_true_intro. split; [|done]. other_line.
  - destruct limit as [l|]; [|done].
    destruct (negb (l =? 0)%Z && (l <? Z.of_nat found)%Z); [|done].
    cbn [forallb]. apply andb_true_intro. split; [|done].
    pose proof (one_line_dec_int l) as Hl. other_line.
Qed.

Lemma junk_summary_lines (s : stats_t) : forallb junk (summary_lines true s) = true.
Proof.
  unfold summary_lines. cbv zeta. rewrite !forallb_app. cbn [forallb].
  rewrite !andb_true_iff. repeat split; try reflexivity; try other_line.
  destruct (0 <? errors s); [|done]. cbn [forallb].
  apply andb_true_intro. split; [|done]. other_line.
Qed.

Lemma junk_fetch_messages (answer : response) (doi : str) :
  one_line doi = true ->
  match answer with RequestError e => one_line e = true | _ => True end ->
  forallb junk (fetch_messages answer doi) = true.
Proof.
  intros Hd He. unfold fetch_messages.
  destruct (answer_abstract answer); [done|].
  destruct answer as [|e|index]; cbn [forallb];
    apply andb_true_intro; (split; [|done]); other_line.
Qed.

Lemma is_ignored_kinds (raw : str) :
  is_ignored raw = true ->
  is_processing raw = false /\ is_abstract_line raw = false /\ is_doi_line raw = false.
Proof.
  unfold is_ignored, is_processing, is_abstract_line, is_doi_line.
  by destruct (classify raw) as [|[?|]| | | |].
Qed.

Lemma plain_indented (m : str) : one_line m = true -> plain (blank :: m) = true.
Proof.
  intros H. unfold plain. change (one_line (blank :: m)) with (one_line m).
  by rewrite H.
Qed.

Lemma loggable_fields (openalex : nat -> str -> response) (i : nat) (r : abstract_item) :
  loggable openalex (i, r) = true ->
  nonempty (format_citation (ai_data r)) = true /\
  one_line (format_citation (ai_data r)) = true /\
  one_line (ai_title r) = true /\ trimmed (ai_title r) = true /\
  one_line (ai_doi r) = true /\ trimmed (ai_doi r) = true /\
  match answer_abstract (openalex i (ai_doi r)) with
  | Some a => one_line a = true /\ trimmed a = true
  | None => match openalex i (ai_doi r) with
            | RequestError e => one_line e = true
            | _ => True
            end
  end.
Proof.
  unfold loggable. rewrite !andb_true_iff.
  intros [[[[[Hn Ht] Ht'] Hd] Hd'] Ha].
  destruct (format_citation_one_line _ Hn) as [Hc Hc'].
  repeat (split; [done|]).
  destruct (openalex i (ai_doi r)) as [|e|index]; [exact I|exact Ha|].
  destruct (answer_abstract (Json index)); [by apply andb_prop in Ha|done].
Qed.

(** The lines of one iteration, in front of lines that open an entry. *)
Lemma item_block (openalex : nat -> str -> response) (n : nat)
    (ii : nat * abstract_item) (rest : list str) :
  loggable openalex ii = true -> opens_entry rest = true ->
  forallb plain (item_messages openalex n ii) = true /\
  opens_entry (map with_nl (item_messages openalex n ii) ++ rest) = true /\
  parse_lines (map with_nl (item_messages openalex n ii) ++ rest)
  = map to_item (option_list (found_entry openalex ii)) ++ parse_lines rest.
Proof.
  destruct ii as [i r]. intros (Hne & Hc & Ht & Ht' & Hd & Hd' & Ha)%loggable_fields Hrest.
  unfold item_messages, found_entry. cbv zeta.
  assert (forallb plain (log_processing i n (format_citation (ai_data r)) (ai_title r)
                           (ai_doi r)) = true) as Hplain.
  { cbn [log_processing forallb]. rewrite !andb_true_iff. repeat split.
    - unfold plain. apply andb_true_intro. split; [|reflexivity].
      by rewrite !one_line_app, !one_line_dec, Hc.
    - apply (plain_indented (py " Title: " ++ ai_title r)). by rewrite one_line_app, Ht.
    - apply (plain_indented (py " DOI: " ++ ai_doi r)). by rewrite one_line_app, Hd. }
  destruct (answer_abstract (openalex i (ai_doi r))) as [a|] eqn:Ea.
  - destruct Ha as [Ha Ha']. cbn [option_list map].
    set (e := Entry (format_citation (ai_data r)) (ai_title r) (ai_doi r) a).
    assert (portable e = true) as He.
    { unfold portable. cbn [e e_citation e_title e_doi e_abstract].
      by rewrite Hne, Hc, Ht, Ht', Hd, Hd', Ha, Ha'. }
    change (log_processing i n _ _ _ ++ log_dry_run _ a) with (entry_messages i n e).
    split; [|split].
    + unfold entry_messages. fold (e_citation e). rewrite forallb_app.
      cbn [e e_citation e_title e_doi e_abstract]. rewrite Hplain.
      cbn [log_dry_run forallb]. rewrite !andb_true_iff. repeat split.
      * apply (plain_indented (py " [DRY RUN] Would update abstract for "
                                 ++ format_citation (ai_data r) ++ py " ("
                                 ++ dec (length a) ++ py " chars)")).
        by rewrite !one_line_app, one_line_dec, Hc.
      * apply (plain_indented (py " Abstract: " ++ a)). by rewrite one_line_app, Ha.
    + destruct (entry_messages_marker i n e He) as (raw & rest' & -> & Hraw & _).
      exact Hraw.
    + rewrite parse_lines_app_opens by done. by rewrite parse_lines_entry.
  - cbn [option_list map app].
    assert (exists m, fetch_messages (openalex i (ai_doi r)) (ai_doi r) = [m]
                      /\ junk m = true) as (m & Hm & Hj).
    { pose proof (junk_fetch_messages (openalex i (ai_doi r)) (ai_doi r) Hd) as H.
      unfold fetch_messages in *. rewrite Ea in *.
      destruct (openalex i (ai_doi r)) as [|e|index]; eexists; (split; [reflexivity|]);
        cbn [forallb] in H; apply andb_prop in H as [H _]; try done; by apply H. }
    rewrite Hm. apply andb_prop in Hj as [Hp Hi].
    assert (classify (with_nl (nth 0 (log_processing i n (format_citation (ai_data r))
                                        (ai_title r) (ai_doi r)) []))
            = ProcessingLine (Some (format_citation (ai_data r)))) as H1
      by (by apply classify_processing).
    assert (classify (with_nl (py "  Title: " ++ ai_title r)) = TitleLine (ai_title r)) as H2
      by (by apply classify_title).
    assert (classify (with_nl (py "  DOI: " ++ ai_doi r)) = DoiLine (ai_doi r)) as H3
      by (by apply classify_doi).
    destruct (is_ignored_kinds _ Hi) as (H4 & H4' & _).
    split; [rewrite forallb_app, Hplain; cbn [forallb]; by rewrite Hp|].
    cbn [log_processing nth app map] in *.
    split.
    + cbn [opens_entry]. unfold is_marker. by rewrite H1.
    + change (?a :: ?b :: ?c :: ?d :: rest) with ([a; b; c; d] ++ rest).
      rewrite parse_lines_app_opens by done.
      rewrite parse_lines_incomplete; [done| | |].
      * unfold is_marker. by rewrite H1.
      * cbn [forallb]. unfold is_processing in *. rewrite H2, H3. cbn.
        destruct (classify (with_nl m)) as [|[?|]| | | |]; done.
      * right. cbn [forallb]. unfold is_abstract_line in *. rewrite H2, H3. cbn.
        destruct (classify (with_nl m)) as [|[?|]| | | |]; done.
Qed.

Lemma parse_blocks (openalex : nat -> str -> response) (n : nat)
    (iis : list (nat * abstract_item)) :
  forallb (loggable openalex) iis = true ->
  let ms := concat (map (item_messages openalex n) iis) in
  forallb plain ms = true /\ opens_entry (map with_nl ms) = true /\
  parse_lines (map with_nl ms) = map to_item (omap (found_entry openalex) iis).
Proof.
  induction iis as [|ii iis IH]; [intros _; repeat split; reflexivity|].
  cbn [forallb map concat omap]. intros [Hii Hiis]%andb_prop.
  destruct (IH Hiis) as (Hp & Ho & Hparse). cbv zeta in *.
  destruct (item_block openalex n ii _ Hii Ho) as (Hp' & Ho' & Hparse').
  rewrite forallb_app, map_app, Hp, Hp', Hparse', Hparse.
  split; [done|]. split; [done|].
  destruct (found_entry openalex ii) eqn:E; cbn; rewrite E; done.
Qed.

Lemma file_lines_with_nl (lines : list str) :
  forallb one_line lines = true ->
  file_lines (concat (map with_nl lines)) = map with_nl lines.
Proof. exact (file_lines_concat lines). Qed.

Lemma junk_to_apply : forallb junk [[]; drop 1 to_apply] = true.
Proof. vm_compute. reflexivity. Qed.

(** The entries in the text of a log file whose messages are plain,
    but for a last one that begins with a line end. *)
Lemma parse_log_file (stamps messages last : list str) :
  length stamps = length (messages ++ last) ->
  forallb is_log_stamp stamps = true -> forallb plain messages = true ->
  last = [] \/ last = [to_apply] ->
  parse_lines (file_lines (log_file_text stamps (messages ++ last)))
  = parse_lines (map with_nl messages).
Proof.
  intros Hlen Hst Hms Hlast.
  rewrite <- (take_drop (length messages) stamps) in Hst |- *.
  rewrite forallb_app in Hst. apply andb_prop in Hst as [Hss Hts].
  rewrite length_app in Hlen.
  assert (length (take (length messages) stamps) = length messages) as Hl1
    by (rewrite length_take; lia).
  assert (length (drop (length messages) stamps) = length last) as Hl2
    by (rewrite length_drop; lia).
  set (ss := take (length messages) stamps) in *.
  set (ts := drop (length messages) stamps) in *.
  rewrite log_file_text_app by done. rewrite (log_file_text_lines ss messages).
  destruct (parse_stamped ss messages Hl1 Hss Hms) as [Hone Hbodies].
  destruct Hlast as [->| ->].
  - destruct ts; [|done]. cbn [log_file_text zip_with concat]. rewrite app_nil_r.
    rewrite (file_lines_with_nl (zip_with app ss messages) Hone).
    by apply parse_lines_bodies.
  - destruct ts as [|t [|? ?]]; try done. cbn [forallb] in Hts.
    apply andb_prop in Hts as [Ht _].
    replace (log_file_text [t] [to_apply])
      with (concat (map with_nl [t; drop 1 to_apply])).
    2: { unfold log_file_text, to_apply, with_nl. cbn [zip_with map concat drop].
         by rewrite !app_nil_r, <- !app_assoc. }
    rewrite <- concat_app, <- map_app.
    rewrite file_lines_with_nl.
    2: { rewrite forallb_app, Hone. cbn [forallb].
         by rewrite (log_stamp_one_line t Ht). }
    transitivity (parse_lines (map with_nl (messages ++ [[]; drop 1 to_apply]))).
    + apply parse_lines_bodies. rewrite !map_app. apply Forall2_app; [done|].
      constructor; [|by constructor].
      rewrite <- (app_nil_r t) at 1. by rewrite line_body_stamp.
    + rewrite map_app.
      destruct (junk_lines _ junk_to_apply) as [_ Hj].
      pose proof (parse_lines_junk [] (map with_nl messages) _ eq_refl Hj) as H.
      exact H.
Qed.

(** X19: the log file of a verbose preview is a ledger of what the
    preview found.  Let a preview run in discovery (no ledger file, or
    one without entries), with a fresh log file, and let the records it
    processes and the answers of OpenAlex hold no line end in the last
    names shown, the title, the DOI, the abstract and the text of a
    request error, and no whitespace around the title and the abstract.
    Then parsing the text of the log file, each message behind its own
    prefix "<date> <time>,<ms> - INFO - ", gives exactly one entry for
    every record for which OpenAlex had an abstract, in the order of the
    run, with the citation label, the title, the cleaned DOI and the
    abstract of the record; the messages of the scan, of the requests
    that found nothing and of the summary add nothing. *)
Theorem run_preview_log_is_ledger {library}
    (update_item : library -> payload -> str + library)
    (everything_items : library -> list library_item)
    (everything_collection_items : library -> str -> list library_item)
    (openalex : nat -> str -> response) (read_error : str)
    (f : file) (collection_key : option str) (limit : option Z)
    (w : @world library) (stamps : list str) :
  let records := (get_items_missing_abstracts everything_items
                    everything_collection_items collection_key limit w).2 in
  let numbered := zip (seq 1 (length records)) records in
  let w' := run update_item everything_items everything_collection_items openalex
              read_error f collection_key limit true w in
  verbose w = true -> log_file w = [] ->
  run_mode f = DiscoveryMode -> one_line read_error = true ->
  forallb (loggable openalex) numbered = true ->
  length stamps = length (log_file w') -> forallb is_log_stamp stamps = true ->
  parse_lines (file_lines (log_file_text stamps (log_file w')))
  = map to_item (omap (found_entry openalex) numbered).
Proof.
  intros records numbered w' Hv Hlog Hmode Herr Hrec Hlen Hst.
  assert (exists st,
            log_file w' = (read_messages read_error f
                           ++ scan_messages limit
                                (length (selected (scanned everything_items
                                   everything_collection_items collection_key (zot w))))
                           ++ concat (map (item_messages openalex (length records)) numbered)
                           ++ summary_lines true st)
                          ++ (if true && (0 <? abstracts_updated st) then [to_apply] else []))
    as (st & Hw').
  { subst w'. unfold run.
    destruct (read_updates_traced read_error f w) as ((Hz0 & _ & Hv0 & Hl0) & _ & Hups).
    cbv zeta in *.
    destruct (read_updates read_error f w) as [w0 ups]. cbn [fst snd] in *.
    rewrite Hv, Hlog in *. cbn [app] in Hl0.
    pose proof (get_items_missing_abstracts_traced everything_items
                  everything_collection_items collection_key limit w0)
      as (Hz1 & _ & Hv1 & Hl1).
    cbv zeta in *. rewrite Hv0, Hz0 in *.
    assert ((get_items_missing_abstracts everything_items everything_collection_items
               collection_key limit w0).2 = records) as Hrecords.
    { subst records.
      destruct (get_items_missing_abstracts_unfold everything_items
                  everything_collection_items collection_key limit w0)
        as (_ & _ & _ & _ & ->).
      destruct (get_items_missing_abstracts_unfold everything_items
                  everything_collection_items collection_key limit w)
        as (_ & _ & _ & _ & ->).
      by rewrite Hz0. }
    destruct (get_items_missing_abstracts everything_items everything_collection_items
                collection_key limit w0) as [w1 abstract_items].
    cbn [fst snd] in *. subst abstract_items. fold numbered.
    destruct (process_items_traced update_item openalex (length records) numbered w1)
      as [(_ & _ & Hv2 & Hl2) _].
    cbv zeta in *. rewrite Hv1 in *.
    set (w2 := fold_left _ numbered w1) in *.
    destruct (print_summary_traced true w2) as [(_ & _ & _ & Hl3) _].
    rewrite Hv2 in Hl3. unfold summary_messages in Hl3.
    exists (stats w2).
    assert (match ups with
            | Some (u :: us) =>
                print_summary true (replay update_item everything_items (u :: us) true w0)
            | _ => print_summary true w2
            end = print_summary true w2) as ->.
    { rewrite Hups. unfold run_mode in Hmode.
      by destruct (parse_abstract_updates_file f) as [[|u us]|]. }
    rewrite Hl3, Hl2, Hl1, Hl0. by rewrite <- !app_assoc. }
  rewrite Hw' in Hlen |- *.
  destruct (parse_blocks openalex (length records) numbered Hrec) as (Hp & _ & Hparse).
  cbv zeta in *.
  destruct (junk_lines _ (junk_read_messages read_error f Herr)) as [Hp1 Hj1].
  destruct (junk_lines _ (junk_scan_messages limit
              (length (selected (scanned everything_items everything_collection_items
                                   collection_key (zot w)))))) as [Hp2 Hj2].
  destruct (junk_lines _ (junk_summary_lines st)) as [Hp3 Hj3].
  rewrite parse_log_file; [| exact Hlen | exact Hst | |].
  - rewrite !map_app, app_assoc.
    rewrite parse_lines_junk; [exact Hparse| |exact Hj3].
    by rewrite forallb_app, Hj1, Hj2.
  - by rewrite !forallb_app, Hp1, Hp2, Hp, Hp3.
  - destruct (true && _); [by right|by left].
Qed.

Lemma run_preview_log_is_ledger_witness :
  let it k d t :=
    LibraryItem (Item k 1 (ItemData [Creator (Some (py "author")) (Some (py "Smith"))]
                             (Some (py "2020-05-01")) (Some d) (Some t) None))
                (Some (py "journalArticle")) None None None None in
  let lib (_ : unit) :=
    [it (py "K1") (py "https://doi.org/10.1/a") (py "First");
     it (py "K2") (py "10.2/b") (py "Second")] in
  let openalex (i : nat) (_ : str) :=
    if i =? 1 then Json (Some [(py "the", [0; 2]); (py "mat", [3]); (py "on", [1])])
    else NotFound in
  let w := World tt [] true [] stats_init in
  let w' := run (fun z _ => inr z) lib (fun _ _ => []) openalex [] Missing None None true w in
  parse_lines (file_lines (log_file_text (replicate (length (log_file w')) stamp_example)
                                         (log_file w')))
  = [LedgerItem (Some (py "Smith 2020")) (Some (py "First")) (Some (py "10.1/a"))
                (Some (py "the on the mat"))].
Proof.
  intros it lib openalex w w'.
  etransitivity.
  - apply (run_preview_log_is_ledger (fun (z : unit) _ => inr z) lib (fun _ _ => [])
             openalex [] Missing None None w); vm_compute; reflexivity.
  - vm_compute. reflexivity.
Defined.

(** X20: while the ledger file has entries, [run] replays it and does
    nothing else: the library is not scanned and OpenAlex is not asked,
    so the counters of the scan stay as they were (the summary of a
    fresh run shows them as 0), the limit, the collection and the
    answers of OpenAlex have no influence on the result, and
    [abstracts_updated] and [errors] together grow by the number of
    entries. *)
Theorem run_replay_mode {library}
    (update_item : library -> payload -> str + library)
    (everything_items : library -> list library_item)
    (everything_collection_items : library -> str -> list library_item)
    (openalex : nat -> str -> response) (read_error : str)
    (f : file) (collection_key : option str) (limit : option Z) (dry_run : bool)
    (w : @world library) (updates : list ledger_item) :
  run_mode f = ReplayMode updates ->
  let w' := run update_item everything_items everything_collection_items openalex
              read_error f collection_key limit dry_run w in
  scan_counters (stats w') = scan_counters (stats w) /\
  abstracts_updated (stats w') + errors (stats w')
    = abstracts_updated (stats w) + errors (stats w) + length updates /\
  (forall everything_collection_items' openalex' collection_key' limit',
     run update_item everything_items everything_collection_items' openalex'
       read_error f collection_key' limit' dry_run w = w').
Proof.
  intros Hmode w'. subst w'. unfold run.
  destruct (read_updates_traced read_error f w) as ((Hz0 & _) & Hs0 & Hups).
  cbv zeta in *.
  destruct (read_updates read_error f w) as [w0 ups]. cbn [fst snd] in *.
  unfold run_mode in Hmode. rewrite <- Hups in Hmode.
  destruct ups as [[|u us]|]; try discriminate. injection Hmode as <-.
  destruct (print_summary_traced dry_run
              (replay update_item everything_items (u :: us) dry_run w0)) as [_ ->].
  destruct (replay_effect update_item everything_items (u :: us) dry_run w0)
    as (-> & -> & _).
  by rewrite Hs0.
Qed.

Lemma run_replay_mode_witness :
  let w := World tt [] false [] stats_init in
  let w' := run (fun z _ => inr z) (fun _ : unit => []) (fun _ _ => []) (fun _ _ => NotFound)
              [] (Content (concat plain_ledger)) None (Some 5%Z) true w in
  scan_counters (stats w') = (0, 0, 0, 0) /\
  abstracts_updated (stats w') + errors (stats w') = 1.
Proof.
  intros w w'.
  destruct (run_replay_mode (fun (z : unit) _ => inr z) (fun _ : unit => []) (fun _ _ => [])
              (fun _ _ => NotFound) [] (Content (concat plain_ledger)) None (Some 5%Z)
              true w (parse_lines plain_ledger)) as (H1 & H2 & _).
  - vm_compute. reflexivity.
  - split; [exact H1|exact H2].
Defined.

Lemma etraced_refl {library} (w : @Extractor.world library) : etraced w w [].
Proof. unfold etraced. destruct (Extractor.verbose w); by rewrite app_nil_r. Qed.

Lemma etraced_trans {library} (w1 w2 w3 : @Extractor.world library) (ms1 ms2 : list str) :
  etraced w1 w2 ms1 -> etraced w2 w3 ms2 -> etraced w1 w3 (ms1 ++ ms2).
Proof.
  intros (Hz & Hw & Hi & Hv & Hl) (Hz' & Hw' & Hi' & Hv' & Hl'). unfold etraced.
  rewrite Hz', Hz, Hw', Hw, Hi', Hi, Hv', Hv, Hl', Hl, Hv. repeat split.
  destruct (Extractor.verbose w1); by rewrite <- ?app_assoc.
Qed.

Lemma etraced_quiet {library} (w w' : @Extractor.world library) (ms ms' : list str) :
  Extractor.verbose w = false -> etraced w w' ms -> etraced w w' ms'.
Proof. unfold etraced. by intros ->. Qed.

Lemma etraced_log {library} (m : str) (w : @Extractor.world library) :
  etraced w (Extractor.log m w) [m] /\
  Extractor.stats (Extractor.log m w) = Extractor.stats w.
Proof.
  unfold etraced, Extractor.log.
  destruct (Extractor.verbose w) eqn:E; cbn; by rewrite ?E, ?app_nil_r.
Qed.

Lemma etraced_log_all {library} (ms : list str) (w : @Extractor.world library) :
  etraced w (Extractor.log_all ms w) ms /\
  Extractor.stats (Extractor.log_all ms w) = Extractor.stats w.
Proof.
  revert w. induction ms as [|m ms IH]; intros w; [split; [apply etraced_refl|done]|].
  change (Extractor.log_all (m :: ms) w) with (Extractor.log_all ms (Extractor.log m w)).
  destruct (IH (Extractor.log m w)) as [Ht ->]. destruct (etraced_log m w) as [Ht' ->].
  split; [|done]. exact (etraced_trans _ _ _ [m] ms Ht' Ht).
Qed.

Lemma etraced_with_stats {library} (f : Extractor.stats_t -> Extractor.stats_t)
    (w : @Extractor.world library) :
  etraced w (Extractor.with_stats f w) [].
Proof.
  unfold etraced, Extractor.with_stats. cbn.
  destruct (Extractor.verbose w); by rewrite app_nil_r.
Qed.

Lemma update_zotero_item_effect {library}
    (update_item : library -> payload -> str + library)
    (it : item) (abstract : str) (dry_run : bool) (w : @Extractor.world library) :
  let r := Extractor.update_zotero_item update_item it abstract dry_run w in
  let sent := Payload (key it) (version it) (set_abstractNote abstract (data it)) in
  Extractor.stats r.1 = Extractor.stats w /\
  Extractor.stdin r.1 = Extractor.stdin w /\
  Extractor.verbose r.1 = Extractor.verbose w /\
  if dry_run then
    r.2 = true /\ etraced w r.1 (log_dry_run (format_citation (data it)) abstract)
  else
    Extractor.write_calls r.1 = Extractor.write_calls w ++ [sent] /\
    match update_item (Extractor.zot w) sent with
    | inr z =>
        r.2 = true /\ Extractor.zot r.1 = z /\
        Extractor.log_file r.1
        = Extractor.log_file w
          ++ (if Extractor.verbose w
              then log_updated (format_citation (data it)) abstract else [])
    | inl e =>
        r.2 = false /\ Extractor.zot r.1 = Extractor.zot w /\
        Extractor.log_file r.1
        = Extractor.log_file w
          ++ (if Extractor.verbose w then [py "  Error updating Zotero: " ++ e] else [])
    end.
Proof.
  unfold Extractor.update_zotero_item. cbv zeta. destruct dry_run.
  - cbn [fst snd].
    destruct (etraced_log_all (log_dry_run (format_citation (data it)) abstract) w)
      as [H ->].
    destruct H as (Hz & Hw & Hi & Hv & Hl). by rewrite Hi, Hv.
  - cbn [Extractor.zot Extractor.write_calls Extractor.verbose Extractor.log_file
         Extractor.stats Extractor.stdin].
    destruct (update_item (Extractor.zot w) _) as [e|z]; cbn [fst snd].
    + match goal with |- context [Extractor.log ?m ?w'] =>
        destruct (etraced_log m w') as [(Hz & Hw & Hi & Hv & Hl) ->] end.
      cbn in *. by rewrite Hz, Hw, Hi, Hv, Hl.
    + match goal with |- context [Extractor.log_all ?m ?w'] =>
        destruct (etraced_log_all m w') as [(Hz & Hw & Hi & Hv & Hl) ->] end.
      cbn in *. by rewrite Hz, Hw, Hi, Hv, Hl.
Qed.

(** X21: the extractor's applier.  In a preview it returns [True],
    logs the two preview lines and does nothing else: no write, no
    counter (unlike the fetcher's applier it counts nothing itself).
    Live, it sends exactly one write, with the key and the version of
    the record and its data with the new abstract; it returns [True]
    when the write succeeds and [False], with the library as it was,
    when it raises.  It never reads the input and never touches a
    counter. *)
Theorem extractor_update_zotero_item {library}
    (update_item : library -> payload -> str + library)
    (it : item) (abstract : str) (w : @Extractor.world library) :
  let dry := Extractor.update_zotero_item update_item it abstract true w in
  let live := Extractor.update_zotero_item update_item it abstract false w in
  let sent := Payload (key it) (version it) (set_abstractNote abstract (data it)) in
  (dry.2 = true /\ Extractor.zot dry.1 = Extractor.zot w /\
   Extractor.write_calls dry.1 = Extractor.write_calls w /\
   Extractor.stats dry.1 = Extractor.stats w /\
   Extractor.stdin dry.1 = Extractor.stdin w) /\
  (Extractor.write_calls live.1 = Extractor.write_calls w ++ [sent] /\
   Extractor.stats live.1 = Extractor.stats w /\
   Extractor.stdin live.1 = Extractor.stdin w /\
   match update_item (Extractor.zot w) sent with
   | inr z => live.2 = true /\ Extractor.zot live.1 = z
   | inl e => live.2 = false /\ Extractor.zot live.1 = Extractor.zot w
   end).
Proof.
  intros dry live sent. split.
  - destruct (update_zotero_item_effect update_item it abstract true w)
      as (Hs & Hi & _ & Hr & Hz & Hw & _).
    by repeat split.
  - destruct (update_zotero_item_effect update_item it abstract false w)
      as (Hs & Hi & _ & Hw & H).
    cbv zeta in H. fold sent in H. fold live in H, Hs, Hi, Hw.
    split; [done|]. split; [done|]. split; [done|].
    destruct (update_item (Extractor.zot w) sent); tauto.
Qed.

Lemma extractor_process_update_effect {library}
    (update_item : library -> payload -> str + library)
    (all_items : list item) (dry_run : bool) (n : nat) (w : @Extractor.world library)
    (i : nat) (u : ledger_item) :
  let w' := Extractor.process_update update_item all_items (build_doi_lookup all_items)
              dry_run n w (i, u) in
  let hit := has_key (find_matching_item all_items (build_doi_lookup all_items) u).2 in
  Extractor.stdin w' = Extractor.stdin w /\
  Extractor.user_approved (Extractor.stats w') + Extractor.extraction_failed (Extractor.stats w')
    = S (Extractor.user_approved (Extractor.stats w)
         + Extractor.extraction_failed (Extractor.stats w)) /\
  (Extractor.total_missing (Extractor.stats w'), Extractor.has_pdf (Extractor.stats w'),
   Extractor.abstract_extracted (Extractor.stats w'), Extractor.user_skipped (Extractor.stats w'))
  = (Extractor.total_missing (Extractor.stats w), Extractor.has_pdf (Extractor.stats w),
     Extractor.abstract_extracted (Extractor.stats w), Extractor.user_skipped (Extractor.stats w)) /\
  (exists new, Extractor.write_calls w' = Extractor.write_calls w ++ new /\
               length new = if hit && negb dry_run then 1 else 0) /\
  Extractor.extraction_failed (Extractor.stats w) + (if hit then 0 else 1)
    <= Extractor.extraction_failed (Extractor.stats w') /\
  (dry_run = true ->
     Extractor.zot w' = Extractor.zot w /\
     Extractor.extraction_failed (Extractor.stats w')
     = Extractor.extraction_failed (Extractor.stats w) + if hit then 0 else 1).
Proof.
  unfold Extractor.process_update. destruct u as [c t d a]. cbv zeta.
  destruct (find_matching_item all_items (build_doi_lookup all_items)
              (LedgerItem c t d a)) as [messages [it|]]; cbn [snd has_key andb].
  - set (w1 := Extractor.log_all messages (Extractor.log_all _ w)).
    assert (etraced w w1 (log_processing i n (get c (py "Unknown")) (get t (py "Unknown"))
                            (get d []) ++ messages)
            /\ Extractor.stats w1 = Extractor.stats w) as [(Hz & Hw & Hi & _) Hs].
    { subst w1.
      destruct (etraced_log_all (log_processing i n (get c (py "Unknown"))
                                   (get t (py "Unknown")) (get d [])) w) as [H1 H1'].
      destruct (etraced_log_all messages
                  (Extractor.log_all (log_processing i n (get c (py "Unknown"))
                                        (get t (py "Unknown")) (get d [])) w)) as [H2 H2'].
      split; [exact (etraced_trans _ _ _ _ _ H1 H2)|]. by rewrite H2', H1'. }
    destruct (update_zotero_item_effect update_item it (get a []) dry_run w1)
      as (Hs' & Hi' & _ & H).
    cbv zeta in *.
    destruct (Extractor.update_zotero_item update_item it (get a []) dry_run w1)
      as [w2 ok]. cbn [fst snd] in *.
    destruct dry_run; cbn [negb].
    + destruct H as (-> & Hz2 & Hw2 & _).
      unfold Extractor.with_stats. cbn. rewrite Hs', Hs, Hi', Hi, Hz2, Hz, Hw2, Hw.
      split; [done|]. split; [lia|]. split; [done|].
      split; [exists []; by rewrite app_nil_r|]. split; [lia|]. intros _. split; [done|lia].
    + destruct H as (Hw2 & H).
      assert (Extractor.write_calls (if ok then Extractor.with_stats Extractor.bump_approved w2
                                     else Extractor.with_stats Extractor.bump_failed w2)
              = Extractor.write_calls w2) as -> by (by destruct ok).
      assert (Extractor.stdin (if ok then Extractor.with_stats Extractor.bump_approved w2
                               else Extractor.with_stats Extractor.bump_failed w2)
              = Extractor.stdin w2) as -> by (by destruct ok).
      rewrite Hw2, Hw, Hi', Hi.
      split; [done|].
      destruct ok; unfold Extractor.with_stats; cbn; rewrite Hs', Hs;
        (split; [lia|]); (split; [done|]); (split; [by eexists|]); (split; [lia|done]).
  - set (w1 := Extractor.log _ (Extractor.log_all messages (Extractor.log_all _ w))).
    assert (Extractor.zot w1 = Extractor.zot w /\
            Extractor.write_calls w1 = Extractor.write_calls w /\
            Extractor.stdin w1 = Extractor.stdin w /\
            Extractor.stats w1 = Extractor.stats w) as (Hz & Hw & Hi & Hs).
    { subst w1.
      match goal with |- context [Extractor.log ?m ?w'] =>
        destruct (etraced_log m w') as [(-> & -> & -> & _) ->] end.
      destruct (etraced_log_all messages
                  (Extractor.log_all (log_processing i n (get c (py "Unknown"))
                                        (get t (py "Unknown")) (get d [])) w))
        as [(-> & -> & -> & _) ->].
      destruct (etraced_log_all (log_processing i n (get c (py "Unknown"))
                                   (get t (py "Unknown")) (get d [])) w)
        as [(-> & -> & -> & _) ->].
      done. }
    unfold Extractor.with_stats. cbn. rewrite Hz, Hw, Hi, Hs.
    split; [done|]. split; [lia|]. split; [done|].
    split; [exists []; by rewrite app_nil_r|]. split; [lia|]. intros _. split; [done|lia].
Qed.

Lemma matched_le (all_items : list item) (updates : list ledger_item) :
  length (matched all_items updates) <= length updates.
Proof.
  unfold matched. induction updates as [|x l IHl]; [done|]. cbn.
  destruct (has_key _); cbn; lia.
Qed.

Lemma extractor_process_updates_effect {library}
    (update_item : library -> payload -> str + library)
    (all_items : list item) (dry_run : bool) (n : nat)
    (updates : list ledger_item) (i : nat) (w : @Extractor.world library) :
  let w' := fold_left (Extractor.process_update update_item all_items
                         (build_doi_lookup all_items) dry_run n)
                      (zip (seq i (length updates)) updates) w in
  Extractor.stdin w' = Extractor.stdin w /\
  Extractor.user_approved (Extractor.stats w') + Extractor.extraction_failed (Extractor.stats w')
    = Extractor.user_approved (Extractor.stats w)
      + Extractor.extraction_failed (Extractor.stats w) + length updates /\
  extraction_counters (Extractor.stats w') = extraction_counters (Extractor.stats w) /\
  (exists new, Extractor.write_calls w' = Extractor.write_calls w ++ new /\
               length new = if dry_run then 0 else length (matched all_items updates)) /\
  Extractor.extraction_failed (Extractor.stats w)
    + (length updates - length (matched all_items updates))
    <= Extractor.extraction_failed (Extractor.stats w') /\
  (dry_run = true ->
     Extractor.zot w' = Extractor.zot w /\
     Extractor.extraction_failed (Extractor.stats w')
     = Extractor.extraction_failed (Extractor.stats w)
       + (length updates - length (matched all_items updates))).
Proof.
  revert i w. induction updates as [|u updates IH]; intros i w.
  - cbn. repeat split; try lia. exists []. rewrite app_nil_r. by destruct dry_run.
  - cbn [length seq zip zip_with fold_left].
    destruct (extractor_process_update_effect update_item all_items dry_run n w i u)
      as (Hi & Hsum & Hsc & (new & Hw & Hnew) & Hmiss & Hdry).
    cbv zeta in *.
    set (w1 := Extractor.process_update update_item all_items (build_doi_lookup all_items)
                 dry_run n w (i, u)) in *.
    destruct (IH (S i) w1) as (Hi' & Hsum' & Hsc' & (new' & Hw' & Hnew') & Hmiss' & Hdry').
    cbv zeta in *.
    set (w2 := fold_left _ _ w1) in *.
    assert (length (matched all_items (u :: updates))
            = (if has_key (find_matching_item all_items (build_doi_lookup all_items) u).2
               then 1 else 0) + length (matched all_items updates)) as Hm.
    { unfold matched. cbn [List.filter]. by destruct (has_key _). }
    pose proof (matched_le all_items updates) as Hle.
    unfold extraction_counters in *. rewrite Hi', Hi, Hsum', Hsum, Hsc', Hsc, Hm.
    split; [done|]. split; [lia|]. split; [done|]. split; [|split].
    + exists (new ++ new'). rewrite Hw', Hw, <- app_assoc. split; [done|].
      rewrite length_app, Hnew, Hnew'.
      destruct dry_run; destruct (has_key _); cbn; lia.
    + destruct (has_key _); lia.
    + intros ->. destruct (Hdry eq_refl) as [Hz He].
      destruct (Hdry' eq_refl) as [Hz' He']. rewrite Hz', Hz, He', He.
      split; [done|]. destruct (has_key _); lia.
Qed.

Lemma extractor_replay_effect {library}
    (update_item : library -> payload -> str + library)
    (everything_items : library -> list library_item)
    (updates : list ledger_item) (dry_run : bool) (w : @Extractor.world library) :
  let w' := Extractor.process_from_updates_file update_item everything_items
              updates dry_run w in
  let all_items := map li_item (everything_items (Extractor.zot w)) in
  Extractor.stdin w' = Extractor.stdin w /\
  Extractor.user_approved (Extractor.stats w') + Extractor.extraction_failed (Extractor.stats w')
    = Extractor.user_approved (Extractor.stats w)
      + Extractor.extraction_failed (Extractor.stats w) + length updates /\
  extraction_counters (Extractor.stats w') = extraction_counters (Extractor.stats w) /\
  (exists new, Extractor.write_calls w' = Extractor.write_calls w ++ new /\
               length new = if dry_run then 0 else length (matched all_items updates)) /\
  (dry_run = true ->
     Extractor.zot w' = Extractor.zot w /\
     Extractor.extraction_failed (Extractor.stats w')
     = Extractor.extraction_failed (Extractor.stats w)
       + (length updates - length (matched all_items updates))).
Proof.
  unfold Extractor.process_from_updates_file. cbv zeta.
  set (all_items := map li_item (everything_items (Extractor.zot w))).
  destruct (etraced_log (py "Built DOI lookup with " ++ dec (size (build_doi_lookup all_items))
                           ++ py " entries from " ++ dec (length all_items) ++ py " items") w)
    as [(Hz & Hw & Hi & _) Hs].
  set (w1 := Extractor.log _ w) in *.
  destruct (extractor_process_updates_effect update_item all_items dry_run (length updates)
              updates 1 w1) as (Hi' & Hsum & Hsc & Hnew & _ & Hdry).
  cbv zeta in *. rewrite Hi', Hi, Hsum, Hsc, Hs. rewrite Hw in Hnew.
  split; [done|]. split; [done|]. split; [done|]. split; [done|].
  intros Hd. destruct (Hdry Hd) as [Hz' He]. by rewrite Hz', Hz, He, Hs.
Qed.

(** X22: the replay of the extractor accounts for every entry of the
    ledger once: [user_approved] and [extraction_failed] together grow
    by the number of entries, and the other counters stay as they were.
    The input is not read.  One write is sent for every entry that
    matches a record on a live run, none on a preview, which leaves the
    library as it was and counts as failed exactly the entries that
    match no record. *)
Theorem extractor_process_from_updates_file_accounts {library}
    (update_item : library -> payload -> str + library)
    (everything_items : library -> list library_item)
    (updates : list ledger_item) (dry_run : bool) (w : @Extractor.world library) :
  let w' := Extractor.process_from_updates_file update_item everything_items
              updates dry_run w in
  let all_items := map li_item (everything_items (Extractor.zot w)) in
  let unmatched := length updates - length (matched all_items updates) in
  Extractor.user_approved (Extractor.stats w') + Extractor.extraction_failed (Extractor.stats w')
    = Extractor.user_approved (Extractor.stats w)
      + Extractor.extraction_failed (Extractor.stats w) + length updates /\
  extraction_counters (Extractor.stats w') = extraction_counters (Extractor.stats w) /\
  Extractor.stdin w' = Extractor.stdin w /\
  (exists new, Extractor.write_calls w' = Extractor.write_calls w ++ new /\
               length new = if dry_run then 0 else length (matched all_items updates)) /\
  (dry_run = true ->
     Extractor.zot w' = Extractor.zot w /\
     Extractor.write_calls w' = Extractor.write_calls w /\
     Extractor.extraction_failed (Extractor.stats w')
     = Extractor.extraction_failed (Extractor.stats w) + unmatched /\
     Extractor.user_approved (Extractor.stats w')
     = Extractor.user_approved (Extractor.stats w) + length (matched all_items updates)).
Proof.
  intros w' all_items unmatched.
  destruct (extractor_replay_effect update_item everything_items updates dry_run w)
    as (Hi & Hsum & Hsc & (new & Hw & Hnew) & Hdry).
  fold w' in Hi, Hsum, Hsc, Hw, Hdry. fold all_items in Hnew, Hdry.
  split; [done|]. split; [done|]. split; [done|]. split; [by exists new|].
  intros ->. destruct (Hdry eq_refl) as [Hz He]. split; [done|].
  split; [|split; [done|]].
  - destruct new; [by rewrite Hw, app_nil_r|done].
  - pose proof (matched_le all_items updates). fold unmatched in He.
    subst unmatched. lia.
Qed.

Lemma extractor_process_from_updates_file_accounts_witness :
  let lib (_ : unit) := [LibraryItem record_x None None None None None] in
  let updates := parse_lines plain_ledger in
  let w := Extractor.World tt [] false [] Extractor.stats_init [py "y"] in
  let w' := Extractor.process_from_updates_file (fun z _ => inr z) lib updates true w in
  Extractor.write_calls w' = [] /\ Extractor.extraction_failed (Extractor.stats w') = 1.
Proof.
  intros lib updates w w'.
  destruct (extractor_process_from_updates_file_accounts (fun (z : unit) _ => @inr str unit z)
              lib updates true w) as (_ & _ & _ & _ & H).
  destruct (H eq_refl) as (_ & Hw & He & _).
  split; [exact Hw|]. etransitivity; [exact He|]. vm_compute. reflexivity.
Defined.

Lemma first_pass_cases (st : Extractor.stats_t) (acc : list library_item)
    (it : library_item) :
  Extractor.first_pass (st, acc) it
  = if lacks_abstract it then (Extractor.bump_total_missing st, acc ++ [it]) else (st, acc).
Proof.
  unfold Extractor.first_pass, lacks_abstract.
  destruct (is_non_citation (get (itemType it) [])); [done|]. cbn [negb andb].
  by destruct (nonempty (str_strip (get (abstractNote (data (li_item it))) []))).
Qed.

Lemma first_pass_fold (items : list library_item) (st : Extractor.stats_t)
    (acc : list library_item) :
  fold_left Extractor.first_pass items (st, acc)
  = (Extractor.Stats (Extractor.total_missing st + length (List.filter lacks_abstract items))
       (Extractor.has_pdf st) (Extractor.abstract_extracted st) (Extractor.user_approved st)
       (Extractor.user_skipped st) (Extractor.extraction_failed st),
     acc ++ List.filter lacks_abstract items).
Proof.
  revert st acc. induction items as [|it items IH]; intros st acc.
  - cbn. rewrite app_nil_r, Nat.add_0_r. by destruct st.
  - cbn [fold_left List.filter]. rewrite first_pass_cases.
    destruct (lacks_abstract it); [|apply IH].
    rewrite IH. cbn [length Extractor.bump_total_missing Extractor.total_missing
      Extractor.has_pdf Extractor.abstract_extracted Extractor.user_approved
      Extractor.user_skipped Extractor.extraction_failed].
    rewrite <- app_assoc. f_equal. f_equal. lia.
Qed.

Lemma find_existsb {A} (p : A -> bool) (l : list A) :
  existsb p l = true -> exists x, List.find p l = Some x.
Proof.
  induction l as [|a l IH]; [done|]. cbn. destruct (p a); [by eexists|]. exact IH.
Qed.

Lemma second_pass_cases (missing : list library_item) (st : Extractor.stats_t)
    (acc : list Extractor.pdf_item) (it : library_item) :
  Extractor.second_pass missing (st, acc) it
  = match pdf_of missing it with
    | Some info => (Extractor.bump_has_pdf st, acc ++ [info])
    | None => (st, acc)
    end.
Proof.
  unfold Extractor.second_pass, pdf_of, is_pdf_of.
  destruct (str_eqb (get (itemType it) []) (py "attachment")); [|done]. cbn [andb].
  destruct (contains (py "pdf") (str_lower (get (contentType it) []))); [|done].
  cbn [andb]. destruct (existsb _ missing); [|done].
  by destruct (List.find _ missing).
Qed.

Lemma pdf_of_is_pdf (missing : list library_item) (att : library_item) :
  has_key (pdf_of missing att) = is_pdf_of missing att.
Proof.
  unfold pdf_of. destruct (is_pdf_of missing att) eqn:E; [|done].
  unfold is_pdf_of in E. apply andb_prop in E as [_ [_ Ex]%andb_prop].
  by destruct (find_existsb _ _ Ex) as [p ->].
Qed.

Lemma second_pass_fold (missing items : list library_item) (st : Extractor.stats_t)
    (acc : list Extractor.pdf_item) :
  fold_left (Extractor.second_pass missing) items (st, acc)
  = (Extractor.Stats (Extractor.total_missing st)
       (Extractor.has_pdf st + length (List.filter (is_pdf_of missing) items))
       (Extractor.abstract_extracted st) (Extractor.user_approved st)
       (Extractor.user_skipped st) (Extractor.extraction_failed st),
     acc ++ omap (pdf_of missing) items).
Proof.
  revert st acc. induction items as [|it items IH]; intros st acc.
  - cbn. rewrite app_nil_r, Nat.add_0_r. by destruct st.
  - cbn [fold_left List.filter]. rewrite second_pass_cases, <- pdf_of_is_pdf.
    change (omap (pdf_of missing) (it :: items))
      with (match pdf_of missing it with
            | Some y => y :: omap (pdf_of missing) items
            | None => omap (pdf_of missing) items
            end).
    destruct (pdf_of missing it) as [info|]; cbn [has_key]; [|apply IH].
    rewrite IH. cbn [length Extractor.bump_has_pdf Extractor.total_missing
      Extractor.has_pdf Extractor.abstract_extracted Extractor.user_approved
      Extractor.user_skipped Extractor.extraction_failed].
    rewrite <- app_assoc. f_equal. f_equal. lia.
Qed.

Lemma omap_length_filter {A B} (f : A -> option B) (l : list A) :
  length (omap f l) = length (List.filter (fun x => has_key (f x)) l).
Proof.
  induction l as [|a l IH]; [done|]. cbn. destruct (f a); cbn; by rewrite IH.
Qed.

Lemma get_items_missing_abstracts_with_pdfs_unfold {library}
    (everything_items : library -> list library_item) (limit : option Z)
    (w : @Extractor.world library) :
  let items := everything_items (Extractor.zot w) in
  let missing := List.filter lacks_abstract items in
  let full := omap (pdf_of missing) items in
  let r := Extractor.get_items_missing_abstracts_with_pdfs everything_items limit w in
  r.1 = Extractor.with_stats
          (fun st => Extractor.Stats (Extractor.total_missing st + length missing)
                       (Extractor.has_pdf st + length (List.filter (is_pdf_of missing) items))
                       (Extractor.abstract_extracted st) (Extractor.user_approved st)
                       (Extractor.user_skipped st) (Extractor.extraction_failed st)) w /\
  r.2 = match limit with
        | Some l =>
            if negb (l =? 0)%Z && (l <? Z.of_nat (length full))%Z
            then slice_to l full else full
        | None => full
        end.
Proof.
  cbv zeta. unfold Extractor.get_items_missing_abstracts_with_pdfs. cbv zeta.
  rewrite first_pass_fold. cbn [app]. rewrite second_pass_fold. cbn [app].
  cbn [Extractor.total_missing Extractor.has_pdf Extractor.abstract_extracted
       Extractor.user_approved Extractor.user_skipped Extractor.extraction_failed].
  destruct limit as [l|]; [|done].
  by destruct (negb (l =? 0)%Z && _).
Qed.

Lemma get_items_missing_abstracts_with_pdfs_traced {library}
    (everything_items : library -> list library_item) (limit : option Z)
    (w : @Extractor.world library) :
  etraced w (Extractor.get_items_missing_abstracts_with_pdfs everything_items limit w).1 [].
Proof.
  destruct (get_items_missing_abstracts_with_pdfs_unfold everything_items limit w)
    as [-> _].
  apply etraced_with_stats.
Qed.

(** X23: the scan of the extractor.  [total_missing] grows by the
    number of items that are not attachments, notes or annotations and
    have an empty or blank abstract; [has_pdf] grows by the number of
    attachments whose content type holds "pdf" in any mix of cases and
    whose parent is one of these items, whatever the limit.  There is
    one record for every such attachment, in library order, so an item
    with two PDF attachments is listed twice; each record carries the
    key of the attachment and, as its parent, an item that misses an
    abstract and has the key the attachment names.  The scan writes
    nothing, logs nothing and reads no input. *)
Theorem extractor_scan {library}
    (everything_items : library -> list library_item) (limit : option Z)
    (w : @Extractor.world library) :
  let items := everything_items (Extractor.zot w) in
  let missing := List.filter lacks_abstract items in
  let r := Extractor.get_items_missing_abstracts_with_pdfs everything_items limit w in
  Extractor.total_missing (Extractor.stats r.1)
    = Extractor.total_missing (Extractor.stats w) + length missing /\
  Extractor.has_pdf (Extractor.stats r.1)
    = Extractor.has_pdf (Extractor.stats w) + length (List.filter (is_pdf_of missing) items) /\
  etraced w r.1 [] /\
  (exists n, r.2 = take n (omap (pdf_of missing) items)) /\
  (limit = None -> length r.2 = length (List.filter (is_pdf_of missing) items)) /\
  (forall info, In info r.2 ->
     exists att p, In att items /\ In p items /\
       is_pdf_of missing att = true /\ lacks_abstract p = true /\
       key (li_item p) = get (parentItem att) [] /\
       Extractor.parent info = li_item p /\
       Extractor.attachment_key info = key (li_item att) /\
       Extractor.pdf_filename info = get (filename att) (py "unknown.pdf")).
Proof.
  intros items missing r.
  destruct (get_items_missing_abstracts_with_pdfs_unfold everything_items limit w)
    as [Hw Hr].
  fold items in Hw, Hr. fold missing in Hw, Hr. fold r in Hw, Hr.
  rewrite Hw. split; [reflexivity|]. split; [reflexivity|].
  split; [apply etraced_with_stats|].
  assert (exists n, r.2 = take n (omap (pdf_of missing) items)) as [n Hn].
  { rewrite Hr. set (full := omap (pdf_of missing) items).
    destruct limit as [l|]; [|exists (length full); by rewrite firstn_all].
    destruct (negb (l =? 0)%Z && (l <? Z.of_nat (length full))%Z);
      [|exists (length full); by rewrite firstn_all].
    unfold slice_to. destruct (l <? 0)%Z; by eexists. }
  split; [by exists n|]. split.
  - intros ->. rewrite Hr, omap_length_filter. f_equal.
    apply filter_ext. intros att. apply pdf_of_is_pdf.
  - intros info Hin. rewrite Hn in Hin.
    apply list_elem_of_In, elem_of_take in Hin as (i & Hi & _).
    apply list_elem_of_lookup_2, list_elem_of_omap in Hi as (att & Hatt & Hpdf).
    unfold pdf_of in Hpdf. destruct (is_pdf_of missing att) eqn:E; [|done].
    destruct (List.find _ missing) as [p|] eqn:Ef; [|done]. injection Hpdf as <-.
    apply find_some in Ef as [Hp Hk]. apply str_eqb_eq in Hk.
    subst missing. apply filter_In in Hp as [Hp Hl].
    exists att, p. by rewrite <- list_elem_of_In.
Qed.

Lemma extractor_scan_witness :
  let paper := LibraryItem (Item (py "P1") 3 (ItemData [] None None (Some (py "T")) None))
                           (Some (py "journalArticle")) None None None None in
  let pdf k := LibraryItem (Item k 1 (ItemData [] None None None None))
                           (Some (py "attachment")) None (Some (py "application/PDF"))
                           (Some (py "P1")) None in
  let lib (_ : unit) := [pdf (py "A1"); paper; pdf (py "A2")] in
  let w := Extractor.World tt [] false [] Extractor.stats_init [] in
  map Extractor.attachment_key
      (Extractor.get_items_missing_abstracts_with_pdfs lib None w).2 = [py "A1"; py "A2"] /\
  length (Extractor.get_items_missing_abstracts_with_pdfs lib None w).2 = 2.
Proof.
  intros paper pdf lib w. split; [vm_compute; reflexivity|].
  destruct (extractor_scan lib None w) as (_ & _ & _ & _ & H & _).
  rewrite (H eq_refl). vm_compute. reflexivity.
Defined.

Lemma process_items_quiet {library}
    (update_item : library -> payload -> str + library)
    (zot_file : library -> str -> Extractor.pdf_file)
    (dry_run : bool) (n : nat) (iis : list (nat * Extractor.pdf_item))
    (w : @Extractor.world library) :
  Extractor.verbose w = true \/ dry_run = true ->
  let r := Extractor.process_items update_item zot_file dry_run n iis w in
  r.2 = Extractor.Completed /\
  etraced w r.1 (concat (map (extraction_messages zot_file (Extractor.zot w) dry_run n) iis)).
Proof.
  intros Hq. revert w Hq. induction iis as [|[i info] iis IH]; intros w Hq.
  - split; [done|apply etraced_refl].
  - cbn [Extractor.process_items map concat]. cbv zeta.
    destruct (etraced_log_all (Extractor.log_item i n info) w) as [H1 _].
    set (w1 := Extractor.log_all (Extractor.log_item i n info) w) in *.
    assert (Extractor.zot w1 = Extractor.zot w) as Hz1 by apply H1.
    assert (Extractor.verbose w1 = Extractor.verbose w) as Hv1 by apply H1.
    assert (forall m,
              let r := Extractor.process_items update_item zot_file dry_run n iis
                         (Extractor.with_stats Extractor.bump_failed (Extractor.log m w1)) in
              r.2 = Extractor.Completed /\
              etraced w r.1
                ((Extractor.log_item i n info ++ [m])
                 ++ concat (map (extraction_messages zot_file (Extractor.zot w) dry_run n)
                               iis))) as Hfail.
    { intros m. destruct (etraced_log m w1) as [H2 _].
      pose proof (etraced_with_stats Extractor.bump_failed (Extractor.log m w1)) as H3.
      set (w3 := Extractor.with_stats _ _) in *.
      pose proof (etraced_trans _ _ _ _ _ (etraced_trans _ _ _ _ _ H1 H2) H3) as H13.
      rewrite app_nil_r in H13.
      destruct (IH w3) as [Hr H4].
      { destruct Hq as [Hq|Hq]; [left|by right].
        destruct H13 as (_ & _ & _ & -> & _). exact Hq. }
      cbv zeta in *. split; [exact Hr|].
      assert (Extractor.zot w3 = Extractor.zot w) as Hz3 by apply H13.
      rewrite Hz3 in H4. exact (etraced_trans _ _ _ _ _ H13 H4). }
    unfold extraction_messages at 1. cbv zeta. rewrite Hz1.
    destruct (zot_file (Extractor.zot w) (Extractor.attachment_key info)) as [| |text].
    + rewrite <- app_assoc. apply Hfail.
    + rewrite <- app_assoc. apply Hfail.
    + destruct (_find_abstract_in_text text) as [[|c a]|].
      * rewrite <- app_assoc. apply Hfail.
      * pose proof (etraced_with_stats Extractor.bump_extracted w1) as H2.
        set (w2 := Extractor.with_stats Extractor.bump_extracted w1) in *.
        destruct (etraced_log (py "  Abstract: " ++ c :: a) w2) as [H3 _].
        set (w3 := Extractor.log _ w2) in *.
        pose proof (etraced_trans _ _ _ _ _ (etraced_trans _ _ _ _ _ H1 H2) H3) as H13.
        rewrite app_nil_r in H13.
        assert (Extractor.verbose w3 = Extractor.verbose w) as Hv3 by apply H13.
        assert (Extractor.zot w3 = Extractor.zot w) as Hz3 by apply H13.
        rewrite Hv3.
        destruct (Extractor.verbose w) eqn:Ev.
        -- destruct dry_run.
           ++ destruct (etraced_log (py "  [DRY RUN] Would update abstract for "
                                       ++ format_citation (data (Extractor.parent info))) w3)
                as [H4 _].
              set (w4 := Extractor.log _ w3) in *.
              pose proof (etraced_trans _ _ _ _ _ H13 H4) as H14.
              destruct (IH w4) as [Hr H5].
              { left. destruct H14 as (_ & _ & _ & -> & _). exact Ev. }
              cbv zeta in *. split; [exact Hr|].
              assert (Extractor.zot w4 = Extractor.zot w) as Hz4 by apply H14.
              rewrite Hz4 in H5.
              pose proof (etraced_trans _ _ _ _ _ H14 H5) as H15.
              by rewrite <- !app_assoc in H15 |- *.
           ++ destruct (IH w3) as [Hr H5]; [left; by rewrite Hv3|].
              cbv zeta in *. split; [exact Hr|]. rewrite Hz3 in H5.
              pose proof (etraced_trans _ _ _ _ _ H13 H5) as H15.
              by rewrite <- !app_assoc in H15 |- *.
        -- destruct Hq as [Hq|Hq]; [done|]. subst dry_run.
           destruct (IH w3) as [Hr H5]; [by right|].
           cbv zeta in *. split; [exact Hr|]. rewrite Hz3 in H5.
           exact (etraced_quiet _ _ _ _ Ev (etraced_trans _ _ _ _ _ H13 H5)).
      * rewrite <- app_assoc. apply Hfail.
Qed.

Lemma extractor_read_updates_traced {library} (read_error : str) (f : file)
    (w : @Extractor.world library) :
  let r := Extractor.read_updates read_error f w in
  etraced w r.1 (read_messages read_error f) /\
  Extractor.stats r.1 = Extractor.stats w /\
  r.2 = parse_abstract_updates_file f.
Proof.
  destruct f as [| |text]; cbn [Extractor.read_updates read_messages fst snd].
  - split; [apply etraced_refl|done].
  - destruct (etraced_log (py "Reading updates from abstract_updates.txt...") w) as [H1 H1'].
    destruct (etraced_log (py "Error reading abstract_updates.txt: " ++ read_error)
                (Extractor.log (py "Reading updates from abstract_updates.txt...") w))
      as [H2 H2'].
    cbv zeta. rewrite H2', H1'. split; [|done].
    exact (etraced_trans _ _ _ [_] [_] H1 H2).
  - destruct (etraced_log (py "Reading updates from abstract_updates.txt...") w) as [H1 H1'].
    destruct (etraced_log (py "Found " ++ dec (length (parse_lines (file_lines text)))
                             ++ py " items in abstract_updates.txt")
                (Extractor.log (py "Reading updates from abstract_updates.txt...") w))
      as [H2 H2'].
    cbv zeta. cbn [fst snd]. rewrite H2', H1'.
    split; [|split; [done|]].
    2: { unfold parse_abstract_updates_file. by destruct (parse_lines (file_lines text)). }
    exact (etraced_trans _ _ _ [_] [_] H1 H2).
Qed.

(** X24: when the extractor neither asks nor writes.  With [dry_run],
    whatever the ledger file, the library and the PDFs, [run] sends no
    write, leaves the library as it was, reads no input and runs to its
    end.  The same holds for a verbose run in discovery (no ledger
    entries), with or without [dry_run]: in verbose mode the extracted
    abstracts are logged only. *)
Theorem extractor_run_frame {library}
    (update_item : library -> payload -> str + library)
    (everything_items : library -> list library_item)
    (zot_file : library -> str -> Extractor.pdf_file) (read_error : str)
    (f : file) (limit : option Z) (dry_run : bool) (w : @Extractor.world library) :
  let r := Extractor.run update_item everything_items zot_file read_error f limit
             dry_run w in
  let untouched :=
    Extractor.zot r.1 = Extractor.zot w /\
    Extractor.write_calls r.1 = Extractor.write_calls w /\
    Extractor.stdin r.1 = Extractor.stdin w /\ r.2 = Extractor.Completed in
  (dry_run = true -> untouched) /\
  (Extractor.verbose w = true -> run_mode f = DiscoveryMode -> untouched).
Proof.
  cbv zeta. unfold Extractor.run.
  destruct (extractor_read_updates_traced read_error f w)
    as ((Hz0 & Hw0 & Hi0 & Hv0 & _) & _ & Hups).
  cbv zeta in *.
  destruct (Extractor.read_updates read_error f w) as [w0 ups]. cbn [fst snd] in *.
  assert (Extractor.verbose w = true \/ dry_run = true ->
          let r := (let '(w1, items) :=
                      Extractor.get_items_missing_abstracts_with_pdfs everything_items
                        limit w0 in
                    Extractor.process_items update_item zot_file dry_run (length items)
                      (zip (seq 1 (length items)) items) w1) in
          Extractor.zot r.1 = Extractor.zot w /\
          Extractor.write_calls r.1 = Extractor.write_calls w /\
          Extractor.stdin r.1 = Extractor.stdin w /\ r.2 = Extractor.Completed) as Hdisc.
  { intros Hq.
    destruct (get_items_missing_abstracts_with_pdfs_traced everything_items limit w0)
      as (Hz1 & Hw1 & Hi1 & Hv1 & _).
    destruct (Extractor.get_items_missing_abstracts_with_pdfs everything_items limit w0)
      as [w1 items]. cbn [fst snd] in *.
    destruct (process_items_quiet update_item zot_file dry_run (length items)
                (zip (seq 1 (length items)) items) w1) as (Hr & Hz2 & Hw2 & Hi2 & _).
    { destruct Hq as [Hq|Hq]; [left|by right]. by rewrite Hv1, Hv0. }
    cbv zeta. by rewrite Hz2, Hw2, Hi2, Hz1, Hw1, Hi1, Hz0, Hw0, Hi0. }
  split.
  - intros ->. destruct ups as [[|u us]|]; [by apply Hdisc; right| |by apply Hdisc; right].
    cbn [fst snd].
    destruct (extractor_replay_effect update_item everything_items (u :: us) true w0)
      as (Hi & _ & _ & (new & Hw & Hnew) & Hz).
    cbv zeta in *. destruct (Hz eq_refl) as [Hz' _].
    rewrite Hz', Hz0, Hi, Hi0, Hw, Hw0.
    destruct new; [by rewrite app_nil_r|done].
  - intros Hv Hmode. unfold run_mode in Hmode. rewrite <- Hups in Hmode.
    destruct ups as [[|u us]|]; [by apply Hdisc; left|done|by apply Hdisc; left].
Qed.

Lemma extractor_run_frame_witness :
  let paper := LibraryItem (Item (py "P1") 3 (ItemData [] None None (Some (py "T")) None))
                           (Some (py "journalArticle")) None None None None in
  let pdf := LibraryItem (Item (py "A1") 1 (ItemData [] None None None None))
                         (Some (py "attachment")) None (Some (py "application/pdf"))
                         (Some (py "P1")) None in
  let w := Extractor.World tt [] true [] Extractor.stats_init [py "y"] in
  let r := Extractor.run (fun z _ => inr z) (fun _ : unit => [paper; pdf])
             (fun _ _ => Extractor.Pages sixty_words) [] Missing None false w in
  Extractor.write_calls r.1 = [] /\ Extractor.stdin r.1 = [py "y"] /\
  Extractor.abstract_extracted (Extractor.stats r.1) = 1.
Proof.
  intros paper pdf w r.
  destruct (extractor_run_frame (fun (z : unit) _ => @inr str unit z)
              (fun _ : unit => [paper; pdf]) (fun _ _ => Extractor.Pages sixty_words) []
              Missing None false w) as [_ H].
  destruct (H eq_refl eq_refl) as (_ & Hw & Hi & _).
  split; [exact Hw|]. split; [exact Hi|]. vm_compute. reflexivity.
Defined.

Lemma one_of_inv (options : list string) (s : str) :
  one_of options s = true -> exists o, In o options /\ s = py o.
Proof.
  unfold one_of. rewrite existsb_exists. intros (o & Ho & He).
  exists o. split; [done|]. by apply str_eqb_eq.
Qed.

Lemma approve_not_understood {library}
    (update_item : library -> payload -> str + library)
    (it : item) (abstract : str) (unclear inputs : list str)
    (w : @Extractor.world library) :
  forallb (fun line => negb (understood line)) unclear = true ->
  Extractor.approve update_item it abstract (unclear ++ inputs) w
  = Extractor.approve update_item it abstract inputs w.
Proof.
  revert w. induction unclear as [|line unclear IH]; intros w Hu; [done|].
  cbn [forallb] in Hu. apply andb_true_iff in Hu as [Hl Hu].
  cbn [app Extractor.approve]. cbv zeta.
  unfold understood, reply, one_of in Hl. cbn [existsb] in Hl.
  rewrite !negb_true_iff, !orb_false_iff in Hl.
  destruct Hl as (Hy & Hyes & Hn & Hno & He & Hedit & Hq & Hquit & _).
  unfold one_of. cbn [existsb].
  rewrite Hy, Hyes, Hn, Hno, He, Hedit, Hq, Hquit. cbn [orb].
  rewrite IH by done. by destruct inputs.
Qed.

(** X25: the approval loop.  Lines that are none of y, yes, n, no, e,
    edit, q, quit (in any case, with any spaces around) are asked again
    and change nothing.  After them: n or no counts one skipped item and
    writes nothing; q or quit stops the run with nothing written and
    nothing counted; y or yes sends exactly one write, of the extracted
    abstract, and counts an approval only when the write succeeds (a
    write that raises is counted nowhere); and when the input ends the
    run stops with nothing written. *)
Theorem approve_answers {library}
    (update_item : library -> payload -> str + library)
    (it : item) (abstract : str) (unclear : list str) (line : str) (rest : list str)
    (w : @Extractor.world library) :
  forallb (fun line => negb (understood line)) unclear = true ->
  let ask inputs := Extractor.approve update_item it abstract (unclear ++ inputs) w in
  let sent := Payload (key it) (version it) (set_abstractNote abstract (data it)) in
  ask [] = (heard [] w, Extractor.InputExhausted) /\
  (one_of ["n"; "no"]%string (reply line) = true ->
   ask (line :: rest)
   = (Extractor.with_stats Extractor.bump_skipped (heard rest w), Extractor.Completed)) /\
  (one_of ["q"; "quit"]%string (reply line) = true ->
   ask (line :: rest) = (heard rest w, Extractor.QuitByUser)) /\
  (one_of ["y"; "yes"]%string (reply line) = true ->
   let r := ask (line :: rest) in
   r.2 = Extractor.Completed /\ Extractor.stdin r.1 = rest /\
   Extractor.write_calls r.1 = Extractor.write_calls w ++ [sent] /\
   match update_item (Extractor.zot w) sent with
   | inr z =>
       Extractor.zot r.1 = z /\
       Extractor.stats r.1 = Extractor.bump_approved (Extractor.stats w)
   | inl _ =>
       Extractor.zot r.1 = Extractor.zot w /\ Extractor.stats r.1 = Extractor.stats w
   end).
Proof.
  intros Hu ask sent. subst ask. cbv beta.
  rewrite !(approve_not_understood update_item it abstract unclear) by done.
  split; [done|]. split; [|split].
  - intros H. apply one_of_inv in H as (o & Ho & He).
    cbn [Extractor.approve]. cbv zeta. fold (reply line). rewrite He.
    by destruct Ho as [<-|[<-|[]]].
  - intros H. apply one_of_inv in H as (o & Ho & He).
    cbn [Extractor.approve]. cbv zeta. fold (reply line). rewrite He.
    by destruct Ho as [<-|[<-|[]]].
  - intros H. cbn [Extractor.approve]. cbv zeta. fold (reply line). rewrite H.
    fold (heard rest w).
    destruct (update_zotero_item_effect update_item it abstract false (heard rest w))
      as (Hs & Hi & _ & Hw & Hz).
    cbv zeta in Hz. fold sent in Hz.
    change (Extractor.zot (heard rest w)) with (Extractor.zot w) in Hz.
    destruct (Extractor.update_zotero_item update_item it abstract false (heard rest w))
      as [w' ok]. cbn [fst snd] in *.
    split; [done|].
    destruct (update_item (Extractor.zot w) sent) as [e|z];
      destruct Hz as (-> & Hz & _); cbn [fst].
    + by rewrite Hi, Hw, Hz, Hs.
    + unfold Extractor.with_stats. cbn. by rewrite Hi, Hw, Hz, Hs.
Qed.

Lemma approve_answers_witness :
  let it := Item (py "P1") 3 (ItemData [] None None (Some (py "T")) None) in
  let w := Extractor.World tt [] false [] Extractor.stats_init [] in
  let r := Extractor.approve (fun (z : unit) _ => @inr str unit z) it (py "An abstract")
             ([py "maybe"; []] ++ [py " NO "; py "y"]) w in
  Extractor.write_calls r.1 = [] /\ Extractor.stdin r.1 = [py "y"] /\
  Extractor.user_skipped (Extractor.stats r.1) = 1.
Proof.
  intros it w r.
  destruct (approve_answers (fun (z : unit) _ => @inr str unit z) it (py "An abstract")
              [py "maybe"; []] (py " NO ") [py "y"] w eq_refl) as (_ & H & _).
  cbv zeta in H. subst r. by rewrite (H eq_refl).
Defined.

Lemma found_abstract_plain (text a : str) :
  _find_abstract_in_text text = Some a -> one_line a = true /\ trimmed a = true.
Proof.
  intros (earlier & p & later & m & _ & _ & _ & -> & _)%find_abstract_from_some.
  split; [|apply clean_abstract_single_spaced].
  unfold one_line. apply forallb_forall. intros c Hc.
  pose proof (clean_abstract_spaces _ c Hc) as H.
  destruct (char_eqb c nl) eqn:E1.
  { apply Ascii.eqb_eq in E1. subst. destruct nl_not_blank. exact (H space_nl). }
  destruct (char_eqb c cr) eqn:E2; [|done].
  apply Ascii.eqb_eq in E2. subst. destruct cr_not_blank. exact (H space_cr).
Qed.

(** The lines of an entry with lines the parser passes over between
    them. *)
Lemma parse_lines_entry_between (l1 l2 l3 l5 : str) (between after : list str)
    (e : entry) :
  classify l1 = ProcessingLine (Some (e_citation e)) ->
  classify l2 = TitleLine (e_title e) -> classify l3 = DoiLine (e_doi e) ->
  classify l5 = AbstractLine (e_abstract e) ->
  forallb is_ignored between = true -> forallb is_ignored after = true ->
  parse_lines ([l1; l2; l3] ++ between ++ [l5] ++ after) = [to_item e].
Proof.
  intros H1 H2 H3 H5 Hb Ha. rewrite parse_lines_view, !fold_left_app.
  rewrite (fold_view_step_ignored after) by done.
  rewrite (fold_view_step_ignored between) by done.
  cbn [fold_left]. unfold view_step. by rewrite H1, H2, H3, H5.
Qed.

Lemma junk_extraction_failures :
  forallb junk [py "  Failed to download PDF"; py "  Could not find abstract in PDF"] = true.
Proof. vm_compute. reflexivity. Qed.

(** The lines of one iteration of the extractor, in front of lines that
    open an entry. *)
Lemma extraction_block {library} (zot_file : library -> str -> Extractor.pdf_file)
    (z : library) (dry_run : bool) (n i : nat) (info : Extractor.pdf_item)
    (rest : list str) :
  pdf_loggable info = true -> opens_entry rest = true ->
  let ms := extraction_messages zot_file z dry_run n (i, info) in
  forallb plain ms = true /\ opens_entry (map with_nl ms ++ rest) = true /\
  parse_lines (map with_nl ms ++ rest)
  = map to_item (option_list (extracted_entry zot_file z info)) ++ parse_lines rest.
Proof.
  unfold pdf_loggable. cbv zeta. rewrite !andb_true_iff.
  intros [[[[[Hn Ht] Ht'] Hd] Hd'] Hf] Hrest.
  destruct (format_citation_one_line _ Hn) as [Hne Hc].
  unfold extraction_messages, extracted_entry, Extractor.log_item. cbv zeta.
  set (d := data (Extractor.parent info)) in *.
  set (cit := format_citation d) in *.
  set (title := get (data_title d) (py "Unknown")) in *.
  set (doi := get (DOI d) []) in *.
  assert (forallb plain (log_processing i n cit title doi) = true) as Hplain.
  { cbn [log_processing forallb]. rewrite !andb_true_iff. repeat split.
    - unfold plain. apply andb_true_intro. split; [|reflexivity].
      by rewrite !one_line_app, !one_line_dec, Hc.
    - apply (plain_indented (py " Title: " ++ title)). by rewrite one_line_app, Ht.
    - apply (plain_indented (py " DOI: " ++ doi)). by rewrite one_line_app, Hd. }
  assert (classify (with_nl (nth 0 (log_processing i n cit title doi) []))
          = ProcessingLine (Some cit)) as H1 by (by apply classify_processing).
  assert (classify (with_nl (py "  Title: " ++ title)) = TitleLine title) as H2
    by (by apply classify_title).
  assert (classify (with_nl (py "  DOI: " ++ doi)) = DoiLine doi) as H3
    by (by apply classify_doi).
  assert (junk (py "  PDF: " ++ Extractor.pdf_filename info) = true) as Hpdf by other_line.
  apply andb_prop in Hpdf as [Hp4 Hi4].
  assert (forall m, junk m = true ->
            let ms := (log_processing i n cit title doi
                       ++ [py "  PDF: " ++ Extractor.pdf_filename info]) ++ [m] in
            forallb plain ms = true /\ opens_entry (map with_nl ms ++ rest) = true /\
            parse_lines (map with_nl ms ++ rest) = parse_lines rest) as Hfail.
  { intros m [Hp Hi]%andb_prop. cbv zeta.
    split; [rewrite !forallb_app, Hplain; cbn [forallb]; by rewrite Hp4, Hp|].
    cbn [log_processing nth app map] in *. split.
    - cbn [opens_entry]. unfold is_marker. by rewrite H1.
    - change (?a :: ?b :: ?c :: ?d :: ?e :: rest) with ([a; b; c; d; e] ++ rest).
      rewrite parse_lines_app_opens by done.
      destruct (is_ignored_kinds _ Hi) as (H5 & H5' & _).
      destruct (is_ignored_kinds _ Hi4) as (H4 & H4' & _).
      assert (is_processing (with_nl (py "  Title: " ++ title)) = false) as P2
        by (unfold is_processing; by rewrite H2).
      assert (is_processing (with_nl (py "  DOI: " ++ doi)) = false) as P3
        by (unfold is_processing; by rewrite H3).
      assert (is_abstract_line (with_nl (py "  Title: " ++ title)) = false) as A2
        by (unfold is_abstract_line; by rewrite H2).
      assert (is_abstract_line (with_nl (py "  DOI: " ++ doi)) = false) as A3
        by (unfold is_abstract_line; by rewrite H3).
      rewrite parse_lines_incomplete; [done| | |].
      + unfold is_marker. by rewrite H1.
      + cbn [forallb]. by rewrite P2, P3, H4, H5.
      + right. cbn [forallb]. by rewrite A2, A3, H4', H5'. }
  pose proof junk_extraction_failures as Hj. cbn [forallb] in Hj.
  apply andb_prop in Hj as [Hj1 [Hj2 _]%andb_prop].
  destruct (zot_file z (Extractor.attachment_key info)) as [| |text];
    [exact (Hfail _ Hj1)|exact (Hfail _ Hj2)|].
  destruct (_find_abstract_in_text text) as [[|c a]|] eqn:Ea;
    [exact (Hfail _ Hj2)| |exact (Hfail _ Hj2)].
  destruct (found_abstract_plain _ _ Ea) as [Ha Ha'].
  set (abstract := c :: a) in *.
  assert (classify (with_nl (py "  Abstract: " ++ abstract)) = AbstractLine abstract) as H5
    by (by apply classify_abstract).
  assert (forallb junk (if dry_run
                        then [py "  [DRY RUN] Would update abstract for " ++ cit]
                        else []) = true) as Hdry.
  { destruct dry_run; [|done]. cbn [forallb]. apply andb_true_intro.
    split; [|done]. other_line. }
  destruct (junk_lines _ Hdry) as [Hp6 Hi6].
  split; [|split].
  - rewrite !forallb_app, Hplain. cbn [forallb]. rewrite Hp4.
    assert (plain (py "  Abstract: " ++ abstract) = true) as ->.
    { apply (plain_indented (py " Abstract: " ++ abstract)). by rewrite one_line_app, Ha. }
    exact Hp6.
  - cbn [log_processing nth app map] in *. cbn [opens_entry]. unfold is_marker.
    by rewrite H1.
  - rewrite parse_lines_app_opens by done. f_equal.
    rewrite !map_app. cbn [log_processing nth app map] in *.
    apply (parse_lines_entry_between _ _ _ _ [_] _ (Entry cit title doi abstract));
      try done.
    cbn [forallb]. by rewrite Hi4.
Qed.

Lemma extraction_blocks {library} (zot_file : library -> str -> Extractor.pdf_file)
    (z : library) (dry_run : bool) (n : nat) (iis : list (nat * Extractor.pdf_item)) :
  forallb (fun ii => pdf_loggable ii.2) iis = true ->
  let ms := concat (map (extraction_messages zot_file z dry_run n) iis) in
  forallb plain ms = true /\ opens_entry (map with_nl ms) = true /\
  parse_lines (map with_nl ms)
  = map to_item (omap (fun ii => extracted_entry zot_file z ii.2) iis).
Proof.
  induction iis as [|[i info] iis IH]; [intros _; repeat split; reflexivity|].
  cbn [forallb map concat snd]. intros [Hii Hiis]%andb_prop.
  destruct (IH Hiis) as (Hp & Ho & Hparse). cbv zeta in *.
  destruct (extraction_block zot_file z dry_run n i info _ Hii Ho) as (Hp' & Ho' & Hparse').
  cbv zeta in *.
  rewrite forallb_app, map_app, Hp, Hp', Hparse', Hparse.
  split; [done|]. split; [done|].
  change (omap ?f ((i, info) :: iis))
    with (match f (i, info) with Some y => y :: omap f iis | None => omap f iis end).
  cbn [snd]. by destruct (extracted_entry zot_file z info).
Qed.

Lemma omap_zip_snd {A B C} (f : B -> option C) (ks : list A) (l : list B) :
  length ks = length l -> omap (fun ii => f ii.2) (zip ks l) = omap f l.
Proof.
  revert l. induction ks as [|k ks IH]; intros [|x l]; try done.
  intros [= H]. cbn [zip zip_with].
  change (omap ?g ((k, x) :: ?t))
    with (match g (k, x) with Some y => y :: omap g t | None => omap g t end).
  change (omap f (x :: l))
    with (match f x with Some y => y :: omap f l | None => omap f l end).
  cbn [snd]. fold (zip ks l). by rewrite IH.
Qed.

(** X26: the log file of a verbose extractor run is a ledger of what
    the run extracted.  Let the extractor run in discovery (no ledger
    file, or one without entries) in verbose mode, with or without
    [dry_run], with a fresh log file, and let the records it processes
    hold no line end in the last names shown, the title, the DOI and the
    name of the PDF, and no whitespace around the title and the DOI.
    Then parsing the text of the log file, each message behind its own
    prefix, gives exactly one entry for every record in whose PDF the
    segmenter found an abstract, in the order of the run, with the
    citation label, the title (or "Unknown"), the DOI as the library has
    it (empty when the item has none) and the extracted abstract; the
    records whose PDF could not be fetched or read or holds no abstract
    add nothing.  Nothing is asked of the abstract: the segmenter
    returns one line without whitespace around it. *)
Theorem extractor_verbose_log_is_ledger {library}
    (update_item : library -> payload -> str + library)
    (everything_items : library -> list library_item)
    (zot_file : library -> str -> Extractor.pdf_file) (read_error : str)
    (f : file) (limit : option Z) (dry_run : bool) (w : @Extractor.world library)
    (stamps : list str) :
  let records := (Extractor.get_items_missing_abstracts_with_pdfs everything_items
                    limit w).2 in
  let w' := (Extractor.run update_item everything_items zot_file read_error f limit
               dry_run w).1 in
  Extractor.verbose w = true -> Extractor.log_file w = [] ->
  run_mode f = DiscoveryMode -> one_line read_error = true ->
  forallb pdf_loggable records = true ->
  length stamps = length (Extractor.log_file w') -> forallb is_log_stamp stamps = true ->
  parse_lines (file_lines (log_file_text stamps (Extractor.log_file w')))
  = map to_item (omap (extracted_entry zot_file (Extractor.zot w)) records).
Proof.
  intros records w' Hv Hlog Hmode Herr Hrec Hlen Hst.
  set (numbered := zip (seq 1 (length records)) records).
  assert (Extractor.log_file w'
          = read_messages read_error f
            ++ concat (map (extraction_messages zot_file (Extractor.zot w) dry_run
                              (length records)) numbered)) as Hw'.
  { subst w'. unfold Extractor.run.
    destruct (extractor_read_updates_traced read_error f w)
      as ((Hz0 & _ & _ & Hv0 & Hl0) & _ & Hups).
    cbv zeta in *.
    destruct (Extractor.read_updates read_error f w) as [w0 ups]. cbn [fst snd] in *.
    rewrite Hv, Hlog in *. cbn [app] in Hl0.
    pose proof (get_items_missing_abstracts_with_pdfs_traced everything_items limit w0)
      as (Hz1 & _ & _ & Hv1 & Hl1).
    assert ((Extractor.get_items_missing_abstracts_with_pdfs everything_items limit w0).2
            = records) as Hrecords.
    { subst records.
      destruct (get_items_missing_abstracts_with_pdfs_unfold everything_items limit w0)
        as [_ ->].
      destruct (get_items_missing_abstracts_with_pdfs_unfold everything_items limit w)
        as [_ ->].
      by rewrite Hz0. }
    destruct (Extractor.get_items_missing_abstracts_with_pdfs everything_items limit w0)
      as [w1 items]. cbn [fst snd] in *. subst items. fold numbered.
    rewrite Hv0 in *. rewrite app_nil_r in Hl1.
    destruct (process_items_quiet update_item zot_file dry_run (length records) numbered
                w1) as (_ & _ & _ & _ & _ & Hl2); [left; by rewrite Hv1|].
    rewrite Hv1, Hz1, Hz0, Hl1, Hl0 in Hl2.
    unfold run_mode in Hmode. rewrite <- Hups in Hmode.
    destruct ups as [[|u us]|]; try done. }
  rewrite Hw' in Hlen |- *.
  assert (forallb (fun ii : nat * Extractor.pdf_item => pdf_loggable ii.2) numbered = true)
    as Hnum.
  { apply forallb_forall. intros [i info] Hin. cbn [snd].
    rewrite forallb_forall in Hrec. apply Hrec.
    apply list_elem_of_In. apply list_elem_of_In in Hin.
    subst numbered. by apply elem_of_zip_r in Hin. }
  destruct (extraction_blocks zot_file (Extractor.zot w) dry_run (length records) numbered
              Hnum) as (Hp & _ & Hparse).
  cbv zeta in *.
  destruct (junk_lines _ (junk_read_messages read_error f Herr)) as [Hp1 Hj1].
  rewrite <- (app_nil_r (_ ++ concat _)) in Hlen |- *.
  rewrite parse_log_file; [| exact Hlen | exact Hst | |by left].
  - rewrite map_app.
    pose proof (parse_lines_junk (map with_nl (read_messages read_error f))
                  (map with_nl (concat (map (extraction_messages zot_file (Extractor.zot w)
                                               dry_run (length records)) numbered)))
                  [] Hj1 eq_refl) as H.
    rewrite app_nil_r in H. rewrite H, Hparse. f_equal.
    subst numbered. apply omap_zip_snd. by rewrite length_seq.
  - by rewrite forallb_app, Hp1, Hp.
Qed.

Lemma extractor_verbose_log_is_ledger_witness :
  let paper k t :=
    LibraryItem (Item k 1 (ItemData [Creator (Some (py "author")) (Some (py "Smith"))]
                             (Some (py "2020-05-01")) (Some (py "10.1/a")) (Some t) None))
                (Some (py "journalArticle")) None None None None in
  let pdf k p :=
    LibraryItem (Item k 1 (ItemData [] None None None None))
                (Some (py "attachment")) None (Some (py "application/pdf")) (Some p)
                (Some (py "paper.pdf")) in
  let lib (_ : unit) :=
    [paper (py "K1") (py "First"); paper (py "K2") (py "Second");
     pdf (py "A1") (py "K1"); pdf (py "A2") (py "K2")] in
  let zot_file (_ : unit) (k : str) :=
    if str_eqb k (py "A1") then Extractor.Pages sixty_words else Extractor.DownloadFails in
  let w := Extractor.World tt [] true [] Extractor.stats_init [] in
  let w' := (Extractor.run (fun z _ => inr z) lib zot_file [] Missing None false w).1 in
  parse_lines (file_lines (log_file_text
                             (replicate (length (Extractor.log_file w')) stamp_example)
                             (Extractor.log_file w')))
  = [LedgerItem (Some (py "Smith 2020")) (Some (py "First")) (Some (py "10.1/a"))
                (Some sixty)].
Proof.
  intros paper pdf lib zot_file w w'.
  etransitivity.
  - apply (extractor_verbose_log_is_ledger (fun (z : unit) _ => inr z) lib zot_file []
             Missing None false w); vm_compute; reflexivity.
  - vm_compute. reflexivity.
Defined.

(** X27: where the segmenter cuts.  The end of the candidate abstract is
    never behind the end of the text and never behind the start of the
    first match of any end pattern, and it is the end of the text or the
    start of the first match of one of the end patterns: the candidate
    stops at the earliest end marker, in whatever order the patterns are
    listed, and at the end of the text when there is none. *)
Theorem find_end_earliest (remaining_text : str) :
  find_end remaining_text <= length remaining_text /\
  (forall p m, In p ABSTRACT_END_PATTERNS -> re_search p remaining_text = Some m ->
               find_end remaining_text <= m_start m) /\
  (find_end remaining_text = length remaining_text \/
   exists p m, In p ABSTRACT_END_PATTERNS /\ re_search p remaining_text = Some m /\
               find_end remaining_text = m_start m).
Proof.
  unfold find_end. generalize (length remaining_text) as n.
  generalize ABSTRACT_END_PATTERNS as ps.
  induction ps as [|p ps IH]; intros n.
  - split; [done|]. split; [by intros ? ? []|by left].
  - cbn [fold_left].
    set (n' := match re_search p remaining_text with
               | Some end_match =>
                   if m_start end_match <? n then m_start end_match else n
               | None => n
               end).
    destruct (IH n') as (Hle & Hall & Hex).
    assert (n' <= n) as Hn'.
    { subst n'. destruct (re_search p remaining_text) as [m|]; [|done].
      destruct (Nat.ltb_spec (m_start m) n); lia. }
    split; [lia|]. split.
    + intros q m [<-|Hq] Hm; [|by apply (Hall q m)].
      subst n'. rewrite Hm in Hle |- *.
      destruct (Nat.ltb_spec (m_start m) n); lia.
    + destruct Hex as [Hr|(q & m & Hq & Hm & Hr)].
      * subst n'. destruct (re_search p remaining_text) as [m|] eqn:Em; [|by left].
        destruct (Nat.ltb_spec (m_start m) n); [|by left].
        right. exists p, m. split; [by left|done].
      * right. exists q, m. split; [by right|done].
Qed.

Lemma accounted_refl {library} (w : @Extractor.world library) :
  accounted w w 0 0 0 0 [] [].
Proof.
  unfold accounted. rewrite app_nil_r, !Nat.add_0_r. by destruct (Extractor.stats w).
Qed.

Lemma accounted_trans {library} (w1 w2 w3 : @Extractor.world library)
    (e fl a s e' fl' a' s' : nat) (new new' : list payload) (used used' : list str) :
  accounted w1 w2 e fl a s new used -> accounted w2 w3 e' fl' a' s' new' used' ->
  accounted w1 w3 (e + e') (fl + fl') (a + a') (s + s') (new ++ new') (used ++ used').
Proof.
  intros (Hw & Hi & Hv & Hs) (Hw' & Hi' & Hv' & Hs'). unfold accounted.
  rewrite Hw', Hw, Hi, Hi', Hv', Hv, Hs', Hs. cbn.
  by rewrite <- !app_assoc, <- !Nat.add_assoc.
Qed.

Lemma accounted_etraced {library} (w w' : @Extractor.world library) (ms : list str) :
  etraced w w' ms -> Extractor.stats w' = Extractor.stats w ->
  accounted w w' 0 0 0 0 [] [].
Proof.
  intros (_ & Hw & Hi & Hv & _) Hs. unfold accounted.
  rewrite Hw, Hi, Hv, Hs, app_nil_r, !Nat.add_0_r. by destruct (Extractor.stats w).
Qed.

Lemma accounted_heard {library} (line : str) (rest : list str)
    (w : @Extractor.world library) :
  Extractor.stdin w = line :: rest -> accounted w (heard rest w) 0 0 0 0 [] [line].
Proof.
  intros Hi. unfold accounted, heard. cbn.
  rewrite Hi, app_nil_r, !Nat.add_0_r. by destruct (Extractor.stats w).
Qed.

Lemma read_lines_Some (inputs lines rest : list str) :
  Extractor.read_lines inputs = Some (lines, rest) -> inputs = lines ++ [] :: rest.
Proof.
  revert lines. induction inputs as [|line inputs IH]; intros lines; [done|].
  cbn [Extractor.read_lines]. destruct line as [|c line]; [by intros [= <- <-]|].
  destruct (Extractor.read_lines inputs) as [[lines' rest']|]; [|done].
  intros [= <- <-]. by rewrite (IH lines' eq_refl).
Qed.

(** What one live call of the applier adds to the account. *)
Lemma accounted_update {library}
    (update_item : library -> payload -> str + library)
    (it : item) (abstract : str) (w : @Extractor.world library) :
  let r := Extractor.update_zotero_item update_item it abstract false w in
  let w' := if r.2 then Extractor.with_stats Extractor.bump_approved r.1 else r.1 in
  exists a sent, a <= 1 /\ accounted w w' 0 0 a 0 [sent] [].
Proof.
  cbv zeta.
  destruct (update_zotero_item_effect update_item it abstract false w)
    as (Hs & Hi & Hv & Hw & _).
  cbv zeta in *.
  destruct (Extractor.update_zotero_item update_item it abstract false w) as [w' ok].
  cbn [fst snd] in *.
  exists (if ok then 1 else 0).
  exists (Payload (key it) (version it) (set_abstractNote abstract (data it))).
  split; [destruct ok; lia|].
  unfold accounted. destruct ok; cbn; rewrite Hw, Hi, Hv, Hs;
    rewrite ?Nat.add_0_r, ?Nat.add_1_r; by destruct (Extractor.stats w).
Qed.

Ltac account_rest :=
  cbn [fst snd length] in *; rewrite ?length_app;
  repeat match goal with |- _ /\ _ => split end;
  try lia; try done;
  try (intros Hcompleted;
       repeat match goal with
              | H : _ = Extractor.Completed -> _ |- _ => specialize (H Hcompleted)
              end; lia).

Lemma approve_effect {library}
    (update_item : library -> payload -> str + library)
    (it : item) (abstract : str) (inputs : list str) (w : @Extractor.world library) :
  Extractor.stdin w = inputs ->
  let r := Extractor.approve update_item it abstract inputs w in
  exists a s new used,
    accounted w r.1 0 0 a s new used /\
    a <= length new /\ length new + s <= 1 /\ length new <= length used /\
    (r.2 <> Extractor.Completed -> new = [] /\ s = 0).
Proof.
  revert w. induction inputs as [|line rest IH]; intros w Hin.
  - exists 0, 0, [], []. cbn [Extractor.approve fst snd length].
    split; [|account_rest]. fold (heard [] w).
    unfold accounted, heard. cbn. rewrite Hin, app_nil_r, !Nat.add_0_r.
    by destruct (Extractor.stats w).
  - pose proof (accounted_heard line rest w Hin) as H0.
    cbn [Extractor.approve]. cbv zeta. fold (heard rest w).
    destruct (one_of ["y"; "yes"]%string (str_strip (str_lower line))).
    { destruct (accounted_update update_item it abstract (heard rest w))
        as (a & sent & Ha & H1).
      cbv zeta in H1.
      destruct (Extractor.update_zotero_item update_item it abstract false (heard rest w))
        as [w' ok]. cbn [fst snd] in *.
      exists a, 0, [sent], [line].
      split; [exact (accounted_trans _ _ _ _ _ _ _ _ _ _ _ _ _ _ _ H0 H1)|].
      account_rest. }
    destruct (one_of ["n"; "no"]%string (str_strip (str_lower line))).
    { exists 0, 1, [], [line]. split; [|account_rest].
      destruct H0 as (Hw & Hi & Hv & Hs). unfold accounted, Extractor.with_stats.
      cbn in *. rewrite Hin, !app_nil_r, !Nat.add_0_r, Nat.add_1_r.
      by destruct (Extractor.stats w). }
    destruct (one_of ["e"; "edit"]%string (str_strip (str_lower line))).
    { destruct (Extractor.read_lines rest) as [[lines rest']|] eqn:Er.
      - apply read_lines_Some in Er.
        assert (accounted w (heard rest' w) 0 0 0 0 [] (line :: lines ++ [[]])) as H1.
        { unfold accounted, heard. cbn. rewrite Hin, Er, app_nil_r, !Nat.add_0_r.
          rewrite <- app_assoc. by destruct (Extractor.stats w). }
        change (Extractor.World (Extractor.zot (heard rest w))
                  (Extractor.write_calls (heard rest w)) (Extractor.verbose (heard rest w))
                  (Extractor.log_file (heard rest w)) (Extractor.stats (heard rest w)) rest')
          with (heard rest' w).
        destruct lines as [|l lines].
        + exists 0, 0, [], [line; []]. cbn [fst snd length].
          split; [exact H1|account_rest].
        + destruct (accounted_update update_item it (str_join (py " ") (l :: lines))
                      (heard rest' w)) as (a & sent & Ha & H2).
          cbv zeta in H2.
          destruct (Extractor.update_zotero_item update_item it
                      (str_join (py " ") (l :: lines)) false (heard rest' w)) as [w' ok].
          cbn [fst snd] in *.
          exists a, 0, [sent], (line :: (l :: lines) ++ [[]]).
          split.
          * pose proof (accounted_trans _ _ _ _ _ _ _ _ _ _ _ _ _ _ _ H1 H2) as H3.
            by rewrite app_nil_r in H3.
          * account_rest.
      - exists 0, 0, [], (line :: rest). cbn [fst snd length].
        split; [|repeat split; try lia; done].
        unfold accounted, heard. cbn. rewrite Hin, !app_nil_r, !Nat.add_0_r.
        by destruct (Extractor.stats w). }
    destruct (one_of ["q"; "quit"]%string (str_strip (str_lower line))).
    { exists 0, 0, [], [line]. cbn [fst snd length].
      split; [exact H0|account_rest]. }
    destruct (IH (heard rest w) eq_refl) as (a & s & new & used & H1 & Hrest).
    cbv zeta in H1.
    exists a, s, new, (line :: used).
    split; [exact (accounted_trans _ _ _ _ _ _ _ _ _ _ _ _ _ _ _ H0 H1)|].
    destruct Hrest as (? & ? & ? & ?). account_rest.
Qed.

Lemma process_items_effect {library}
    (update_item : library -> payload -> str + library)
    (zot_file : library -> str -> Extractor.pdf_file)
    (dry_run : bool) (n : nat) (iis : list (nat * Extractor.pdf_item))
    (w : @Extractor.world library) :
  let r := Extractor.process_items update_item zot_file dry_run n iis w in
  exists e fl a s new used,
    accounted w r.1 e fl a s new used /\
    e + fl <= length iis /\ (r.2 = Extractor.Completed -> e + fl = length iis) /\
    a <= length new /\ length new + s <= e /\ length new <= length used.
Proof.
  revert w. induction iis as [|[i info] iis IH]; intros w.
  - exists 0, 0, 0, 0, [], []. split; [apply accounted_refl|account_rest].
  - cbn [Extractor.process_items length]. cbv zeta.
    destruct (etraced_log_all (Extractor.log_item i n info) w) as [H1 Hs1].
    pose proof (accounted_etraced _ _ _ H1 Hs1) as A1.
    set (w1 := Extractor.log_all (Extractor.log_item i n info) w) in *.
    assert (forall m,
              let r := Extractor.process_items update_item zot_file dry_run n iis
                         (Extractor.with_stats Extractor.bump_failed (Extractor.log m w1)) in
              exists e fl a s new used,
                accounted w r.1 e fl a s new used /\
                e + fl <= S (length iis) /\
                (r.2 = Extractor.Completed -> e + fl = S (length iis)) /\
                a <= length new /\ length new + s <= e /\ length new <= length used) as Hfail.
    { intros m. destruct (etraced_log m w1) as [H2 Hs2].
      pose proof (accounted_etraced _ _ _ H2 Hs2) as A2.
      assert (accounted (Extractor.log m w1)
                (Extractor.with_stats Extractor.bump_failed (Extractor.log m w1))
                0 1 0 0 [] []) as A3.
      { unfold accounted, Extractor.with_stats. cbn.
        rewrite !app_nil_r, !Nat.add_0_r, Nat.add_1_r.
        by destruct (Extractor.stats (Extractor.log m w1)). }
      destruct (IH (Extractor.with_stats Extractor.bump_failed (Extractor.log m w1)))
        as (e & fl & a & s & new & used & A4 & Hle & Heq & Ha & Hn & Hu).
      cbv zeta in *.
      exists e, (S fl), a, s, new, used. split.
      - exact (accounted_trans _ _ _ _ _ _ _ _ _ _ _ _ _ _ _
                 (accounted_trans _ _ _ _ _ _ _ _ _ _ _ _ _ _ _
                    (accounted_trans _ _ _ _ _ _ _ _ _ _ _ _ _ _ _ A1 A2) A3) A4).
      - account_rest. }
    destruct (zot_file (Extractor.zot w1) (Extractor.attachment_key info)) as [| |text];
      [apply Hfail|apply Hfail|].
    destruct (_find_abstract_in_text text) as [[|c t]|]; [apply Hfail| |apply Hfail].
    assert (accounted w1 (Extractor.with_stats Extractor.bump_extracted w1) 1 0 0 0 [] [])
      as A2.
    { unfold accounted, Extractor.with_stats. cbn.
      rewrite !app_nil_r, !Nat.add_0_r, Nat.add_1_r. by destruct (Extractor.stats w1). }
    set (w2 := Extractor.with_stats Extractor.bump_extracted w1) in *.
    destruct (etraced_log (py "  Abstract: " ++ c :: t) w2) as [H3 Hs3].
    pose proof (accounted_etraced _ _ _ H3 Hs3) as A3.
    set (w3 := Extractor.log (py "  Abstract: " ++ c :: t) w2) in *.
    pose proof (accounted_trans _ _ _ _ _ _ _ _ _ _ _ _ _ _ _
                  (accounted_trans _ _ _ _ _ _ _ _ _ _ _ _ _ _ _ A1 A2) A3) as A13.
    cbn [app Nat.add] in A13.
    assert (forall w4, accounted w3 w4 0 0 0 0 [] [] ->
              let r := Extractor.process_items update_item zot_file dry_run n iis w4 in
              exists e fl a s new used,
                accounted w r.1 e fl a s new used /\
                e + fl <= S (length iis) /\
                (r.2 = Extractor.Completed -> e + fl = S (length iis)) /\
                a <= length new /\ length new + s <= e /\ length new <= length used) as Hnext.
    { intros w4 A4.
      destruct (IH w4) as (e & fl & a & s & new & used & A5 & Hle & Heq & Ha & Hn & Hu).
      cbv zeta in *.
      exists (S e), fl, a, s, new, used. split.
      - exact (accounted_trans _ _ _ _ _ _ _ _ _ _ _ _ _ _ _
                 (accounted_trans _ _ _ _ _ _ _ _ _ _ _ _ _ _ _ A13 A4) A5).
      - account_rest. }
    destruct (Extractor.verbose w3).
    { destruct dry_run; [|apply Hnext, accounted_refl].
      apply Hnext.
      destruct (etraced_log (py "  [DRY RUN] Would update abstract for "
                               ++ format_citation (data (Extractor.parent info))) w3)
        as [H4 Hs4].
      exact (accounted_etraced _ _ _ H4 Hs4). }
    destruct dry_run; [apply Hnext, accounted_refl|].
    destruct (approve_effect update_item (Extractor.parent info) (c :: t)
                (Extractor.stdin w3) w3 eq_refl)
      as (a & s & new & used & A4 & Ha & Hn & Hu & Hstop).
    cbv zeta in *.
    destruct (Extractor.approve update_item (Extractor.parent info) (c :: t)
                (Extractor.stdin w3) w3) as [w4 stop]. cbn [fst snd] in *.
    pose proof (accounted_trans _ _ _ _ _ _ _ _ _ _ _ _ _ _ _ A13 A4) as A14.
    cbn [app Nat.add] in A14.
    assert (stop <> Extractor.Completed ->
            exists e fl a s new used,
              accounted w (w4, stop).1 e fl a s new used /\
              e + fl <= S (length iis) /\
              ((w4, stop).2 = Extractor.Completed -> e + fl = S (length iis)) /\
              a <= length new /\ length new + s <= e /\ length new <= length used) as Hstopped.
    { intros Hne. destruct (Hstop Hne) as [-> ->].
      exists 1, 0, a, 0, [], used. split; [exact A14|].
      account_rest. }
    destruct stop; [|by apply Hstopped|by apply Hstopped].
    destruct (IH w4) as (e' & fl' & a' & s' & new' & used' & A5 & Hle & Heq & Ha' & Hn' & Hu').
    cbv zeta in *.
    exists (S e'), fl', (a + a'), (s + s'), (new ++ new'), (used ++ used').
    split; [exact (accounted_trans _ _ _ _ _ _ _ _ _ _ _ _ _ _ _ A14 A5)|].
    account_rest.
Qed.

(** X28: the account of a run of the extractor in discovery, in every
    mode and for every input.  The counters of the scan are set by the
    scan alone.  Every record the loop reaches is counted once, as
    extracted or as failed, so the two counters together grow by at most
    the number of records, and by exactly that number when the run comes
    to its end.  The writes sent are new entries behind the earlier
    ones; there are no more of them than input lines read, no more
    approvals than writes, and writes and skipped items together are no
    more than the abstracts extracted: nothing is written that was not
    extracted and answered for. *)
Theorem extractor_run_accounts {library}
    (update_item : library -> payload -> str + library)
    (everything_items : library -> list library_item)
    (zot_file : library -> str -> Extractor.pdf_file) (read_error : str)
    (f : file) (limit : option Z) (dry_run : bool) (w : @Extractor.world library) :
  run_mode f = DiscoveryMode ->
  let scan := Extractor.get_items_missing_abstracts_with_pdfs everything_items limit w in
  let r := Extractor.run update_item everything_items zot_file read_error f limit
             dry_run w in
  exists e fl a s new used,
    accounted (Extractor.with_stats (fun _ => Extractor.stats scan.1) w) r.1
              e fl a s new used /\
    e + fl <= length scan.2 /\
    (r.2 = Extractor.Completed -> e + fl = length scan.2) /\
    a <= length new /\ length new + s <= e /\ length new <= length used.
Proof.
  intros Hmode scan r. subst r. unfold Extractor.run.
  destruct (extractor_read_updates_traced read_error f w)
    as ((Hz0 & Hw0 & Hi0 & Hv0 & _) & Hs0 & Hups).
  cbv zeta in *.
  destruct (Extractor.read_updates read_error f w) as [w0 ups]. cbn [fst snd] in *.
  unfold run_mode in Hmode. rewrite <- Hups in Hmode.
  destruct (get_items_missing_abstracts_with_pdfs_unfold everything_items limit w0)
    as [Hw1 Hr1].
  destruct (get_items_missing_abstracts_with_pdfs_unfold everything_items limit w)
    as [Hw Hr].
  cbv zeta in *. fold scan in Hw, Hr. rewrite Hz0, <- Hr in Hr1.
  destruct (Extractor.get_items_missing_abstracts_with_pdfs everything_items limit w0)
    as [w1 items]. cbn [fst snd] in *. subst items.
  assert (accounted (Extractor.with_stats (fun _ => Extractor.stats scan.1) w) w1
            0 0 0 0 [] []) as A0.
  { rewrite Hw1, Hw. unfold accounted, Extractor.with_stats. cbn.
    rewrite Hz0, Hw0, Hi0, Hv0, Hs0, !app_nil_r, !Nat.add_0_r. done. }
  destruct (process_items_effect update_item zot_file dry_run (length scan.2)
              (zip (seq 1 (length scan.2)) scan.2) w1)
    as (e & fl & a & s & new & used & A1 & Hle & Heq & Ha & Hn & Hu).
  cbv zeta in *.
  rewrite length_zip, length_seq, Nat.min_id in Hle, Heq.
  assert (match ups with
          | Some (u :: us) =>
              (Extractor.process_from_updates_file update_item everything_items (u :: us)
                 dry_run w0, Extractor.Completed)
          | _ => Extractor.process_items update_item zot_file dry_run (length scan.2)
                   (zip (seq 1 (length scan.2)) scan.2) w1
          end = Extractor.process_items update_item zot_file dry_run (length scan.2)
                  (zip (seq 1 (length scan.2)) scan.2) w1) as ->
    by (by destruct ups as [[|u us]|]).
  exists e, fl, a, s, new, used.
  split; [exact (accounted_trans _ _ _ _ _ _ _ _ _ _ _ _ _ _ _ A0 A1)|done].
Qed.

Lemma extractor_run_accounts_witness :
  let paper k :=
    LibraryItem (Item k 1 (ItemData [] None None (Some (py "T")) None))
                (Some (py "journalArticle")) None None None None in
  let pdf k p :=
    LibraryItem (Item k 1 (ItemData [] None None None None))
                (Some (py "attachment")) None (Some (py "application/pdf")) (Some p) None in
  let lib (_ : unit) :=
    [paper (py "K1"); paper (py "K2"); pdf (py "A1") (py "K1"); pdf (py "A2") (py "K2")] in
  let w := Extractor.World tt [] false [] Extractor.stats_init [py "what"; py "y"; py "q"] in
  let r := Extractor.run (fun z _ => inr z) lib (fun _ _ => Extractor.Pages sixty_words) []
             Missing None false w in
  r.2 = Extractor.QuitByUser /\
  exists e fl a s new used,
    accounted (Extractor.with_stats
                 (fun _ => Extractor.stats
                    (Extractor.get_items_missing_abstracts_with_pdfs lib None w).1) w)
              r.1 e fl a s new used /\
    e + fl <= 2 /\ a <= length new /\ length new + s <= e /\ length new <= length used.
Proof.
  intros paper pdf lib w r. split; [vm_compute; reflexivity|].
  destruct (extractor_run_accounts (fun (z : unit) _ => @inr str unit z) lib
              (fun _ _ => Extractor.Pages sixty_words) [] Missing None false w eq_refl)
    as (e & fl & a & s & new & used & H & Hle & _ & Hrest).
  exists e, fl, a, s, new, used. split; [exact H|]. split; [exact Hle|exact Hrest].
Defined.
